(** * Truck-yard logistics dashboard: the data pipeline of [App.tsx]

    A shallow embedding of the pure part of [src/App.tsx]: the CSV decoder
    [robustParseCSV], the column resolver [findColIdx], the normalizers
    [smartParseDate], [parseNumberSafe], [getShiftDateString] and
    [formatDateToISO], the record builder inside [fetchCSV], and the memoised
    views [filteredData], [paretoData] and [todayMonitor].

    Conventions of the embedding.
    - A JavaScript string is the list of its UTF-16 code units ([list N]).
      [toLowerCase] maps the letters A-Z; other code units are left as they
      are (none of the header keywords of the source has a cased letter
      outside A-Z).
    - A JavaScript number is [NaN], an infinity or a finite value held as an
      exact rational: the rounding and overflow of binary64 arithmetic and
      the sign of zero are not part of the model.
    - A [Date] is its local time value in milliseconds ([None] for an invalid
      date).  The engine's zone is taken to be a fixed offset from UTC (as
      India Standard Time is), so the order of instants is the order of local
      time values; the calendar functions are those of ECMAScript
      (Day, YearFromTime, MonthFromTime, DateFromTime, MakeDay, MakeTime,
      MakeDate, TimeClip).
    - [new Date(text)], whose result ECMAScript leaves to the engine for
      texts outside its own format, is a parameter [DateParse]. *)

From Stdlib Require Import String Ascii.
From Stdlib Require Import ZArith NArith QArith Qround Qabs List Bool Lia Lqa.
From Stdlib Require Import Permutation Sorted.
Import ListNotations.

Local Open Scope Z_scope.
Local Open Scope list_scope.

(* ================================================================== *)
(** ** JavaScript strings *)
(* ================================================================== *)

Module JsString.

Definition jschar := N.
Definition jsstring := list N.

(** A literal of the source, written with ASCII characters. *)
Definition js (s : string) : jsstring :=
  List.map N_of_ascii (list_ascii_of_string s).

Definition QUOTE : jschar := 34%N.
Definition COMMA : jschar := 44%N.
Definition LF : jschar := 10%N.
Definition CR : jschar := 13%N.
Definition COLON : jschar := 58%N.

Definition jsstring_eq_dec : forall a b : jsstring, {a = b} + {a <> b} :=
  list_eq_dec N.eq_dec.

Definition jsstring_eqb (a b : jsstring) : bool :=
  if jsstring_eq_dec a b then true else false.

(** Truthiness of a string: [!s] holds of the empty string only. *)
Definition nonEmpty (s : jsstring) : bool :=
  match s with [] => false | _ :: _ => true end.

(** WhiteSpace and LineTerminator of ECMAScript: what [trim] strips and what
    [\s] matches. *)
Definition isWhiteSpace (c : jschar) : bool :=
  ((9 <=? c) && (c <=? 13) || (c =? 32) || (c =? 160) || (c =? 5760)
   || (8192 <=? c) && (c <=? 8202) || (c =? 8232) || (c =? 8233)
   || (c =? 8239) || (c =? 8287) || (c =? 12288) || (c =? 65279))%N.

Fixpoint trimStart (s : jsstring) : jsstring :=
  match s with
  | c :: r => if isWhiteSpace c then trimStart r else s
  | [] => []
  end.

Definition trimEnd (s : jsstring) : jsstring := rev (trimStart (rev s)).

Definition trim (s : jsstring) : jsstring := trimEnd (trimStart s).

Definition lowerChar (c : jschar) : jschar :=
  if ((65 <=? c) && (c <=? 90))%N then (c + 32)%N else c.

Definition toLowerCase (s : jsstring) : jsstring := List.map lowerChar s.

Fixpoint startsWith (p s : jsstring) : bool :=
  match p, s with
  | [], _ => true
  | a :: p', b :: s' => (a =? b)%N && startsWith p' s'
  | _ :: _, [] => false
  end.

(** [s.includes(k)]: [k] occurs in [s] as a contiguous run. *)
Fixpoint includes (s k : jsstring) : bool :=
  startsWith k s || match s with [] => false | _ :: s' => includes s' k end.

(** [s.replace(/c/g, '')] for a class of single code units. *)
Definition removeAll (p : jschar -> bool) (s : jsstring) : jsstring :=
  List.filter (fun c => negb (p c)) s.

(** [s.split(sep)] for a one-unit separator. *)
Fixpoint splitOn (sep : jschar) (cur : jsstring) (s : jsstring) : list jsstring :=
  match s with
  | [] => [cur]
  | c :: r => if (c =? sep)%N then cur :: splitOn sep [] r
              else splitOn sep (cur ++ [c]) r
  end.

(** [s.split(/\s+/)]: a run of white space is one separator; white space at
    either end leaves an empty piece there. *)
Fixpoint splitWs (inRun : bool) (cur : jsstring) (s : jsstring) : list jsstring :=
  match s with
  | [] => [cur]
  | c :: r =>
      if isWhiteSpace c
      then if inRun then splitWs true cur r else cur :: splitWs true [] r
      else splitWs false (cur ++ [c]) r
  end.

Definition isComma (c : jschar) : bool := (c =? COMMA)%N.

Definition isDigit (c : jschar) : bool := ((48 <=? c) && (c <=? 57))%N.

Definition digitVal (c : jschar) : Z := Z.of_N c - 48.

(** Decimal value of a run of digits. *)
Definition digitsVal (ds : jsstring) : Z :=
  fold_left (fun acc c => 10 * acc + digitVal c) ds 0.

Fixpoint spanDigits (s : jsstring) : jsstring * jsstring :=
  match s with
  | c :: r => if isDigit c then let (ds, rest) := spanDigits r in (c :: ds, rest)
              else ([], s)
  | [] => ([], [])
  end.

(** Decimal digits of a natural number, most significant first. *)
Fixpoint digitsOfFuel (fuel : nat) (n : Z) (acc : jsstring) : jsstring :=
  match fuel with
  | O => acc
  | S f =>
      let acc' := Z.to_N (48 + n mod 10) :: acc in
      if n / 10 =? 0 then acc' else digitsOfFuel f (n / 10) acc'
  end.

(** [String(n)] for an integer [n]. *)
Definition stringOfZ (n : Z) : jsstring :=
  if n <? 0 then 45%N :: digitsOfFuel (S (Z.to_nat (Z.log2 (- n)))) (- n) []
  else digitsOfFuel (S (Z.to_nat (Z.log2 n))) n [].

(** [s.padStart(2, '0')]. *)
Definition padStart2 (s : jsstring) : jsstring :=
  match s with
  | [] => [48%N; 48%N]
  | [c] => [48%N; c]
  | _ => s
  end.

End JsString.

Import JsString.

(* ================================================================== *)
(** ** The CSV decoder *)
(* ================================================================== *)

Module Csv.

(** The loop of [robustParseCSV] over the rest of the text, with the
    variables [inQuotes], [result], [row] and [col] of the source; [i++]
    inside the body drops the next code unit as well. *)
Fixpoint scan (text : jsstring) (inQuotes : bool)
  (result : list (list jsstring)) (row : list jsstring) (col : jsstring)
  : list (list jsstring) :=
  match text with
  | [] =>
      if nonEmpty col || (0 <? Z.of_nat (length row))
      then result ++ [row ++ [col]] else result
  | char :: rest =>
      if inQuotes then
        if (char =? QUOTE)%N then
          match rest with
          | nextChar :: rest' =>
              if (nextChar =? QUOTE)%N
              then scan rest' true result row (col ++ [QUOTE])
              else scan rest false result row col
          | [] => scan rest false result row col
          end
        else scan rest true result row (col ++ [char])
      else
        if (char =? QUOTE)%N then scan rest true result row col
        else if (char =? COMMA)%N then scan rest false result (row ++ [col]) []
        else if (char =? LF)%N || (char =? CR)%N then
          let row1 := row ++ [col] in
          let result1 :=
            if 0 <? Z.of_nat (length row1) then result ++ [row1] else result in
          match rest with
          | nextChar :: rest' =>
              if (char =? CR)%N && (nextChar =? LF)%N
              then scan rest' false result1 [] []
              else scan rest false result1 [] []
          | [] => scan rest false result1 [] []
          end
        else scan rest false result row (col ++ [char])
  end.

Definition robustParseCSV (text : jsstring) : list (list jsstring) :=
  scan text false [] [] [].

(** *** The encoder of the round-trip property

    Written from the words of the specification: cells separated by a comma,
    every row ended by a newline, a cell put between quotes when it holds a
    character of the class [special], quotes inside it doubled. *)

Definition escapeQuotes (cell : jsstring) : jsstring :=
  flat_map (fun c => if (c =? QUOTE)%N then [QUOTE; QUOTE] else [c]) cell.

Definition encodeCell (special : jschar -> bool) (cell : jsstring) : jsstring :=
  if existsb special cell then QUOTE :: escapeQuotes cell ++ [QUOTE] else cell.

Fixpoint encodeCells (special : jschar -> bool) (cells : list jsstring) : jsstring :=
  match cells with
  | [] => []
  | [c] => encodeCell special c
  | c :: cs => encodeCell special c ++ COMMA :: encodeCells special cs
  end.

Definition encodeRow (special : jschar -> bool) (cells : list jsstring) : jsstring :=
  encodeCells special cells ++ [LF].

Definition encodeWith (special : jschar -> bool) (rows : list (list jsstring)) : jsstring :=
  flat_map (encodeRow special) rows.

(** Spec-side definition: the quoting class as the specification words it,
    "comma, quote, or newline", the newline being the row terminator LF. *)
Definition specialSpec (c : jschar) : bool :=
  ((c =? COMMA) || (c =? QUOTE) || (c =? LF))%N.

Definition encode : list (list jsstring) -> jsstring := encodeWith specialSpec.

(** The class that also holds the carriage return, the second character at
    which the decoder ends a row. *)
Definition specialCR (c : jschar) : bool :=
  ((c =? COMMA) || (c =? QUOTE) || (c =? LF) || (c =? CR))%N.

Definition encodeCR : list (list jsstring) -> jsstring := encodeWith specialCR.

(** Every row has at least one cell. *)
Definition rowsNonEmpty (rows : list (list jsstring)) : Prop :=
  Forall (fun r => r <> []) rows.

(** The next code unit, if there is one, is not a quote. *)
Definition noQuoteAhead (rest : jsstring) : Prop :=
  match rest with
  | [] => True
  | c :: _ => c <> QUOTE
  end.

End Csv.

(* ================================================================== *)
(** ** JavaScript numbers *)
(* ================================================================== *)

Module JsNumber.

Inductive number : Type :=
| NaN : number
| Infinity (negative : bool) : number
| Fin (q : Q) : number.

Definition ofZ (z : Z) : number := Fin (inject_Z z).

Definition isNaN (x : number) : bool :=
  match x with NaN => true | _ => false end.

Definition isFinite (x : number) : bool :=
  match x with Fin _ => true | _ => false end.

(** Truthiness: [NaN] and zero are falsy. *)
Definition truthy (x : number) : bool :=
  match x with
  | NaN => false
  | Infinity _ => true
  | Fin q => negb (Qeq_bool q 0)
  end.

(** [x || 0]. *)
Definition orZero (x : number) : number := if truthy x then x else Fin 0.

Definition Qsign_neg (q : Q) : bool := (Qnum q <? 0)%Z.

Definition add (x y : number) : number :=
  match x, y with
  | NaN, _ | _, NaN => NaN
  | Infinity a, Infinity b => if Bool.eqb a b then Infinity a else NaN
  | Infinity a, Fin _ => Infinity a
  | Fin _, Infinity b => Infinity b
  | Fin p, Fin q => Fin (p + q)
  end.

Definition neg (x : number) : number :=
  match x with
  | NaN => NaN
  | Infinity a => Infinity (negb a)
  | Fin q => Fin (- q)
  end.

Definition sub (x y : number) : number := add x (neg y).

Definition mul (x y : number) : number :=
  match x, y with
  | NaN, _ | _, NaN => NaN
  | Infinity a, Infinity b => Infinity (xorb a b)
  | Infinity a, Fin q | Fin q, Infinity a =>
      if Qeq_bool q 0 then NaN else Infinity (xorb a (Qsign_neg q))
  | Fin p, Fin q => Fin (p * q)
  end.

(** Division; a zero divisor is the positive zero. *)
Definition div (x y : number) : number :=
  match x, y with
  | NaN, _ | _, NaN => NaN
  | Infinity _, Infinity _ => NaN
  | Infinity a, Fin q => Infinity (xorb a (Qsign_neg q))
  | Fin _, Infinity _ => Fin 0
  | Fin p, Fin q =>
      if Qeq_bool q 0
      then if Qeq_bool p 0 then NaN else Infinity (Qsign_neg p)
      else Fin (p / q)
  end.

(** [x < y]; false as soon as one side is [NaN]. *)
Definition ltb (x y : number) : bool :=
  match x, y with
  | NaN, _ | _, NaN => false
  | Infinity a, Infinity b => a && negb b
  | Infinity a, Fin _ => a
  | Fin _, Infinity b => negb b
  | Fin p, Fin q => negb (Qle_bool q p)
  end.

Definition gtb (x y : number) : bool := ltb y x.

(** [x <= y]. *)
Definition leb (x y : number) : bool :=
  match x, y with
  | NaN, _ | _, NaN => false
  | Infinity a, Infinity b => a || negb b
  | Infinity a, Fin _ => a
  | Fin _, Infinity b => negb b
  | Fin p, Fin q => Qle_bool p q
  end.

(** [Math.round]: the nearest integer, halves going up. *)
Definition round (x : number) : number :=
  match x with
  | Fin q => Fin (inject_Z (Qfloor (q + (1 # 2))))
  | _ => x
  end.

(** [Math.min(x, y)]. *)
Definition min (x y : number) : number :=
  match x, y with
  | NaN, _ | _, NaN => NaN
  | _, _ => if ltb y x then y else x
  end.

(** [parseFloat(x.toFixed(1))]: [toFixed] rounds the magnitude to one
    decimal, halves going away from zero, and writes numbers of magnitude
    1e21 and more, infinities and [NaN] as [String] does, so that they read
    back unchanged. *)
Definition fixed1 (x : number) : number :=
  match x with
  | Fin q =>
      if Qle_bool (inject_Z (10 ^ 21)) (Qabs q) then x
      else
        let n := Qfloor (Qabs q * 10 + (1 # 2)) in
        Fin (Qred ((if Qsign_neg q then - n else n)%Z # 10))
  | _ => x
  end.

(** [ToIntegerOrInfinity] on a finite value: truncation towards zero. *)
Definition truncate (q : Q) : Z := Z.quot (Qnum q) (Zpos (Qden q)).

(** *** Numeric literals of strings *)

(** Value of [mantissa * 10 ^ exponent]. *)
Definition scale10 (mantissa exponent : Z) : Q :=
  if (0 <=? exponent)%Z then inject_Z (mantissa * 10 ^ exponent)
  else Qred (mantissa # Z.to_pos (10 ^ (- exponent))).

Definition INFINITY_LIT : jsstring := js "Infinity".

(** The exponent part [e], [E] followed by an optionally signed run of
    digits; without a digit there is no exponent part. *)
Definition exponentPart (s : jsstring) : Z * jsstring :=
  match s with
  | c :: r =>
      if ((c =? 101) || (c =? 69))%N then
        let '(sgn, r1) :=
          match r with
          | d :: r' => if (d =? 45)%N then (-1, r')
                       else if (d =? 43)%N then (1, r') else (1, r)
          | [] => (1, r)
          end in
        let (ds, rest) := spanDigits r1 in
        match ds with
        | [] => (0, s)
        | _ :: _ => (sgn * digitsVal ds, rest)
        end
      else (0, s)
  | [] => (0, s)
  end.

(** The longest prefix that is a [StrUnsignedDecimalLiteral], with its value
    and the rest of the string. *)
Definition unsignedDecimalPrefix (s : jsstring) : option (number * jsstring) :=
  if startsWith INFINITY_LIT s
  then Some (Infinity false, skipn (List.length INFINITY_LIT) s)
  else
    let (ip, r1) := spanDigits s in
    let '(fp, r2, dotted) :=
      match r1 with
      | c :: r' =>
          if (c =? 46)%N
          then let (fp, r2) := spanDigits r' in (fp, r2, true)
          else ([], r1, false)
      | [] => ([], r1, false)
      end in
    match ip, fp with
    | [], [] => None
    | _, _ =>
        let (e, r3) := exponentPart r2 in
        Some (Fin (scale10 (digitsVal (ip ++ fp)) (e - Z.of_nat (List.length fp))), r3)
    end.

(** The longest prefix that is a [StrDecimalLiteral]. *)
Definition decimalPrefix (s : jsstring) : option (number * jsstring) :=
  match s with
  | c :: r =>
      if (c =? 45)%N then
        match unsignedDecimalPrefix r with
        | Some (v, rest) => Some (neg v, rest)
        | None => None
        end
      else if (c =? 43)%N then unsignedDecimalPrefix r
      else unsignedDecimalPrefix s
  | [] => None
  end.

(** [parseFloat(s)]. *)
Definition parseFloat (s : jsstring) : number :=
  match decimalPrefix (trimStart s) with
  | Some (v, _) => v
  | None => NaN
  end.

Definition radixDigit (radix : Z) (c : jschar) : option Z :=
  let v :=
    if isDigit c then Z.of_N c - 48
    else if ((97 <=? c) && (c <=? 102))%N then Z.of_N c - 87
    else if ((65 <=? c) && (c <=? 70))%N then Z.of_N c - 55
    else 99 in
  if v <? radix then Some v else None.

Fixpoint radixVal (radix : Z) (acc : Z) (s : jsstring) : option Z :=
  match s with
  | [] => Some acc
  | c :: r =>
      match radixDigit radix c with
      | Some v => radixVal radix (radix * acc + v) r
      | None => None
      end
  end.

(** [Number(s)] ([StringToNumber]): the whole trimmed string is a decimal
    literal or a [0x], [0o], [0b] integer; the empty string is 0. *)
Definition toNumber (s : jsstring) : number :=
  match trim s with
  | [] => Fin 0
  | (c :: p :: (_ :: _) as ds) as t =>
      let radix :=
        if (c =? 48)%N then
          if ((p =? 120) || (p =? 88))%N then 16
          else if ((p =? 111) || (p =? 79))%N then 8
          else if ((p =? 98) || (p =? 66))%N then 2 else 0
        else 0 in
      if radix =? 0 then
        match decimalPrefix t with
        | Some (v, []) => v
        | _ => NaN
        end
      else
        match radixVal radix 0 ds with
        | Some v => ofZ v
        | None => NaN
        end
  | t =>
      match decimalPrefix t with
      | Some (v, []) => v
      | _ => NaN
      end
  end.

End JsNumber.

Import JsNumber.

(* ================================================================== *)
(** ** Dates: the time values and calendar functions of ECMAScript *)
(* ================================================================== *)

Module JsDate.

Definition msPerDay : Z := 86400000.
Definition msPerHour : Z := 3600000.
Definition msPerMinute : Z := 60000.

Definition Day (t : Z) : Z := t / msPerDay.
Definition TimeWithinDay (t : Z) : Z := t mod msPerDay.

Definition DaysInYear (y : Z) : Z :=
  if negb (y mod 4 =? 0) then 365
  else if negb (y mod 100 =? 0) then 366
  else if negb (y mod 400 =? 0) then 365 else 366.

Definition DayFromYear (y : Z) : Z :=
  365 * (y - 1970) + (y - 1969) / 4 - (y - 1901) / 100 + (y - 1601) / 400.

(** The largest year whose first day is not after day [d]: an estimate from
    the mean length of a year, corrected by one where it is off. *)
Definition YearFromDay (d : Z) : Z :=
  let y := 1970 + (400 * d) / 146097 in
  if d <? DayFromYear y then y - 1
  else if DayFromYear (y + 1) <=? d then y + 1
  else y.

Definition YearFromTime (t : Z) : Z := YearFromDay (Day t).

Definition InLeapYear (t : Z) : Z :=
  if DaysInYear (YearFromTime t) =? 366 then 1 else 0.

Definition DayWithinYear (t : Z) : Z := Day t - DayFromYear (YearFromTime t).

Definition MonthFromTime (t : Z) : Z :=
  let d := DayWithinYear t in
  let l := InLeapYear t in
  if d <? 31 then 0
  else if d <? 59 + l then 1
  else if d <? 90 + l then 2
  else if d <? 120 + l then 3
  else if d <? 151 + l then 4
  else if d <? 181 + l then 5
  else if d <? 212 + l then 6
  else if d <? 243 + l then 7
  else if d <? 273 + l then 8
  else if d <? 304 + l then 9
  else if d <? 334 + l then 10
  else 11.

Definition DateFromTime (t : Z) : Z :=
  let d := DayWithinYear t in
  let l := InLeapYear t in
  match MonthFromTime t with
  | 0 => d + 1
  | 1 => d - 30
  | 2 => d - 58 - l
  | 3 => d - 89 - l
  | 4 => d - 119 - l
  | 5 => d - 150 - l
  | 6 => d - 180 - l
  | 7 => d - 211 - l
  | 8 => d - 242 - l
  | 9 => d - 272 - l
  | 10 => d - 303 - l
  | _ => d - 333 - l
  end.

Definition HourFromTime (t : Z) : Z := (t / msPerHour) mod 24.
Definition MinFromTime (t : Z) : Z := (t / msPerMinute) mod 60.

(** Days of the year before month [mn] (0 to 11). *)
Definition daysBeforeMonth (mn : Z) (leap : Z) : Z :=
  match mn with
  | 0 => 0
  | 1 => 31
  | 2 => 59 + leap
  | 3 => 90 + leap
  | 4 => 120 + leap
  | 5 => 151 + leap
  | 6 => 181 + leap
  | 7 => 212 + leap
  | 8 => 243 + leap
  | 9 => 273 + leap
  | 10 => 304 + leap
  | _ => 334 + leap
  end.

(** The number of days of month [mn] (0 to 11). *)
Definition daysInMonth (mn leap : Z) : Z :=
  match mn with
  | 1 => 28 + leap
  | 3 | 5 | 8 | 10 => 30
  | _ => 31
  end.

(** [MakeDay(year, month, date)] on integers: the day number of the first of
    month [month mod 12] of year [year + floor(month / 12)], moved by
    [date - 1] days.  (A year beyond the range of time values gives a day
    that [TimeClip] refuses afterwards.) *)
Definition MakeDay (year month date : Z) : Z :=
  let ym := year + month / 12 in
  let mn := month mod 12 in
  DayFromYear ym
  + daysBeforeMonth mn (if DaysInYear ym =? 366 then 1 else 0)
  + date - 1.

(** [MakeTime(hour, min, 0, 0)]: not finite gives no time. *)
Definition MakeTime (hour min : number) : option Z :=
  match hour, min with
  | Fin h, Fin m => Some (truncate h * msPerHour + truncate m * msPerMinute)
  | _, _ => None
  end.

Definition MakeDate (day time : Z) : Z := day * msPerDay + time.

Definition maxTime : Z := 8640000000000000.

Definition inRange (t : Z) : bool := (- maxTime <=? t) && (t <=? maxTime).

Definition TimeClip (t : Z) : option Z := if inRange t then Some t else None.

(** A [Date] object: its local time value, [None] for an invalid date. *)
Definition Date := option Z.

(** [new Date(year, month, date, hours, minutes)] with integer year, month
    and date; a year from 0 to 99 counts from 1900. *)
Definition newDate (year month date : Z) (hours minutes : number) : Date :=
  let yr := if (0 <=? year) && (year <=? 99) then 1900 + year else year in
  match MakeTime hours minutes with
  | Some tm => TimeClip (MakeDate (MakeDay yr month date) tm)
  | None => None
  end.

(** [d.setDate(dt)]. *)
Definition setDate (d : Date) (dt : Z) : Date :=
  match d with
  | Some t =>
      TimeClip (MakeDate (MakeDay (YearFromTime t) (MonthFromTime t) dt)
                         (TimeWithinDay t))
  | None => None
  end.

(** [d1 >= d2] and [d1 < d2] on dates compare the time values and are false
    when one of them is invalid. *)
Definition dateGe (d1 d2 : Date) : bool :=
  match d1, d2 with
  | Some a, Some b => b <=? a
  | _, _ => false
  end.

Definition dateLt (d1 d2 : Date) : bool :=
  match d1, d2 with
  | Some a, Some b => a <? b
  | _, _ => false
  end.

End JsDate.

Import JsDate.


(* ================================================================== *)
(** ** The pipeline of [App.tsx] *)
(* ================================================================== *)

Module App.

(** [formatDateToISO]: an invalid date prints [NaN] for each component. *)
Definition formatDateToISO (d : Date) : jsstring :=
  match d with
  | Some t =>
      let yyyy := stringOfZ (YearFromTime t) in
      let mm := padStart2 (stringOfZ (MonthFromTime t + 1)) in
      let dd := padStart2 (stringOfZ (DateFromTime t)) in
      yyyy ++ js "-" ++ mm ++ js "-" ++ dd
  | None => js "NaN-NaN-NaN"
  end.

(** The shape [dddd-dd-dd] of a date string. *)
Definition isoShape (s : jsstring) : bool :=
  match s with
  | [y1; y2; y3; y4; h1; m1; m2; h2; d1; d2] =>
      isDigit y1 && isDigit y2 && isDigit y3 && isDigit y4 && (h1 =? 45)%N
      && isDigit m1 && isDigit m2 && (h2 =? 45)%N && isDigit d1 && isDigit d2
  | _ => false
  end.

(** [getShiftDateString]: [h < 7] is false for the [NaN] hour of an invalid
    date; [new Date(date)] copies the time value. *)
Definition getShiftDateString (date : Date) : jsstring :=
  match date with
  | Some t =>
      let h := HourFromTime t in
      let d := TimeClip t in
      let d := if h <? 7
               then match d with
                    | Some t' => setDate d (DateFromTime t' - 1)
                    | None => d
                    end
               else d in
      formatDateToISO d
  | None => formatDateToISO None
  end.

(** [findColIdx]: the index of the first header holding a keyword, -1 when
    there is none. *)
Fixpoint findIndexFrom {A : Type} (p : A -> bool) (i : Z) (l : list A) : Z :=
  match l with
  | [] => -1
  | x :: l' => if p x then i else findIndexFrom p (i + 1) l'
  end.

Definition findColIdx (headers keywords : list jsstring) : Z :=
  findIndexFrom
    (fun h => existsb (fun k => includes (toLowerCase h) (toLowerCase k)) keywords)
    0 headers.

(** [c[i]]: [undefined] (here [None]) for -1 and past the end of the row. *)
Definition cellAt (c : list jsstring) (i : Z) : option jsstring :=
  if i <? 0 then None else nth_error c (Z.to_nat i).

(** [c[i] || dflt]. *)
Definition cellOr (c : list jsstring) (i : Z) (dflt : jsstring) : jsstring :=
  match cellAt c i with
  | Some s => if nonEmpty s then s else dflt
  | None => dflt
  end.

(** [parseNumberSafe], applied to a cell that may be [undefined]. *)
Definition parseNumberSafe (str : option jsstring) : number :=
  match str with
  | None => Fin 0
  | Some s =>
      if negb (nonEmpty s) then Fin 0
      else orZero (parseFloat (removeAll isComma s))
  end.

(** A cell that gives no number: absent, empty, or without a decimal literal
    at its head once the commas are removed. *)
Definition unparsedOrAbsent (cell : option jsstring) : Prop :=
  match cell with
  | None => True
  | Some s => s = [] \/ isNaN (parseFloat (removeAll isComma s)) = true
  end.

(** A cell without a minus sign. *)
Definition noMinus (cell : option jsstring) : Prop :=
  match cell with
  | None => True
  | Some s => ~ In 45%N s
  end.

(** *** [smartParseDate] *)

Definition isZeroWidth (c : jschar) : bool :=
  ((8203 <=? c) && (c <=? 8205) || (c =? 65279))%N.

Definition cleanText (str : jsstring) : jsstring :=
  List.map (fun c => if (c =? 160)%N then 32%N else c)
           (removeAll isZeroWidth (trim str)).

(** [\d{n}] at the head of [s]. *)
Fixpoint digitsN (n : nat) (s : jsstring) : option (jsstring * jsstring) :=
  match n with
  | O => Some ([], s)
  | S n' =>
      match s with
      | c :: r =>
          if isDigit c then
            match digitsN n' r with
            | Some (ds, rest) => Some (c :: ds, rest)
            | None => None
            end
          else None
      | [] => None
      end
  end.

(** [[-/.]] at the head of [s]. *)
Definition sepChar (s : jsstring) : option jsstring :=
  match s with
  | c :: r => if ((c =? 45) || (c =? 47) || (c =? 46))%N then Some r else None
  | [] => None
  end.

(** [\d{1,2}] followed by the rest [k] of the pattern: two digits are tried
    first, then one. *)
Definition digits12 {A : Type} (s : jsstring)
  (k : jsstring -> jsstring -> option A) : option A :=
  match match digitsN 2 s with Some (ds, r) => k ds r | None => None end with
  | Some res => Some res
  | None => match digitsN 1 s with Some (ds, r) => k ds r | None => None end
  end.

(** [datePart.match(/^(\d{4})[-/.](\d{1,2})[-/.](\d{1,2})/)]: the three
    groups in the order of the pattern. *)
Definition isoMatch (datePart : jsstring) : option (jsstring * jsstring * jsstring) :=
  match digitsN 4 datePart with
  | Some (g1, r1) =>
      match sepChar r1 with
      | Some r2 =>
          digits12 r2 (fun g2 r3 =>
            match sepChar r3 with
            | Some r4 => digits12 r4 (fun g3 _ => Some (g1, g2, g3))
            | None => None
            end)
      | None => None
      end
  | None => None
  end.

(** [datePart.match(/^(\d{1,2})[-/.](\d{1,2})[-/.](\d{4})/)]. *)
Definition dmyMatch (datePart : jsstring) : option (jsstring * jsstring * jsstring) :=
  digits12 datePart (fun g1 r1 =>
    match sepChar r1 with
    | Some r2 =>
        digits12 r2 (fun g2 r3 =>
          match sepChar r3 with
          | Some r4 =>
              match digitsN 4 r4 with
              | Some (g3, _) => Some (g1, g2, g3)
              | None => None
              end
          | None => None
          end)
    | None => None
    end).

(** [parseInt] of a group of digits. *)
Definition parseInt (g : jsstring) : Z := digitsVal g.

Section SmartParseDate.

(** [new Date(text)] for a text: left to the engine. *)
Variable DateParse : jsstring -> Date.

(** The date part, and the hours and minutes [hh || 0], [mm || 0] read from
    the time part. *)
Definition dateAndTime (cleanStr : jsstring) : jsstring * number * number :=
  let parts := splitWs false [] cleanStr in
  let datePart := hd [] parts in
  let timePart := match parts with _ :: t :: _ => t | _ => js "00:00" end in
  let nums := List.map toNumber (splitOn COLON [] timePart) in
  let hh := match nums with h :: _ => orZero h | [] => Fin 0 end in
  let mm := match nums with _ :: m :: _ => orZero m | _ => Fin 0 end in
  (datePart, hh, mm).

(** The result is [null] (here [None]) or a valid date. *)
Definition smartParseDate (str : jsstring) : Date :=
  if negb (nonEmpty str) then None
  else
    let cleanStr := cleanText str in
    let '(datePart, hh, mm) := dateAndTime cleanStr in
    match isoMatch datePart with
    | Some (g1, g2, g3) =>
        newDate (parseInt g1) (parseInt g2 - 1) (parseInt g3) hh mm
    | None =>
        match dmyMatch datePart with
        | Some (g1, g2, g3) =>
            newDate (parseInt g3) (parseInt g2 - 1) (parseInt g1) hh mm
        | None => DateParse cleanStr
        end
    end.

(** *** The record builder of [fetchCSV] *)

Record TruckData : Type := {
  truckNo : jsstring;
  matName : jsstring;
  arrivalTime : jsstring;
  endTime : jsstring;
  totalTime : number;
  weight : number;
  mxStock : number;
  whStock : number
}.

Record ColIdx : Type := {
  truck : Z; mat : Z; arrival : Z; end_ : Z; totalTimeIdx : Z; weightIdx : Z
}.

Definition kwTruck : list jsstring :=
  [[36554; 34399]%N; [36554; 29260]%N; js "Truck"].
Definition kwMat : list jsstring :=
  [[21407; 26448; 26009]%N; [21697; 21517]%N; js "Material"].
Definition kwArrival : list jsstring := [[36914; 22580]%N; js "Arrival"].
Definition kwEnd : list jsstring :=
  [[32080; 26463]%N; [20316; 26989; 23436; 25104]%N; js "End"].
Definition kwTotalTime : list jsstring :=
  [[20316; 26989; 32317; 26178; 38291]%N; [32317; 26178; 38291]%N;
   js "Duration"; js "Total Time"].
Definition kwWeight : list jsstring := [[37325; 37327]%N; js "Weight"; js "(t)"].

Definition resolveColumns (headers : list jsstring) : ColIdx :=
  {| truck := findColIdx headers kwTruck;
     mat := findColIdx headers kwMat;
     arrival := findColIdx headers kwArrival;
     end_ := findColIdx headers kwEnd;
     totalTimeIdx := findColIdx headers kwTotalTime;
     weightIdx := findColIdx headers kwWeight |}.

Definition NA : jsstring := js "N/A".

(** The object built from one row [c]. *)
Definition buildRecord (idx : ColIdx) (c : list jsstring) : TruckData :=
  {| truckNo := cellOr c (truck idx) NA;
     matName := cellOr c (mat idx) NA;
     arrivalTime := cellOr c (arrival idx) [];
     endTime := cellOr c (end_ idx) [];
     totalTime := parseNumberSafe (cellAt c (totalTimeIdx idx));
     weight := parseNumberSafe (cellAt c (weightIdx idx));
     mxStock := Fin 0;
     whStock := Fin 0 |}.

(** The rows of [fetchCSV] from [allRows] on: [None] is the early return
    that leaves the record set as it was. *)
Definition buildRecords (allRows : list (list jsstring)) : option (list TruckData) :=
  if Z.of_nat (List.length allRows) <=? 1 then None
  else
    let headers := List.map trim (hd [] allRows) in
    let idx := resolveColumns headers in
    Some (List.filter (fun x => nonEmpty (matName x))
            (List.map (buildRecord idx) (skipn 1 allRows))).

Definition parseText (text : jsstring) : option (list TruckData) :=
  buildRecords (Csv.robustParseCSV text).

(** The state that a fetch replaces. *)
Record Store : Type := { rawData : list TruckData; dataVersion : Z }.

Definition fetchCSV (text : jsstring) (st : Store) : Store :=
  match parseText text with
  | Some parsed => {| rawData := parsed; dataVersion := dataVersion st + 1 |}
  | None => st
  end.

(** *** [filteredData] *)

Record FilterState : Type := {
  startDate : jsstring; endDate : jsstring; material : jsstring
}.

(** [new Date(d.getFullYear(), d.getMonth(), d.getDate() + k, 7, 0)] for a
    valid date [d] of time value [t]. *)
Definition boundary (t : Z) (k : Z) : Date :=
  newDate (YearFromTime t) (MonthFromTime t) (DateFromTime t + k) (Fin 7) (Fin 0).

Definition materialMatches (filter : jsstring) (r : TruckData) : bool :=
  negb (nonEmpty filter)
  || includes (toLowerCase (matName r)) (toLowerCase filter).

Definition inWindow (sB eB : Date) (r : TruckData) : bool :=
  match smartParseDate (arrivalTime r) with
  | Some d => dateGe (Some d) sB && dateLt (Some d) eB
  | None => false
  end.

Definition filteredData (rawData : list TruckData) (filters : FilterState)
  : list TruckData :=
  match smartParseDate (startDate filters), smartParseDate (endDate filters) with
  | Some s, Some e =>
      let sB := boundary s 0 in
      let eB := boundary e 1 in
      List.filter
        (fun r => inWindow sB eB r && materialMatches (material filters) r)
        rawData
  | _, _ => []
  end.

(** *** Sorting with a comparator

    [Array.prototype.sort] is stable; [a] is moved behind [b] only when the
    comparator is positive on them, and a [NaN] from the comparator counts
    as zero.  The order of the result is that of a stable insertion sort. *)

Fixpoint insertBy {A : Type} (cmp : A -> A -> number) (x : A) (l : list A) : list A :=
  match l with
  | [] => [x]
  | y :: l' => if gtb (cmp x y) (Fin 0) then y :: insertBy cmp x l' else x :: l
  end.

Definition sortBy {A : Type} (cmp : A -> A -> number) (l : list A) : list A :=
  fold_right (insertBy cmp) [] l.

(** *** [paretoData] *)

(** The object [stats], its keys in the order of their creation.  (A
    material named as a property that every object inherits, such as
    [constructor], is outside the model.) *)
Definition Stats := list (jsstring * number).

(** [stats[k] = (stats[k] || 0) + v]. *)
Fixpoint statsAdd (k : jsstring) (v : number) (stats : Stats) : Stats :=
  match stats with
  | [] => [(k, add (Fin 0) v)]
  | (k', old) :: rest =>
      if jsstring_eqb k' k then (k', add (orZero old) v) :: rest
      else (k', old) :: statsAdd k v rest
  end.

(** [k] is a key of [stats]. *)
Definition hasKey (k : jsstring) (st : Stats) : Prop := exists v, In (k, v) st.

Definition buildStats (filtered : list TruckData) : Stats :=
  fold_left (fun st r => statsAdd (matName r) (div (weight r) (Fin 1000)) st)
            filtered [].

(** A key that is an array index: a canonical decimal numeral up to
    2^32 - 2. *)
Definition arrayIndex (k : jsstring) : option Z :=
  match k with
  | [] => None
  | c :: r =>
      if forallb isDigit k && (negb (c =? 48)%N || negb (nonEmpty r))
      then if digitsVal k <=? 4294967294 then Some (digitsVal k) else None
      else None
  end.

Fixpoint insertIndex (i : Z) (e : jsstring * number)
  (l : list (Z * (jsstring * number))) : list (Z * (jsstring * number)) :=
  match l with
  | [] => [(i, e)]
  | (j, e') :: l' => if i <? j then (i, e) :: l else (j, e') :: insertIndex i e l'
  end.

(** [Object.entries(stats)]: the array-index keys in ascending order first,
    then the other keys in the order of their creation. *)
Definition entries (stats : Stats) : list (jsstring * number) :=
  let indexed :=
    fold_right (fun e acc =>
                  match arrayIndex (fst e) with
                  | Some i => insertIndex i e acc
                  | None => acc
                  end) [] stats in
  List.map snd indexed
  ++ List.filter (fun e => match arrayIndex (fst e) with
                           | Some _ => false | None => true end) stats.

Record ParetoItem : Type := {
  name : jsstring; tons : number; percentage : number
}.

(** The comparator [(a, b) => b[1] - a[1]]. *)
Definition byTonsDesc (a b : jsstring * number) : number := sub (snd b) (snd a).

Definition top10 (filtered : list TruckData) : list (jsstring * number) :=
  List.map (fun e => (fst e, fixed1 (snd e)))
           (firstn 10 (sortBy byTonsDesc (entries (buildStats filtered)))).

Definition sumTons (sorted : list (jsstring * number)) : number :=
  fold_left (fun a b => add a (snd b)) sorted (Fin 0).

(** The [map] with the running sum [acc]. *)
Fixpoint cumulate (acc total : number) (sorted : list (jsstring * number))
  : list ParetoItem :=
  match sorted with
  | [] => []
  | i :: rest =>
      let acc' := add acc (snd i) in
      {| name := fst i; tons := snd i;
         percentage := if gtb total (Fin 0)
                       then round (mul (div acc' total) (Fin 100))
                       else Fin 0 |}
      :: cumulate acc' total rest
  end.

Record Pareto : Type := { items : list ParetoItem; top10Total : number }.

Definition paretoData (filtered : list TruckData) : Pareto :=
  let sorted := top10 filtered in
  let total := sumTons sorted in
  {| items := cumulate (Fin 0) total sorted; top10Total := total |}.

(** An engine whose [new Date(text)] takes no text: it stands for the
    engine wherever a text is read by one of the two patterns. *)
Definition noDateParse : jsstring -> Date := fun _ => None.

(** *** Vocabulary of the properties of [paretoData] *)

Definition finiteWeights (l : list TruckData) : Prop :=
  Forall (fun r => isFinite (weight r) = true) l.

Definition nonNegWeights (l : list TruckData) : Prop :=
  Forall (fun r => exists q, weight r = Fin q /\ (0 <= q)%Q) l.

(** [a] may stand before [b] in a ranking by falling tonnage. *)
Definition tonsDesc (a b : ParetoItem) : Prop := leb (tons b) (tons a) = true.

Definition percentageAsc (a b : ParetoItem) : Prop :=
  leb (percentage a) (percentage b) = true.

(** The entries whose tonnage is the finite value [v]. *)
Definition sameTons (v : Q) (e : jsstring * number) : bool :=
  match snd e with
  | Fin q => Qeq_bool q v
  | _ => false
  end.

Definition entryDesc (a b : jsstring * number) : Prop := leb (snd b) (snd a) = true.

(** [stats[k]], [None] for a key that is not there. *)
Fixpoint statsGet (k : jsstring) (stats : Stats) : option number :=
  match stats with
  | [] => None
  | (k', v) :: rest => if jsstring_eqb k' k then Some v else statsGet k rest
  end.

(** The ranking: the entries of [stats] after the sort. *)
Definition ranking (filtered : list TruckData) : list (jsstring * number) :=
  sortBy byTonsDesc (entries (buildStats filtered)).

(** The percentage shown for the running sum [acc]. *)
Definition percentOf (total acc : number) : number :=
  if gtb total (Fin 0) then round (mul (div acc total) (Fin 100)) else Fin 0.

(** The tonnage of material [k] in a set of records of finite weights. *)
Fixpoint materialTons (k : jsstring) (l : list TruckData) : Q :=
  match l with
  | [] => 0
  | r :: l' =>
      (if jsstring_eqb (matName r) k
       then match weight r with Fin w => w / 1000 | _ => 0 end
       else 0) + materialTons k l'
  end.

(** *** [todayMonitor] *)

Record MonitorItem : Type := { item : TruckData; rate : number }.

Record Monitor : Type := { monitorItems : list MonitorItem; avgRate : number }.

(** [smartParseDate(r.arrivalTime)?.getTime() || 0]. *)
Definition arrivalMillis (r : TruckData) : number :=
  match smartParseDate (arrivalTime r) with
  | Some t => orZero (ofZ t)
  | None => Fin 0
  end.

Definition byArrivalDesc (a b : TruckData) : number :=
  sub (arrivalMillis b) (arrivalMillis a).

Definition rateOf (benchmarkTime : number) (r : TruckData) : number :=
  if gtb (totalTime r) (Fin 0)
  then min (Fin 100) (round (mul (div benchmarkTime (totalTime r)) (Fin 100)))
  else Fin 100.

Definition sumRates (l : list MonitorItem) : number :=
  fold_left (fun acc cur => add acc (orZero (rate cur))) l (Fin 0).

(** The rounded mean of a list of numbers. *)
Definition meanRounded (l : list number) : number :=
  round (div (fold_left add l (Fin 0)) (ofZ (Z.of_nat (List.length l)))).

(** [const e = new Date(s); e.setDate(e.getDate() + 1)]. *)
Definition monitorEnd (s : Date) : Date :=
  match s with
  | Some ts => setDate (TimeClip ts) (DateFromTime ts + 1)
  | None => None
  end.

Definition todayMonitor (rawData : list TruckData) (monitorDate : jsstring)
  (benchmarkTime : number) : Monitor :=
  match smartParseDate monitorDate with
  | None => {| monitorItems := []; avgRate := Fin 0 |}
  | Some base =>
      let s := boundary base 0 in
      let e := monitorEnd s in
      let its := sortBy byArrivalDesc (List.filter (inWindow s e) rawData) in
      if Z.of_nat (List.length its) =? 0
      then {| monitorItems := []; avgRate := Fin 0 |}
      else
        let itemsWithRate :=
          List.map (fun r => {| item := r; rate := rateOf benchmarkTime r |}) its in
        let avgRateValue :=
          if 0 <? Z.of_nat (List.length itemsWithRate)
          then round (div (sumRates itemsWithRate)
                          (ofZ (Z.of_nat (List.length its))))
          else Fin 0 in
        {| monitorItems := itemsWithRate; avgRate := avgRateValue |}
  end.

End SmartParseDate.

End App.

Import App.

(* ================================================================== *)
(** ** The other views of [App.tsx] *)
(* ================================================================== *)

Module Views.

(** *** Vocabulary of the properties of the views *)

(** The test of [findColIdx] on one header. *)
Definition headerMatches (keywords : list jsstring) (h : jsstring) : bool :=
  existsb (fun k => includes (toLowerCase h) (toLowerCase k)) keywords.

(** A table written with a carriage return and a line feed after every
    row, cells quoted as for [encodeCR]. *)
Definition encodeCRLF (rows : list (list jsstring)) : jsstring :=
  flat_map (fun r => Csv.encodeCells Csv.specialCR r ++ [CR; LF]) rows.

(** The next code unit, if there is one, is not a digit. *)
Definition noDigitAhead (rest : jsstring) : Prop :=
  match rest with
  | [] => True
  | c :: _ => isDigit c = false
  end.

(** A code unit that [smartParseDate] keeps as it is: no white space and
    none of the zero-width characters. *)
Definition plainChar (c : jschar) : bool :=
  negb (isWhiteSpace c) && negb (isZeroWidth c).

(** One of the three separators [-], [/] and [.] of the date patterns. *)
Definition isSeparator (c : jschar) : bool :=
  ((c =? 45) || (c =? 47) || (c =? 46))%N.

(** The value of a finite number, 0 otherwise. *)
Definition valueOf (x : number) : Q :=
  match x with
  | Fin q => q
  | _ => 0%Q
  end.

(** A record with the given material, arrival text, duration in minutes and
    weight in kilograms, for the examples. *)
Definition event (material arrival : jsstring) (minutes kilograms : Z) : TruckData :=
  {| truckNo := NA; matName := material; arrivalTime := arrival; endTime := [];
     App.totalTime := ofZ minutes; weight := ofZ kilograms;
     mxStock := Fin 0; whStock := Fin 0 |}.

(** The day of the shift that holds the instant [t]: the day of the instant
    seven hours earlier. *)
Definition shiftDay (t : Z) : Z := Day (t - 7 * msPerHour).

(** *** [materialList] *)

(** [a < b] on strings: the order of the code units. *)
Fixpoint strLtb (a b : jsstring) : bool :=
  match a, b with
  | _, [] => false
  | [], _ :: _ => true
  | x :: a', y :: b' =>
      if (x <? y)%N then true
      else if (y <? x)%N then false
      else strLtb a' b'
  end.

(** The comparison of [sort()] called without a comparator. *)
Definition defaultCompare (a b : jsstring) : number :=
  if strLtb a b then Fin (-1) else if strLtb b a then Fin 1 else Fin 0.

(** [set.add(x)]: a [Set] keeps its values in the order of their first
    insertion. *)
Definition setAdd (x : jsstring) (s : list jsstring) : list jsstring :=
  if existsb (jsstring_eqb x) s then s else s ++ [x].

(** [new Set(values)]. *)
Definition newSet (values : list jsstring) : list jsstring :=
  fold_left (fun s x => setAdd x s) values [].

Definition materialList (rawData : list TruckData) : list jsstring :=
  sortBy defaultCompare (newSet (List.map matName rawData)).

(** *** [DashboardTimer] *)

(** The updater of the interval, [prev => prev <= 1 ? rate : prev - 1], with
    the flag that says whether [onTrigger] was called. *)
Definition tick (rate prev : number) : number * bool :=
  if leb prev (Fin 1) then (rate, true) else (sub prev (Fin 1), false).

(** [n] ticks from the countdown [c]: the countdown reached and the flags
    of the ticks, in order. *)
Fixpoint ticks (rate : number) (n : nat) (c : number) : number * list bool :=
  match n with
  | O => (c, [])
  | S n' =>
      let (c', fired) := tick rate c in
      let (c'', flags) := ticks rate n' c' in
      (c'', fired :: flags)
  end.

(** *** The first value of the filters *)

(** [ago = new Date(istNow); ago.setDate(istNow.getDate() - 30)] and the two
    formatted dates. *)
Definition initialFilters (istNow : Date) : FilterState :=
  let ago := match istNow with
             | Some t => setDate (TimeClip t) (DateFromTime t - 30)
             | None => None
             end in
  {| startDate := formatDateToISO ago;
     endDate := formatDateToISO istNow;
     material := [] |}.

Section WithEngine.

Variable DateParse : jsstring -> Date.

(** [a.localeCompare(b)], which depends on the locale of the engine. *)
Variable localeCompare : jsstring -> jsstring -> number.

(** *** [timelineData] *)

(** A value of [map]: the object [{ date, tons, counts, time }]; [counts]
    holds a count of records. *)
Record DayAcc : Type := {
  date : jsstring; tons : number; counts : Z; time : number
}.

(** [if (!map[k]) map[k] = {...}; map[k].tons += w; map[k].counts++;
    map[k].time += t], the keys of [map] in the order of their creation. *)
Fixpoint accAdd (k : jsstring) (w t : number) (map : list DayAcc) : list DayAcc :=
  match map with
  | [] => [ {| date := k; tons := add (Fin 0) w; counts := 0 + 1;
               time := add (Fin 0) t |} ]
  | v :: rest =>
      if jsstring_eqb (date v) k
      then {| date := date v; tons := add (tons v) w; counts := counts v + 1;
              time := add (time v) t |} :: rest
      else v :: accAdd k w t rest
  end.

Definition accRecord (map : list DayAcc) (r : TruckData) : list DayAcc :=
  match smartParseDate DateParse (arrivalTime r) with
  | Some d =>
      accAdd (getShiftDateString (Some d)) (div (weight r) (Fin 1000))
             (totalTime r) map
  | None => map
  end.

Definition buildMap (filteredData : list TruckData) : list DayAcc :=
  fold_left accRecord filteredData [].

(** An element of the result: [{ ...v, tons: parseFloat(v.tons.toFixed(1)),
    avgTime: Math.round(v.time / v.counts) }]. *)
Record DayRollup : Type := { day : DayAcc; avgTime : number }.

Definition rollup (v : DayAcc) : DayRollup :=
  {| day := {| date := date v; tons := fixed1 (tons v); counts := counts v;
               time := time v |};
     avgTime := round (div (time v) (ofZ (counts v))) |}.

(** [Object.values(map)] is [map] in the order of creation of its keys: a
    key is a formatted date, which holds a hyphen and so is no array index. *)
Definition timelineData (filteredData : list TruckData) : list DayRollup :=
  sortBy (fun a b => localeCompare (date (day a)) (date (day b)))
         (List.map rollup (buildMap filteredData)).

(** *** [rangeSummary] *)

Record RangeSummary : Type := {
  totalTons : number;
  totalCounts : Z;
  totalTime : number;
  avgTonsPerDay : number;
  avgCountsPerDay : number;
  avgTotalWorkTimePerDay : number;
  avgEff : number;
  days : Z
}.

Definition rangeSummary (timeline : list DayRollup) : RangeSummary :=
  let tTons := fold_left (fun a b => add a (tons (day b))) timeline (Fin 0) in
  let tCounts := fold_left (fun a b => a + counts (day b)) timeline 0 in
  let tTime := fold_left (fun a b => add a (time (day b))) timeline (Fin 0) in
  let nDays := if Z.of_nat (List.length timeline) =? 0 then 1
               else Z.of_nat (List.length timeline) in
  let avgTotalWorkTimePerDay := div tTime (ofZ nDays) in
  {| totalTons := fixed1 tTons;
     totalCounts := tCounts;
     totalTime := tTime;
     avgTonsPerDay := fixed1 (div tTons (ofZ nDays));
     avgCountsPerDay := fixed1 (div (ofZ tCounts) (ofZ nDays));
     avgTotalWorkTimePerDay := round avgTotalWorkTimePerDay;
     avgEff := if 0 <? tCounts then round (div tTime (ofZ tCounts)) else Fin 0;
     days := nDays |}.

(** *** [flowData] *)

Record HourBucket : Type := { hour : jsstring; count : Z }.

(** [Array.from({length:24}, (_, i) => ({ hour: `${i}h`, count: 0 }))]. *)
Definition emptyHours : list HourBucket :=
  List.map (fun i => {| hour := stringOfZ (Z.of_nat i) ++ js "h"; count := 0 |})
           (seq 0 24).

(** [hrs[i].count++]; an index past the end, where the source would fail,
    leaves the list as it is (an hour is below 24). *)
Fixpoint bump (i : nat) (hrs : list HourBucket) : list HourBucket :=
  match hrs, i with
  | [], _ => []
  | b :: rest, O => {| hour := hour b; count := count b + 1 |} :: rest
  | b :: rest, S i' => b :: bump i' rest
  end.

Definition countHours (filteredData : list TruckData) : list HourBucket :=
  fold_left (fun hrs r =>
               match smartParseDate DateParse (arrivalTime r) with
               | Some d => bump (Z.to_nat (HourFromTime d)) hrs
               | None => hrs
               end) filteredData emptyHours.

(** [parseInt(h.hour)] on a label, which starts with its digits. *)
Definition parseIntLabel (s : jsstring) : Z := digitsVal (fst (spanDigits s)).

(** The hours of a half of the day that have arrivals. *)
Definition activeHours (half : list HourBucket) : list Z :=
  List.map (fun h => parseIntLabel (hour h))
           (List.filter (fun h => 0 <? count h) half).

(** [Math.min(...l)] and [Math.max(...l)] on a list that is not empty. *)
Definition minOf (l : list Z) : Z :=
  match l with [] => 0 | x :: r => fold_left Z.min r x end.
Definition maxOf (l : list Z) : Z :=
  match l with [] => 0 | x :: r => fold_left Z.max r x end.

Definition spanText (label : jsstring) (active : list Z) : jsstring :=
  if 0 <? Z.of_nat (List.length active)
  then label ++ js ": " ++ stringOfZ (minOf active) ++ js "h~"
       ++ stringOfZ (maxOf active) ++ js "h"
  else label ++ js ": --".

Record Flow : Type := { hrs : list HourBucket; amStr : jsstring; pmStr : jsstring }.

Definition flowData (filteredData : list TruckData) : Flow :=
  let hrs := countHours filteredData in
  let amActive := activeHours (firstn 12 hrs) in
  let pmActive := activeHours (firstn (24 - 12) (skipn 12 hrs)) in
  {| hrs := hrs;
     amStr := spanText (js "AM") amActive;
     pmStr := spanText (js "PM") pmActive |}.

(** *** Vocabulary of the properties of the three views *)

(** The arrival text of the record parses. *)
Definition parses (r : TruckData) : bool :=
  match smartParseDate DateParse (arrivalTime r) with
  | Some _ => true
  | None => false
  end.

(** The key of [timelineData] for a record: the shift date of its arrival. *)
Definition shiftKey (r : TruckData) : option jsstring :=
  match smartParseDate DateParse (arrivalTime r) with
  | Some d => Some (getShiftDateString (Some d))
  | None => None
  end.

Definition onShiftDate (k : jsstring) (r : TruckData) : bool :=
  match shiftKey r with
  | Some k' => jsstring_eqb k' k
  | None => false
  end.

(** The record arrives at the instant [t]. *)
Definition arrivesAt (t : Z) (r : TruckData) : bool :=
  match smartParseDate DateParse (arrivalTime r) with
  | Some d => d =? t
  | None => false
  end.

(** The record arrives in the hour [h] of a day. *)
Definition atHour (h : Z) (r : TruckData) : bool :=
  match smartParseDate DateParse (arrivalTime r) with
  | Some d => HourFromTime d =? h
  | None => false
  end.

(** The dates of a timeline, in its order. *)
Definition dates (timeline : list DayRollup) : list jsstring :=
  List.map (fun v => date (day v)) timeline.

(** [map[k]]. *)
Definition lookupDay (k : jsstring) (map : list DayAcc) : option DayAcc :=
  List.find (fun v => jsstring_eqb (date v) k) map.

Definition countAt (k : jsstring) (map : list DayAcc) : Z :=
  match lookupDay k map with
  | Some v => counts v
  | None => 0
  end.

(** One of the two sums of a day, the tonnage or the time, and what a
    record adds to it. *)
Definition fieldOf (tonnage : bool) (v : DayAcc) : number :=
  if tonnage then tons v else time v.

Definition incOf (tonnage : bool) (r : TruckData) : number :=
  if tonnage then div (weight r) (Fin 1000) else App.totalTime r.

Definition valueAt (tonnage : bool) (k : jsstring) (map : list DayAcc) : Q :=
  match lookupDay k map with
  | Some v => valueOf (fieldOf tonnage v)
  | None => 0%Q
  end.

(** Weights and durations are finite numbers. *)
Definition finiteRecords (l : list TruckData) : Prop :=
  Forall (fun r => isFinite (weight r) = true /\ isFinite (App.totalTime r) = true) l.

Definition finiteDay (v : DayAcc) : Prop :=
  isFinite (tons v) = true /\ isFinite (time v) = true.

(** The number of records that arrive in the hour [h] of a day. *)
Definition hourCount (h : Z) (l : list TruckData) : Z :=
  Z.of_nat (List.length (List.filter (atHour h) l)).

(** The label of the bucket of an hour. *)
Definition hourLabel (i : nat) : jsstring := stringOfZ (Z.of_nat i) ++ js "h".

(** The buckets of the [n] hours from [a] on, with the counts [cnt]. *)
Definition bucketsOf (cnt : nat -> Z) (a n : nat) : list HourBucket :=
  List.map (fun i => {| hour := hourLabel i; count := cnt i |}) (seq a n).

(** The text of a half of the day, its label and its first hour. *)
Definition halfStr (pm : bool) (f : Flow) : jsstring :=
  if pm then pmStr f else amStr f.

Definition halfLabel (pm : bool) : jsstring := if pm then js "PM" else js "AM".

Definition halfStart (pm : bool) : Z := if pm then 12 else 0.

(** The sum of a finite numeric field over a list. *)
Definition sumOf {A : Type} (f : A -> number) (l : list A) : Q :=
  fold_right (fun r acc => (valueOf (f r) + acc)%Q) 0%Q l.

End WithEngine.

End Views.

(* ================================================================== *)
(** ** Auxiliary notions of the proofs *)
(* ================================================================== *)

Module Aux.

(** [p] holds of the [n] integers from [lo] on. *)
Definition allInRange (lo : Z) (n : nat) (p : Z -> bool) : bool :=
  forallb p (List.map (fun i => lo + Z.of_nat i) (seq 0 n)).

(** [String(y)] is four digits. *)
Definition fourDigits (y : Z) : bool :=
  match stringOfZ y with
  | [a; b; c; d] => isDigit a && isDigit b && isDigit c && isDigit d
  | _ => false
  end.

(** [String(n).padStart(2, '0')] is two digits. *)
Definition twoDigits (n : Z) : bool :=
  match padStart2 (stringOfZ n) with
  | [a; b] => isDigit a && isDigit b
  | _ => false
  end.

(** An entry of [stats] with a finite tonnage. *)
Definition finiteEntry (e : jsstring * number) : Prop := isFinite (snd e) = true.

(** A finite number that is not negative. *)
Definition nonNeg (x : number) : Prop := exists q, x = Fin q /\ (0 <= q)%Q.

(** The signed number of tenths that [toFixed(1)] prints. *)
Definition tenths (q : Q) : Z :=
  let n := Qfloor (Qabs q * 10 + (1 # 2)) in
  if Qsign_neg q then (- n)%Z else n.

(** The value of a finite number that may be missing, 0 otherwise. *)
Definition qOf (o : option number) : Q :=
  match o with
  | Some (Fin q) => q
  | _ => 0
  end.

End Aux.

Import Aux.

(* ================================================================== *)
(** ** Facts on the calendar functions *)
(* ================================================================== *)

Module DateFacts.

Lemma DayFromYear_step y : DayFromYear (y + 1) = DayFromYear y + DaysInYear y.
Proof.
  unfold DayFromYear, DaysInYear.
  repeat match goal with
  | |- context [(?a mod ?b =? 0)] => destruct (Z.eqb_spec (a mod b) 0)
  end; cbn [negb]; Z.div_mod_to_equations; lia.
Qed.

Lemma YearFromDay_spec d :
  DayFromYear (YearFromDay d) <= d < DayFromYear (YearFromDay d + 1).
Proof.
  unfold YearFromDay.
  set (y := 1970 + (400 * d) / 146097).
  destruct (Z.ltb_spec d (DayFromYear y)) as [H1|H1].
  - replace (y - 1 + 1) with y by lia. split; [|lia].
    subst y. unfold DayFromYear in *. Z.div_mod_to_equations. lia.
  - destruct (Z.leb_spec (DayFromYear (y + 1)) d) as [H2|H2].
    + split; [lia|].
      subst y. unfold DayFromYear in *. Z.div_mod_to_equations. lia.
    + lia.
Qed.

Lemma DaysInYear_cases y : DaysInYear y = 365 \/ DaysInYear y = 366.
Proof.
  unfold DaysInYear.
  repeat match goal with
  | |- context [(?a mod ?b =? 0)] => destruct (Z.eqb_spec (a mod b) 0)
  end; cbn [negb]; auto.
Qed.

(** The day within the year is a day of the year. *)
Lemma DayWithinYear_range t :
  0 <= DayWithinYear t < DaysInYear (YearFromTime t).
Proof.
  unfold DayWithinYear, YearFromTime.
  pose proof (YearFromDay_spec (Day t)) as H.
  rewrite DayFromYear_step in H. lia.
Qed.

Ltac month_cases :=
  repeat match goal with
  | |- context [Z.ltb ?a ?b] => destruct (Z.ltb_spec a b)
  end.

Lemma MonthFromTime_range t : 0 <= MonthFromTime t <= 11.
Proof. unfold MonthFromTime. month_cases; lia. Qed.

Lemma DateFromTime_range t : 1 <= DateFromTime t <= 31.
Proof.
  pose proof (DayWithinYear_range t) as Hd.
  unfold DateFromTime, MonthFromTime.
  unfold InLeapYear in *.
  destruct (DaysInYear_cases (YearFromTime t)) as [E|E]; rewrite E in *;
    cbn [Z.eqb Pos.eqb] in *; month_cases; cbn [Z.eqb]; lia.
Qed.

(** [MakeDay] of the year, month and date of [t], the date moved by [k], is
    the day of [t] moved by [k]. *)
Lemma MakeDay_FromTime t k :
  MakeDay (YearFromTime t) (MonthFromTime t) (DateFromTime t + k) = Day t + k.
Proof.
  unfold MakeDay.
  pose proof (MonthFromTime_range t) as Hm.
  rewrite Z.div_small, Z.mod_small, Z.add_0_r by lia.
  fold (InLeapYear t).
  unfold DateFromTime, MonthFromTime, DayWithinYear.
  month_cases; cbn [daysBeforeMonth]; lia.
Qed.

Lemma DayFromYear_mono y1 y2 : y1 <= y2 -> DayFromYear y1 <= DayFromYear y2.
Proof. intros H. unfold DayFromYear. Z.div_mod_to_equations. lia. Qed.

(** [YearFromDay d] is the only year that holds day [d]. *)
Lemma YearFromDay_unique d y :
  DayFromYear y <= d < DayFromYear (y + 1) -> YearFromDay d = y.
Proof.
  intros H. pose proof (YearFromDay_spec d) as Hs.
  destruct (Z.lt_trichotomy (YearFromDay d) y) as [Hlt|[Heq|Hgt]]; [|assumption|].
  - pose proof (DayFromYear_mono (YearFromDay d + 1) y ltac:(lia)). lia.
  - pose proof (DayFromYear_mono (y + 1) (YearFromDay d) ltac:(lia)). lia.
Qed.

(** A date built from a year, a month and a day of that month has these
    three as its components. *)
Lemma FromTime_MakeDay y m dt tm :
  0 <= m <= 11 ->
  1 <= dt <= daysInMonth m (if DaysInYear y =? 366 then 1 else 0) ->
  0 <= tm < msPerDay ->
  let t := MakeDate (MakeDay y m dt) tm in
  YearFromTime t = y /\ MonthFromTime t = m /\ DateFromTime t = dt.
Proof.
  intros Hm Hdt Htm. cbv zeta.
  assert (Hday : Day (MakeDate (MakeDay y m dt) tm) = MakeDay y m dt).
  { unfold Day, MakeDate, msPerDay in *. Z.div_mod_to_equations. lia. }
  assert (Hmk : MakeDay y m dt
                = DayFromYear y
                  + daysBeforeMonth m (if DaysInYear y =? 366 then 1 else 0)
                  + dt - 1).
  { unfold MakeDay. now rewrite Z.div_small, Z.mod_small, Z.add_0_r by lia. }
  assert (Hy : YearFromTime (MakeDate (MakeDay y m dt) tm) = y).
  { unfold YearFromTime. rewrite Hday, Hmk. apply YearFromDay_unique.
    rewrite DayFromYear_step.
    destruct (DaysInYear_cases y) as [E|E]; rewrite E in *; cbn [Z.eqb Pos.eqb] in *;
      assert (Hc : m = 0 \/ m = 1 \/ m = 2 \/ m = 3 \/ m = 4 \/ m = 5 \/ m = 6
                   \/ m = 7 \/ m = 8 \/ m = 9 \/ m = 10 \/ m = 11) by lia;
      repeat (destruct Hc as [-> | Hc]); try subst m;
      cbn [daysBeforeMonth daysInMonth] in *; lia. }
  split; [assumption|].
  unfold DateFromTime, MonthFromTime, DayWithinYear, InLeapYear.
  rewrite Hy, Hday, Hmk.
  destruct (DaysInYear_cases y) as [E|E]; rewrite E in *; cbn [Z.eqb Pos.eqb] in *;
    assert (Hc : m = 0 \/ m = 1 \/ m = 2 \/ m = 3 \/ m = 4 \/ m = 5 \/ m = 6
                 \/ m = 7 \/ m = 8 \/ m = 9 \/ m = 10 \/ m = 11) by lia;
    repeat (destruct Hc as [-> | Hc]); try subst m;
    cbn [daysBeforeMonth daysInMonth] in *;
    month_cases; try lia; split; lia.
Qed.

Lemma MakeDate_same_time t k :
  MakeDate (Day t + k) (TimeWithinDay t) = t + k * msPerDay.
Proof.
  unfold MakeDate, Day, TimeWithinDay, msPerDay. Z.div_mod_to_equations. lia.
Qed.

Lemma Day_shift t k : Day (t + k * msPerDay) = Day t + k.
Proof. unfold Day, msPerDay. now rewrite Z.div_add by lia. Qed.

Lemma HourFromTime_shift t k : HourFromTime (t + k * msPerDay) = HourFromTime t.
Proof.
  unfold HourFromTime, msPerDay, msPerHour.
  replace (t + k * 86400000) with (t + (k * 24) * 3600000) by lia.
  rewrite Z.div_add by lia.
  now rewrite Z.mod_add by lia.
Qed.

(** Seven o'clock of day [d]. *)
Lemma seven_oclock d :
  let t := MakeDate d (7 * msPerHour) in
  Day t = d /\ HourFromTime t = 7 /\ MinFromTime t = 0.
Proof.
  cbv zeta. unfold MakeDate, Day, HourFromTime, MinFromTime,
    msPerDay, msPerHour, msPerMinute.
  repeat split; Z.div_mod_to_equations; lia.
Qed.

Lemma MakeTime_seven : MakeTime (Fin 7) (Fin 0) = Some (7 * msPerHour).
Proof. reflexivity. Qed.

(** [d.setDate(d.getDate() + k)] moves a date by [k] whole days. *)
Lemma setDate_shift t k :
  setDate (Some t) (DateFromTime t + k) = TimeClip (t + k * msPerDay).
Proof.
  cbn [setDate]. now rewrite MakeDay_FromTime, MakeDate_same_time.
Qed.

Lemma TimeClip_inRange t : inRange t = true -> TimeClip t = Some t.
Proof. unfold TimeClip. now intros ->. Qed.

Lemma TimeClip_Some t u : TimeClip t = Some u -> u = t /\ inRange t = true.
Proof. unfold TimeClip. destruct (inRange t); [intros [= <-]; auto|discriminate]. Qed.

(** A year of four digits or more is taken as it is. *)
Lemma newDate_seven y m d :
  y < 0 \/ 99 < y ->
  newDate y m d (Fin 7) (Fin 0) = TimeClip (MakeDate (MakeDay y m d) (7 * msPerHour)).
Proof.
  intros Hy. unfold newDate.
  replace ((0 <=? y) && (y <=? 99)) with false; [reflexivity|].
  symmetry. apply andb_false_iff. rewrite Z.leb_gt, Z.leb_gt. lia.
Qed.

Lemma truncate_integer z : truncate (inject_Z z) = z.
Proof. unfold truncate. cbn [inject_Z Qnum Qden]. apply Z.quot_1_r. Qed.

(** [new Date(y, m, d, h, mi)] for a year of three or four digits, a month, a
    day of that month, an hour and a minute: the date is valid and has these
    five as its local components. *)
Lemma newDate_components y m d h mi :
  100 <= y <= 9999 -> 0 <= m <= 11 ->
  1 <= d <= daysInMonth m (if DaysInYear y =? 366 then 1 else 0) ->
  0 <= h <= 23 -> 0 <= mi <= 59 ->
  exists t,
    newDate y m d (ofZ h) (ofZ mi) = Some t
    /\ YearFromTime t = y /\ MonthFromTime t = m /\ DateFromTime t = d
    /\ HourFromTime t = h /\ MinFromTime t = mi.
Proof.
  intros Hy Hm Hd Hh Hmi.
  set (tm := h * msPerHour + mi * msPerMinute).
  assert (Htm : 0 <= tm < msPerDay) by (unfold tm, msPerHour, msPerMinute, msPerDay; lia).
  exists (MakeDate (MakeDay y m d) tm).
  destruct (FromTime_MakeDay y m d tm Hm Hd Htm) as (HY & HM & HD).
  split; [|split; [assumption|split; [assumption|split; [assumption|]]]].
  - unfold newDate.
    replace ((0 <=? y) && (y <=? 99)) with false
      by (symmetry; apply andb_false_iff; rewrite !Z.leb_gt; lia).
    unfold ofZ. cbn [MakeTime]. rewrite !truncate_integer. fold tm.
    apply TimeClip_inRange.
    assert (Hmk : MakeDay y m d
                  = DayFromYear y
                    + daysBeforeMonth m (if DaysInYear y =? 366 then 1 else 0)
                    + d - 1).
    { unfold MakeDay. now rewrite Z.div_small, Z.mod_small, Z.add_0_r by lia. }
    pose proof (DayFromYear_mono 100 y ltac:(lia)) as Hlo.
    pose proof (DayFromYear_mono y 9999 ltac:(lia)) as Hhi.
    let v := eval vm_compute in (DayFromYear 100) in
      change (DayFromYear 100) with v in Hlo.
    let v := eval vm_compute in (DayFromYear 9999) in
      change (DayFromYear 9999) with v in Hhi.
    assert (Hb : 0 <= daysBeforeMonth m (if DaysInYear y =? 366 then 1 else 0) <= 335
                 /\ d <= 31).
    { destruct (DaysInYear y =? 366);
        assert (Hc : m = 0 \/ m = 1 \/ m = 2 \/ m = 3 \/ m = 4 \/ m = 5 \/ m = 6
                     \/ m = 7 \/ m = 8 \/ m = 9 \/ m = 10 \/ m = 11) by lia;
        repeat (destruct Hc as [-> | Hc]); try subst m;
        cbn [daysBeforeMonth daysInMonth] in *; lia. }
    unfold inRange, MakeDate, maxTime. unfold msPerDay in *.
    apply andb_true_iff. rewrite !Z.leb_le. lia.
  - unfold HourFromTime, MinFromTime, MakeDate, tm, msPerDay, msPerHour, msPerMinute.
    split; Z.div_mod_to_equations; lia.
Qed.

(** *** The shape of the strings of [formatDateToISO] *)

Lemma allInRange_spec lo n p :
  allInRange lo n p = true -> forall z, lo <= z < lo + Z.of_nat n -> p z = true.
Proof.
  unfold allInRange. intros H z Hz.
  rewrite forallb_forall in H. apply H.
  apply in_map_iff. exists (Z.to_nat (z - lo)). split; [lia|].
  apply in_seq. lia.
Qed.

Lemma fourDigits_year y : 1000 <= y <= 9999 -> fourDigits y = true.
Proof.
  intros H.
  apply (allInRange_spec 1000 (Z.to_nat 9000)); [vm_compute; reflexivity|lia].
Qed.

Lemma twoDigits_small n : 1 <= n <= 31 -> twoDigits n = true.
Proof.
  intros H. apply (allInRange_spec 1 31); [vm_compute; reflexivity|lia].
Qed.

Lemma formatDateToISO_shape t :
  1000 <= YearFromTime t <= 9999 -> isoShape (formatDateToISO (Some t)) = true.
Proof.
  intros Hy. cbn [formatDateToISO].
  pose proof (fourDigits_year _ Hy) as H4.
  pose proof (MonthFromTime_range t) as Hm.
  pose proof (DateFromTime_range t) as Hd.
  assert (Hm2 : twoDigits (MonthFromTime t + 1) = true)
    by (apply twoDigits_small; lia).
  pose proof (twoDigits_small _ Hd) as Hd2.
  unfold fourDigits, twoDigits in *.
  destruct (stringOfZ (YearFromTime t)) as [|a [|b [|c [|d [|? ?]]]]];
    try discriminate.
  destruct (padStart2 (stringOfZ (MonthFromTime t + 1))) as [|m1 [|m2 [|? ?]]];
    try discriminate.
  destruct (padStart2 (stringOfZ (DateFromTime t))) as [|d1 [|d2 [|? ?]]];
    try discriminate.
  repeat match goal with
  | H : _ && _ = true |- _ => apply andb_true_iff in H; destruct H
  end.
  cbn [app js List.map list_ascii_of_string isoShape].
  repeat match goal with
  | H : isDigit _ = true |- _ => rewrite H; clear H
  end.
  reflexivity.
Qed.

End DateFacts.

(* ================================================================== *)
(** ** The decoder reads back what the encoder writes *)
(* ================================================================== *)

Module CsvFacts.

Import Csv.

Ltac eqb_cases :=
  repeat match goal with
  | |- context [N.eqb ?a ?b] => destruct (N.eqb_spec a b); subst
  end.

Section RoundTrip.

Variable special : jschar -> bool.

Hypothesis special_covers :
  forall c, c = QUOTE \/ c = COMMA \/ c = LF \/ c = CR -> special c = true.

Lemma plain_char c :
  special c = false -> c <> QUOTE /\ c <> COMMA /\ c <> LF /\ c <> CR.
Proof.
  intros H. repeat split; intros ->; rewrite special_covers in H;
    solve [discriminate | auto].
Qed.

Lemma scan_plain cell : forall rest res row col,
  existsb special cell = false ->
  scan (cell ++ rest) false res row col = scan rest false res row (col ++ cell).
Proof.
  induction cell as [|c cell IH]; intros rest res row col H.
  - now rewrite app_nil_r.
  - cbn [existsb] in H. apply orb_false_iff in H. destruct H as [Hc Hcell].
    apply plain_char in Hc. destruct Hc as (Hq & Hco & Hlf & Hcr).
    cbn [app scan].
    apply N.eqb_neq in Hq, Hco, Hlf, Hcr. rewrite Hq, Hco, Hlf, Hcr.
    cbn [orb]. rewrite IH by assumption.
    now rewrite <- app_assoc.
Qed.

Lemma scan_quoted_body cell : forall rest res row col,
  noQuoteAhead rest ->
  scan (escapeQuotes cell ++ QUOTE :: rest) true res row col
  = scan rest false res row (col ++ cell).
Proof.
  induction cell as [|c cell IH]; intros rest res row col Hrest.
  - rewrite app_nil_r. cbn [escapeQuotes flat_map app scan].
    rewrite N.eqb_refl. destruct rest as [|n rest]; [reflexivity|].
    cbn in Hrest. apply N.eqb_neq in Hrest. now rewrite Hrest.
  - cbn [escapeQuotes flat_map]. fold (escapeQuotes cell).
    destruct (N.eqb_spec c QUOTE) as [->|Hc].
    + cbn [app scan]. rewrite N.eqb_refl. rewrite IH by assumption.
      now rewrite <- app_assoc.
    + cbn [app scan]. apply N.eqb_neq in Hc. rewrite Hc.
      rewrite IH by assumption. now rewrite <- app_assoc.
Qed.

Lemma scan_cell cell rest res row col :
  noQuoteAhead rest ->
  scan (encodeCell special cell ++ rest) false res row col
  = scan rest false res row (col ++ cell).
Proof.
  intros Hrest. unfold encodeCell.
  destruct (existsb special cell) eqn:E.
  - cbn [app scan]. rewrite N.eqb_refl.
    rewrite <- app_assoc. cbn [app].
    now apply scan_quoted_body.
  - now apply scan_plain.
Qed.

Lemma scan_cells cells : forall rest res row,
  cells <> [] ->
  scan (encodeCells special cells ++ LF :: rest) false res row []
  = scan rest false (res ++ [row ++ cells]) [] [].
Proof.
  induction cells as [|c cells IH]; intros rest res row Hne; [congruence|].
  destruct cells as [|c' cells].
  - cbn [encodeCells]. rewrite scan_cell by (cbn; discriminate).
    cbn [app]. cbn [scan]. cbn.
    rewrite length_app. cbn [List.length].
    replace (0 <? Z.of_nat (List.length row + 1)) with true
      by (symmetry; apply Z.ltb_lt; lia).
    destruct rest; reflexivity.
  - change (encodeCells special (c :: c' :: cells))
      with (encodeCell special c ++ COMMA :: encodeCells special (c' :: cells)).
    rewrite <- app_assoc. rewrite scan_cell by (cbn; discriminate).
    cbn [app]. cbn [scan]. cbn.
    change (scan (encodeCells special (c' :: cells) ++ LF :: rest) false res
                 (row ++ [c]) []
            = scan rest false (res ++ [row ++ c :: c' :: cells]) [] []).
    rewrite IH by discriminate.
    now rewrite <- app_assoc.
Qed.

Lemma scan_rows rows : forall res,
  rowsNonEmpty rows ->
  scan (encodeWith special rows) false res [] [] = res ++ rows.
Proof.
  induction rows as [|r rows IH]; intros res Hne.
  - cbn. now rewrite app_nil_r.
  - inversion Hne as [|? ? Hr Hrows]; subst.
    unfold encodeWith. cbn [flat_map]. fold (encodeWith special rows).
    unfold encodeRow. rewrite <- app_assoc. cbn [app].
    rewrite scan_cells by assumption.
    rewrite IH by assumption. cbn [app].
    now rewrite <- app_assoc.
Qed.

End RoundTrip.

Lemma specialCR_covers c :
  c = QUOTE \/ c = COMMA \/ c = LF \/ c = CR -> specialCR c = true.
Proof. intros [-> | [-> | [-> | ->]]]; reflexivity. Qed.

(** Outside quotes the pair CR LF ends one row: both code units are
    consumed and one row is pushed. *)
Lemma scan_crlf rest res row col :
  scan (CR :: LF :: rest) false res row col
  = scan rest false (res ++ [row ++ [col]]) [] [].
Proof.
  cbn [scan]. cbn.
  rewrite length_app. cbn [List.length].
  replace (0 <? Z.of_nat (List.length row + 1)) with true
    by (symmetry; apply Z.ltb_lt; lia).
  reflexivity.
Qed.

Lemma scan_lf rest res row col :
  scan (LF :: rest) false res row col
  = scan rest false (res ++ [row ++ [col]]) [] [].
Proof.
  cbn [scan]. cbn.
  rewrite length_app. cbn [List.length].
  replace (0 <? Z.of_nat (List.length row + 1)) with true
    by (symmetry; apply Z.ltb_lt; lia).
  destruct rest; reflexivity.
Qed.

(** No row of the decoder's result is empty. *)
Lemma rowsNonEmpty_push res (row : list jsstring) col :
  rowsNonEmpty res -> rowsNonEmpty (res ++ [row ++ [col]]).
Proof.
  intros H. apply Forall_app. split; [assumption|].
  constructor; [|constructor]. destruct row; discriminate.
Qed.

Lemma scan_rows_nonempty_fuel n : forall text q res row col,
  (List.length text <= n)%nat ->
  rowsNonEmpty res -> rowsNonEmpty (scan text q res row col).
Proof.
  induction n as [|n IH]; intros text q res row col Hlen Hres.
  - destruct text; [|cbn in Hlen; lia].
    cbn [scan]. destruct (_ || _); auto using rowsNonEmpty_push.
  - destruct text as [|c rest].
    { cbn [scan]. destruct (_ || _); auto using rowsNonEmpty_push. }
    cbn [List.length] in Hlen.
    assert (IH1 : forall q res row col,
               rowsNonEmpty res -> rowsNonEmpty (scan rest q res row col)).
    { intros. apply IH; [lia|assumption]. }
    assert (IH2 : forall m rest', rest = m :: rest' -> forall q res row col,
               rowsNonEmpty res -> rowsNonEmpty (scan rest' q res row col)).
    { intros m rest' -> **. apply IH; [cbn [List.length] in Hlen; lia|assumption]. }
    assert (Hpush : (if 0 <? Z.of_nat (List.length (row ++ [col]))
                     then res ++ [row ++ [col]] else res) = res ++ [row ++ [col]]).
    { rewrite length_app. cbn [List.length].
      replace (0 <? Z.of_nat (List.length row + 1)) with true
        by (symmetry; apply Z.ltb_lt; lia). reflexivity. }
    cbn [scan]. destruct q.
    + destruct (c =? QUOTE)%N.
      * destruct rest as [|m rest']; [now apply IH1|].
        destruct (m =? QUOTE)%N; [now eapply IH2|now apply IH1].
      * now apply IH1.
    + destruct (c =? QUOTE)%N; [now apply IH1|].
      destruct (c =? COMMA)%N; [now apply IH1|].
      destruct ((c =? LF)%N || (c =? CR)%N); [|now apply IH1].
      cbv zeta. rewrite Hpush.
      destruct rest as [|m rest']; [now apply IH1, rowsNonEmpty_push|].
      destruct ((c =? CR)%N && (m =? LF)%N);
        [eapply IH2; [reflexivity|]|apply IH1]; now apply rowsNonEmpty_push.
Qed.

Lemma robustParseCSV_rows_nonempty text : rowsNonEmpty (robustParseCSV text).
Proof.
  unfold robustParseCSV.
  apply (scan_rows_nonempty_fuel (List.length text)); [lia|constructor].
Qed.

End CsvFacts.

(* ================================================================== *)
(** ** Facts on numbers read from strings *)
(* ================================================================== *)

Module NumberFacts.

Lemma orZero_not_NaN x : isNaN (orZero x) = false.
Proof. unfold orZero. destruct x; cbn; try reflexivity. now destruct (negb _). Qed.

Lemma orZero_cases x : orZero x = x \/ orZero x = Fin 0.
Proof. unfold orZero. destruct (truthy x); auto. Qed.

Lemma orZero_truthy x : truthy x = true -> orZero x = x.
Proof. unfold orZero. now intros ->. Qed.

Lemma orZero_NaN x : isNaN x = true -> orZero x = Fin 0.
Proof. destruct x; cbn; try discriminate. reflexivity. Qed.

Lemma leb_zero_orZero x : leb (Fin 0) x = true -> leb (Fin 0) (orZero x) = true.
Proof. destruct (orZero_cases x) as [-> | ->]; auto. Qed.

Lemma spanDigits_digits s : forallb isDigit (fst (spanDigits s)) = true.
Proof.
  induction s as [|c r IH]; [reflexivity|].
  cbn [spanDigits]. destruct (isDigit c) eqn:E; [|reflexivity].
  destruct (spanDigits r) as [ds rest]. cbn in *. now rewrite E, IH.
Qed.

Lemma digitVal_nonneg c : isDigit c = true -> 0 <= digitVal c <= 9.
Proof.
  unfold isDigit, digitVal. intros H.
  apply andb_true_iff in H. destruct H as [H1 H2].
  apply N.leb_le in H1, H2. lia.
Qed.

Lemma digitsVal_nonneg_from ds : forall acc,
  forallb isDigit ds = true -> 0 <= acc ->
  0 <= fold_left (fun a c => 10 * a + digitVal c) ds acc.
Proof.
  induction ds as [|c ds IH]; intros acc H Hacc; [assumption|].
  cbn in H. apply andb_true_iff in H. destruct H as [Hc Hds].
  cbn [fold_left]. apply IH; [assumption|].
  pose proof (digitVal_nonneg c Hc). lia.
Qed.

Lemma digitsVal_nonneg ds : forallb isDigit ds = true -> 0 <= digitsVal ds.
Proof. intros H. now apply digitsVal_nonneg_from. Qed.

Lemma scale10_nonneg m e : 0 <= m -> (0 <= scale10 m e)%Q.
Proof.
  intros Hm. unfold scale10. destruct (0 <=? e) eqn:E.
  - apply Z.leb_le in E. unfold Qle. cbn.
    assert (0 <= 10 ^ e) by (apply Z.pow_nonneg; lia). nia.
  - rewrite Qred_correct. unfold Qle. cbn. lia.
Qed.

(** An unsigned literal has no negative value. *)
Lemma unsignedDecimalPrefix_nonneg s v rest :
  unsignedDecimalPrefix s = Some (v, rest) -> leb (Fin 0) v = true.
Proof.
  unfold unsignedDecimalPrefix.
  destruct (startsWith INFINITY_LIT s); [intros [= <- _]; reflexivity|].
  pose proof (spanDigits_digits s) as Hip.
  destruct (spanDigits s) as [ip r1]. cbn [fst] in Hip.
  assert (Hfp : forall fp r2 dotted,
    (match r1 with
     | c :: r' => if (c =? 46)%N
                  then let (fp, r2) := spanDigits r' in (fp, r2, true)
                  else ([], r1, false)
     | [] => ([], r1, false)
     end) = (fp, r2, dotted) -> forallb isDigit fp = true).
  { intros fp r2 dotted. destruct r1 as [|c r']; [now intros [= <- _ _]|].
    destruct (c =? 46)%N; [|now intros [= <- _ _]].
    pose proof (spanDigits_digits r') as H.
    destruct (spanDigits r') as [fp' r2']. now intros [= <- _ _]. }
  destruct (match r1 with [] => _ | _ => _ end) as [[fp r2] dotted].
  specialize (Hfp fp r2 dotted eq_refl).
  assert (Hval : forall e, leb (Fin 0)
            (Fin (scale10 (digitsVal (ip ++ fp)) e)) = true).
  { intros e. cbn [leb]. apply Qle_bool_iff. apply scale10_nonneg.
    apply digitsVal_nonneg. rewrite forallb_app.
    apply andb_true_iff. split; assumption. }
  destruct ip, fp; try discriminate;
    destruct (exponentPart r2) as [e r3]; intros [= <- _]; apply Hval.
Qed.

(** A literal is negative only behind a minus sign. *)
Lemma decimalPrefix_nonneg s v rest :
  decimalPrefix s = Some (v, rest) ->
  hd 0%N s <> 45%N -> leb (Fin 0) v = true.
Proof.
  destruct s as [|c r]; [discriminate|]. cbn [decimalPrefix hd].
  intros H Hc. apply N.eqb_neq in Hc. rewrite Hc in H.
  destruct (c =? 43)%N; eapply unsignedDecimalPrefix_nonneg; eassumption.
Qed.

Lemma trimStart_In c s : In c (trimStart s) -> In c s.
Proof.
  induction s as [|a s IH]; [auto|]. cbn [trimStart].
  destruct (isWhiteSpace a); intros H; [right; auto|assumption].
Qed.

Lemma removeAll_In p c s : In c (removeAll p s) -> In c s.
Proof. unfold removeAll. intros H. apply filter_In in H. tauto. Qed.

Lemma parseFloat_nonneg s :
  ~ In 45%N s -> isNaN (parseFloat s) = true \/ leb (Fin 0) (parseFloat s) = true.
Proof.
  intros Hs. unfold parseFloat.
  destruct (decimalPrefix (trimStart s)) as [[v rest]|] eqn:E; [|now left].
  right. eapply decimalPrefix_nonneg; [eassumption|].
  intros Hhd. apply Hs. apply trimStart_In.
  destruct (trimStart s) as [|c r]; [discriminate|]. cbn in Hhd. now left.
Qed.

End NumberFacts.

(* ================================================================== *)
(** ** Facts on the record builder *)
(* ================================================================== *)

Module BuilderFacts.

Lemma cellOr_nonEmpty c i dflt :
  nonEmpty dflt = true -> nonEmpty (cellOr c i dflt) = true.
Proof.
  intros H. unfold cellOr. destruct (cellAt c i) as [s|]; [|assumption].
  destruct (nonEmpty s) eqn:E; assumption.
Qed.

Lemma cellOr_some c i dflt s :
  cellAt c i = Some s -> s <> [] -> cellOr c i dflt = s.
Proof.
  intros H Hs. unfold cellOr. rewrite H. destruct s; [congruence|reflexivity].
Qed.

Lemma cellOr_default c i dflt :
  cellAt c i = None \/ cellAt c i = Some [] -> cellOr c i dflt = dflt.
Proof. unfold cellOr. intros [-> | ->]; reflexivity. Qed.

Lemma cellAt_not_found c : cellAt c (-1) = None.
Proof. reflexivity. Qed.

Lemma nonEmpty_neq (s : jsstring) : nonEmpty s = true <-> s <> [].
Proof. destruct s; cbn; split; congruence. Qed.

Lemma matName_nonEmpty idx c : nonEmpty (matName (buildRecord idx c)) = true.
Proof. cbn [buildRecord matName]. now apply cellOr_nonEmpty. Qed.

(** The filter of the builder removes nothing: the default has been put in
    before it runs. *)
Lemma filter_matName idx rows :
  List.filter (fun x => nonEmpty (matName x)) (List.map (buildRecord idx) rows)
  = List.map (buildRecord idx) rows.
Proof.
  induction rows as [|c rows IH]; [reflexivity|].
  cbn [List.map List.filter]. rewrite matName_nonEmpty. now rewrite IH.
Qed.

Lemma buildRecords_eq allRows parsed :
  buildRecords allRows = Some parsed ->
  parsed = List.map (buildRecord (resolveColumns (List.map trim (hd [] allRows))))
                    (skipn 1 allRows).
Proof.
  unfold buildRecords. destruct (_ <=? 1); [discriminate|].
  intros [= <-]. apply filter_matName.
Qed.

Lemma jsstring_eqb_eq a b : jsstring_eqb a b = true <-> a = b.
Proof. unfold jsstring_eqb. destruct (jsstring_eq_dec a b); split; congruence. Qed.

Lemma statsAdd_hasKey_same k v st : hasKey k (statsAdd k v st).
Proof.
  induction st as [|[k' old] st IH]; cbn [statsAdd].
  - eexists. now left.
  - destruct (jsstring_eqb k' k) eqn:E.
    + apply jsstring_eqb_eq in E. subst. eexists. now left.
    + destruct IH as [w Hw]. exists w. now right.
Qed.

Lemma statsAdd_hasKey_other k k' v st : hasKey k st -> hasKey k (statsAdd k' v st).
Proof.
  induction st as [|[k0 old] st IH]; intros [w Hw]; [destruct Hw|].
  cbn [statsAdd]. destruct (jsstring_eqb k0 k') eqn:E.
  - destruct Hw as [[= -> ->]|Hw]; [eexists; now left|exists w; now right].
  - destruct Hw as [Hw|Hw]; [exists w; now left|].
    destruct IH as [w' Hw']; [now exists w|]. exists w'. now right.
Qed.

Lemma buildStats_hasKey_from filtered : forall st k,
  hasKey k st \/ (exists r, In r filtered /\ matName r = k) ->
  hasKey k (fold_left
              (fun st r => statsAdd (matName r) (div (weight r) (Fin 1000)) st)
              filtered st).
Proof.
  induction filtered as [|r0 filtered IH]; intros st k H; cbn [fold_left].
  - destruct H as [H|[r [[] _]]]. assumption.
  - apply IH. destruct H as [H|[r [[->|Hr] Hk]]].
    + left. now apply statsAdd_hasKey_other.
    + left. subst k. apply statsAdd_hasKey_same.
    + right. now exists r.
Qed.

(** Every material of the filtered set has its entry in [stats]. *)
Lemma buildStats_hasKey filtered r :
  In r filtered -> hasKey (matName r) (buildStats filtered).
Proof. intros H. apply buildStats_hasKey_from. right. now exists r. Qed.

End BuilderFacts.


(* ================================================================== *)
(** ** Facts on sorting and on the pareto ranking *)
(* ================================================================== *)

Module SortFacts.

Section Generic.

Context {A : Type} (cmp : A -> A -> number).

Lemma insertBy_perm x l : Permutation (insertBy cmp x l) (x :: l).
Proof.
  induction l as [|y l IH]; [reflexivity|].
  cbn [insertBy]. destruct (gtb (cmp x y) (Fin 0)); [|reflexivity].
  rewrite IH. apply perm_swap.
Qed.

Lemma sortBy_perm l : Permutation (sortBy cmp l) l.
Proof.
  induction l as [|x l IH]; [reflexivity|].
  cbn [sortBy fold_right]. fold (sortBy cmp l).
  rewrite insertBy_perm. now constructor.
Qed.

Lemma sortBy_length l : List.length (sortBy cmp l) = List.length l.
Proof. apply Permutation_length, sortBy_perm. Qed.

(** Stability: elements that the comparator never moves behind one another
    keep their order. *)
Lemma insertBy_filter (p : A -> bool) x l :
  (forall a b, p a = true -> p b = true -> gtb (cmp a b) (Fin 0) = false) ->
  List.filter p (insertBy cmp x l) = List.filter p (x :: l).
Proof.
  intros Htie. induction l as [|y l IH]; [reflexivity|].
  cbn [insertBy]. destruct (gtb (cmp x y) (Fin 0)) eqn:G; [|reflexivity].
  cbn [List.filter] in *. rewrite IH.
  destruct (p x) eqn:Px, (p y) eqn:Py; try reflexivity.
  rewrite (Htie x y Px Py) in G. discriminate.
Qed.

Lemma sortBy_stable (p : A -> bool) l :
  (forall a b, p a = true -> p b = true -> gtb (cmp a b) (Fin 0) = false) ->
  List.filter p (sortBy cmp l) = List.filter p l.
Proof.
  intros Htie. induction l as [|x l IH]; [reflexivity|].
  cbn [sortBy fold_right]. fold (sortBy cmp l).
  rewrite insertBy_filter by assumption.
  cbn [List.filter]. now rewrite IH.
Qed.

(** Sortedness, for an order [R] that agrees with the comparator on the
    elements that satisfy [P]. *)
Variables (P : A -> Prop) (R : A -> A -> Prop).

Hypothesis R_trans : forall a b c, R a b -> R b c -> R a c.
Hypothesis R_keep : forall a b, P a -> P b -> gtb (cmp a b) (Fin 0) = false -> R a b.
Hypothesis R_move : forall a b, P a -> P b -> gtb (cmp a b) (Fin 0) = true -> R b a.

Lemma insertBy_sorted x l :
  P x -> Forall P l -> StronglySorted R l -> StronglySorted R (insertBy cmp x l).
Proof.
  intros Px Pl Hs. induction Hs as [|y l Hs IH Hy]; cbn [insertBy].
  - repeat constructor.
  - inversion Pl as [|? ? Py Pl']; subst.
    destruct (gtb (cmp x y) (Fin 0)) eqn:G.
    + constructor; [now apply IH|].
      eapply Permutation_Forall; [symmetry; apply insertBy_perm|].
      constructor; [now apply R_move|assumption].
    + constructor; [now constructor|].
      constructor; [now apply R_keep|].
      eapply Forall_impl; [|exact Hy]. intros z Hz.
      eapply R_trans; [apply R_keep; eassumption|assumption].
Qed.

Lemma sortBy_sorted l : Forall P l -> StronglySorted R (sortBy cmp l).
Proof.
  induction l as [|x l IH]; intros Pl; [constructor|].
  inversion Pl as [|? ? Px Pl']; subst.
  cbn [sortBy fold_right]. fold (sortBy cmp l).
  apply insertBy_sorted; [assumption| |now apply IH].
  eapply Permutation_Forall; [symmetry; apply sortBy_perm|assumption].
Qed.

End Generic.

Lemma StronglySorted_firstn {A : Type} (R : A -> A -> Prop) n : forall l,
  StronglySorted R l -> StronglySorted R (firstn n l).
Proof.
  induction n as [|n IH]; intros l Hs; [constructor|].
  destruct l as [|x l]; [constructor|].
  inversion Hs as [|? ? Hs' Hx]; subst. cbn [firstn].
  constructor; [now apply IH|].
  apply Forall_forall. intros y Hy.
  rewrite Forall_forall in Hx. apply Hx.
  rewrite <- (firstn_skipn n l). apply in_or_app. now left.
Qed.

Lemma StronglySorted_map {A B : Type} (R : A -> A -> Prop) (S : B -> B -> Prop)
  (f : A -> B) l :
  (forall a b, In a l -> In b l -> R a b -> S (f a) (f b)) ->
  StronglySorted R l -> StronglySorted S (List.map f l).
Proof.
  intros Hf Hs. induction Hs as [|x l Hs IH Hx]; [constructor|].
  cbn [List.map]. constructor.
  - apply IH. intros a b Ha Hb. apply Hf; now right.
  - apply Forall_forall. intros y Hy. apply in_map_iff in Hy.
    destruct Hy as [z [<- Hz]]. rewrite Forall_forall in Hx.
    apply Hf; [now left|now right|now apply Hx].
Qed.

End SortFacts.

Module ParetoFacts.

(** *** Order of finite numbers *)

Lemma leb_Fin a b : leb (Fin a) (Fin b) = true <-> (a <= b)%Q.
Proof. cbn [leb]. apply Qle_bool_iff. Qed.

Lemma gtb_Fin_zero q : gtb (Fin q) (Fin 0) = true <-> (0 < q)%Q.
Proof.
  cbn [gtb ltb]. rewrite negb_true_iff. split.
  - intros H. apply Qnot_le_lt. intros Hle. apply Qle_bool_iff in Hle. congruence.
  - intros H. destruct (Qle_bool q 0) eqn:E; [|reflexivity].
    apply Qle_bool_iff in E. exfalso. eapply Qlt_not_le; eassumption.
Qed.

Lemma round_mono a b : (a <= b)%Q -> leb (round (Fin a)) (round (Fin b)) = true.
Proof.
  intros H. cbn [round]. apply leb_Fin. rewrite <- Zle_Qle.
  apply Qfloor_resp_le. now apply Qplus_le_l.
Qed.

Lemma div_thousand w : div (Fin w) (Fin 1000) = Fin (w / 1000).
Proof. reflexivity. Qed.

(** *** The comparator of the ranking on finite tonnages *)

Lemma byTonsDesc_keep a b :
  finiteEntry a -> finiteEntry b ->
  gtb (byTonsDesc a b) (Fin 0) = false -> entryDesc a b.
Proof.
  unfold finiteEntry, byTonsDesc, entryDesc.
  destruct a as [ka [| |qa]], b as [kb [| |qb]]; cbn [snd isFinite];
    try discriminate. intros _ _. cbn [sub neg add gtb ltb leb].
  rewrite negb_false_iff. intros H. apply Qle_bool_iff in H.
  apply Qle_bool_iff. apply (Qplus_le_l _ _ (- qa)).
  now rewrite Qplus_opp_r.
Qed.

Lemma byTonsDesc_move a b :
  finiteEntry a -> finiteEntry b ->
  gtb (byTonsDesc a b) (Fin 0) = true -> entryDesc b a.
Proof.
  unfold finiteEntry, byTonsDesc, entryDesc.
  destruct a as [ka [| |qa]], b as [kb [| |qb]]; cbn [snd isFinite];
    try discriminate. intros _ _ H.
  change (gtb (Fin (qb + - qa)) (Fin 0) = true) in H.
  apply gtb_Fin_zero in H. apply leb_Fin. apply Qlt_le_weak.
  apply (Qplus_lt_l _ _ (- qa)). now rewrite Qplus_opp_r.
Qed.

Lemma entryDesc_trans a b c :
  finiteEntry b -> entryDesc a b -> entryDesc b c -> entryDesc a c.
Proof.
  unfold finiteEntry, entryDesc.
  destruct a as [ka [|na|qa]], b as [kb [|nb|qb]], c as [kc [|nc|qc]];
    cbn [snd isFinite leb]; try discriminate; intros _ H1 H2;
    try assumption; try discriminate;
    try (destruct na; destruct nc; cbn in *; congruence).
  apply Qle_bool_iff in H1, H2. apply Qle_bool_iff.
  eapply Qle_trans; eassumption.
Qed.

Lemma sameTons_tie v a b :
  sameTons v a = true -> sameTons v b = true ->
  gtb (byTonsDesc a b) (Fin 0) = false.
Proof.
  unfold sameTons, byTonsDesc.
  destruct a as [ka [| |qa]], b as [kb [| |qb]]; cbn [snd]; try discriminate.
  intros Ha Hb. apply Qeq_bool_iff in Ha, Hb.
  cbn [sub neg add gtb ltb]. rewrite negb_false_iff. apply Qle_bool_iff.
  rewrite Ha, Hb. rewrite Qplus_opp_r. apply Qle_refl.
Qed.

(** *** The entries of [stats] *)

Lemma insertIndex_perm i e l :
  Permutation (List.map snd (insertIndex i e l)) (e :: List.map snd l).
Proof.
  induction l as [|[j e'] l IH]; [reflexivity|].
  cbn [insertIndex]. destruct (i <? j); [reflexivity|].
  cbn [List.map snd]. rewrite IH. apply perm_swap.
Qed.

Lemma entries_perm st : Permutation (entries st) st.
Proof.
  unfold entries. induction st as [|e st IH]; [reflexivity|].
  cbn [fold_right List.filter].
  destruct (arrayIndex (fst e)) as [i|].
  - rewrite insertIndex_perm. cbn [app]. now constructor.
  - rewrite <- Permutation_middle. now constructor.
Qed.

(** *** Invariants of [stats] *)

Lemma statsAdd_Forall (P : number -> Prop) k v st :
  (forall old, P old -> P (add (orZero old) v)) -> P (add (Fin 0) v) ->
  Forall (fun e => P (snd e)) st ->
  Forall (fun e => P (snd e)) (statsAdd k v st).
Proof.
  intros Hold Hnew. induction st as [|[k' old] st IH]; intros H; cbn [statsAdd].
  - repeat constructor. assumption.
  - inversion H as [|? ? Hh Ht]; subst. cbn [snd] in Hh.
    destruct (jsstring_eqb k' k); constructor; cbn [snd];
      solve [assumption | now apply Hold | now apply IH].
Qed.

Lemma buildStats_Forall (P : number -> Prop) (Pw : TruckData -> Prop) filtered :
  (forall r old, Pw r -> P old ->
     P (add (orZero old) (div (weight r) (Fin 1000)))) ->
  (forall r, Pw r -> P (add (Fin 0) (div (weight r) (Fin 1000)))) ->
  Forall Pw filtered ->
  Forall (fun e => P (snd e)) (buildStats filtered).
Proof.
  intros Hold Hnew. unfold buildStats.
  assert (G : forall st, Forall (fun e => P (snd e)) st ->
            Forall Pw filtered ->
            Forall (fun e => P (snd e))
              (fold_left (fun st r =>
                            statsAdd (matName r) (div (weight r) (Fin 1000)) st)
                         filtered st)).
  { induction filtered as [|r l IH]; intros st Hst Hl; [assumption|].
    inversion Hl as [|? ? Hr Hl']; subst. cbn [fold_left].
    apply IH; [|assumption]. apply statsAdd_Forall; auto. }
  intros Hl. apply G; [constructor|assumption].
Qed.

Lemma orZero_Fin q : exists q', orZero (Fin q) = Fin q' /\ (q' == q)%Q.
Proof.
  unfold orZero, truthy. destruct (Qeq_bool q 0) eqn:E; cbn [negb].
  - exists 0%Q. split; [reflexivity|]. apply Qeq_bool_iff in E. now rewrite E.
  - exists q. split; reflexivity.
Qed.

Lemma buildStats_finite filtered :
  finiteWeights filtered -> Forall finiteEntry (buildStats filtered).
Proof.
  intros H. apply (buildStats_Forall (fun x => isFinite x = true)
                     (fun r => isFinite (weight r) = true)); [| |exact H].
  - intros r old Hr Hold. destruct (weight r) as [| |w]; try discriminate.
    destruct old as [| |o]; try discriminate.
    destruct (orZero_Fin o) as (o' & -> & _). reflexivity.
  - intros r Hr. destruct (weight r) as [| |w]; try discriminate. reflexivity.
Qed.

Lemma Qnonneg_add a b : (0 <= a)%Q -> (0 <= b)%Q -> (0 <= a + b)%Q.
Proof.
  intros Ha Hb. rewrite <- (Qplus_0_l 0). now apply Qplus_le_compat.
Qed.

Lemma Qnonneg_thousandth w : (0 <= w)%Q -> (0 <= w / 1000)%Q.
Proof.
  intros Hw. apply Qmult_le_0_compat; [assumption|].
  apply Qinv_le_0_compat. discriminate.
Qed.

Lemma buildStats_nonNeg filtered :
  nonNegWeights filtered -> Forall (fun e => nonNeg (snd e)) (buildStats filtered).
Proof.
  intros H. apply (buildStats_Forall nonNeg
                     (fun r => exists q, weight r = Fin q /\ (0 <= q)%Q)); [| |exact H].
  - intros r old (w & -> & Hw) (o & -> & Ho).
    destruct (orZero_Fin o) as (o' & -> & Eo). rewrite div_thousand.
    eexists. split; [reflexivity|].
    apply Qnonneg_add; [now rewrite Eo|now apply Qnonneg_thousandth].
  - intros r (w & -> & Hw). rewrite div_thousand.
    eexists. split; [reflexivity|].
    apply Qnonneg_add; [apply Qle_refl|now apply Qnonneg_thousandth].
Qed.

Lemma fixed1_nonNeg x : nonNeg x -> nonNeg (fixed1 x).
Proof.
  intros (q & -> & Hq). cbn [fixed1].
  destruct (Qle_bool (inject_Z (10 ^ 21)) (Qabs q)); [now exists q|].
  assert (Hs : Qsign_neg q = false).
  { unfold Qsign_neg. apply Z.ltb_ge. unfold Qle in Hq. cbn in Hq. lia. }
  rewrite Hs. eexists. split; [reflexivity|].
  rewrite Qred_correct.
  assert (0 <= Qfloor (Qabs q * 10 + (1 # 2)))%Z.
  { change 0%Z with (Qfloor 0). apply Qfloor_resp_le.
    apply Qnonneg_add; [|discriminate].
    apply Qmult_le_0_compat; [apply Qabs_nonneg|discriminate]. }
  set (n := Qfloor (Qabs q * 10 + (1 # 2))) in *.
  unfold Qle. cbn [Qnum Qden]. lia.
Qed.

(** *** Rounding to one decimal keeps the order *)

Lemma Qsign_neg_true q : Qsign_neg q = true -> (q < 0)%Q.
Proof. unfold Qsign_neg, Qlt. cbn. intros H. apply Z.ltb_lt in H. lia. Qed.

Lemma Qsign_neg_false q : Qsign_neg q = false -> (0 <= q)%Q.
Proof. unfold Qsign_neg, Qle. cbn. intros H. apply Z.ltb_ge in H. lia. Qed.

Lemma tenths_floor_nonneg q : (0 <= Qfloor (Qabs q * 10 + (1 # 2)))%Z.
Proof.
  change 0%Z with (Qfloor 0). apply Qfloor_resp_le.
  pose proof (Qabs_nonneg q). lra.
Qed.

Lemma tenths_mono a b : (a <= b)%Q -> (tenths a <= tenths b)%Z.
Proof.
  intros Hab. unfold tenths.
  pose proof (tenths_floor_nonneg a) as Ha0.
  pose proof (tenths_floor_nonneg b) as Hb0.
  destruct (Qsign_neg a) eqn:Sa, (Qsign_neg b) eqn:Sb.
  - apply Qsign_neg_true in Sa, Sb.
    assert (Qfloor (Qabs b * 10 + (1 # 2)) <= Qfloor (Qabs a * 10 + (1 # 2)))%Z; [|lia].
    apply Qfloor_resp_le.
    rewrite (Qabs_neg a), (Qabs_neg b) by lra. lra.
  - lia.
  - apply Qsign_neg_true in Sb. apply Qsign_neg_false in Sa. lra.
  - apply Qsign_neg_false in Sa, Sb.
    apply Qfloor_resp_le.
    rewrite (Qabs_pos a), (Qabs_pos b) by lra. lra.
Qed.

Lemma tenths_bound q :
  (Qabs q < inject_Z (10 ^ 21))%Q ->
  (- 10 ^ 22 <= tenths q <= 10 ^ 22)%Z.
Proof.
  intros Hq. unfold tenths.
  pose proof (tenths_floor_nonneg q) as H0.
  assert (Qfloor (Qabs q * 10 + (1 # 2)) <= 10 ^ 22)%Z.
  { change (10 ^ 22)%Z with (Qfloor (inject_Z (10 ^ 22) + (1 # 2))).
    apply Qfloor_resp_le.
    assert (E : (inject_Z (10 ^ 22) == inject_Z (10 ^ 21) * 10)%Q) by reflexivity.
    rewrite E. lra. }
  destruct (Qsign_neg q); lia.
Qed.

Lemma Qle_tenths m n : (m <= n)%Z -> (m # 10 <= n # 10)%Q.
Proof. intros H. unfold Qle. cbn [Qnum Qden]. lia. Qed.

Lemma fixed1_mono a b :
  (a <= b)%Q -> leb (fixed1 (Fin a)) (fixed1 (Fin b)) = true.
Proof.
  intros Hab. cbn [fixed1]. fold (tenths a) (tenths b).
  set (B := inject_Z (10 ^ 21)).
  assert (HB : (B == inject_Z (10 ^ 22) / 10)%Q) by reflexivity.
  destruct (Qle_bool B (Qabs a)) eqn:Ea, (Qle_bool B (Qabs b)) eqn:Eb.
  - now apply leb_Fin.
  - apply Qle_bool_iff in Ea.
    assert (Hb : (Qabs b < B)%Q).
    { apply Qnot_le_lt. intros H. apply Qle_bool_iff in H. congruence. }
    apply leb_Fin. rewrite Qred_correct.
    pose proof (tenths_bound b Hb) as [Hlo _].
    apply Qle_tenths in Hlo.
    assert (Ha : (a <= - B)%Q).
    { pose proof (Qle_Qabs b).
      destruct (Qlt_le_dec a 0) as [Hneg|Hpos].
      - rewrite (Qabs_neg a) in Ea by lra. lra.
      - rewrite (Qabs_pos a) in Ea by lra. lra. }
    eapply Qle_trans; [exact Ha|]. eapply Qle_trans; [|exact Hlo].
    apply Qle_bool_iff. vm_compute. reflexivity.
  - apply Qle_bool_iff in Eb.
    assert (Ha : (Qabs a < B)%Q).
    { apply Qnot_le_lt. intros H. apply Qle_bool_iff in H. congruence. }
    apply leb_Fin. rewrite Qred_correct.
    pose proof (tenths_bound a Ha) as [_ Hhi].
    apply Qle_tenths in Hhi.
    assert (Hb : (B <= b)%Q).
    { pose proof (Qle_Qabs a).
      assert (Ha' : (- B < a)%Q).
      { apply Qabs_Qlt_condition in Ha. tauto. }
      destruct (Qlt_le_dec b 0) as [Hneg|Hpos].
      - rewrite (Qabs_neg b) in Eb by lra. lra.
      - rewrite (Qabs_pos b) in Eb by lra. lra. }
    eapply Qle_trans; [exact Hhi|]. eapply Qle_trans; [|exact Hb].
    apply Qle_bool_iff. vm_compute. reflexivity.
  - apply leb_Fin. rewrite !Qred_correct. apply Qle_tenths.
    now apply tenths_mono.
Qed.

Lemma fixed1_finite x : isFinite x = true -> isFinite (fixed1 x) = true.
Proof.
  destruct x as [| |q]; try discriminate. intros _. cbn [fixed1].
  now destruct (Qle_bool _ _).
Qed.

(** *** The tonnage under each key of [stats] *)

Lemma jsstring_eqb_refl k : jsstring_eqb k k = true.
Proof. unfold jsstring_eqb. destruct (jsstring_eq_dec k k); congruence. Qed.

Lemma jsstring_eqb_true a b : jsstring_eqb a b = true -> a = b.
Proof. unfold jsstring_eqb. destruct (jsstring_eq_dec a b); congruence. Qed.

Lemma jsstring_eqb_false a b : jsstring_eqb a b = false -> a <> b.
Proof. unfold jsstring_eqb. destruct (jsstring_eq_dec a b); congruence. Qed.

Lemma statsGet_In k v st : statsGet k st = Some v -> In (k, v) st.
Proof.
  induction st as [|[k' v'] st IH]; [discriminate|]. cbn [statsGet].
  destruct (jsstring_eqb k' k) eqn:E.
  - intros [= ->]. apply jsstring_eqb_true in E. subst. now left.
  - intros H. right. now apply IH.
Qed.

Lemma In_statsGet k v st :
  NoDup (List.map fst st) -> In (k, v) st -> statsGet k st = Some v.
Proof.
  induction st as [|[k' v'] st IH]; intros Hnd Hin; [destruct Hin|].
  cbn [List.map fst] in Hnd. inversion Hnd as [|? ? Hk Hnd']; subst.
  cbn [statsGet]. destruct Hin as [[= -> ->]|Hin].
  - now rewrite jsstring_eqb_refl.
  - destruct (jsstring_eqb k' k) eqn:E; [|now apply IH].
    apply jsstring_eqb_true in E. subst. exfalso. apply Hk.
    apply in_map_iff. now exists (k, v).
Qed.

Lemma statsGet_statsAdd k k' v st :
  statsGet k' (statsAdd k v st)
  = if jsstring_eqb k k'
    then Some (add (match statsGet k st with
                    | Some old => orZero old
                    | None => Fin 0
                    end) v)
    else statsGet k' st.
Proof.
  induction st as [|[k0 old] st IH]; cbn [statsAdd statsGet].
  - reflexivity.
  - destruct (jsstring_eqb k0 k) eqn:E0; cbn [statsGet].
    + apply jsstring_eqb_true in E0. subst k0.
      destruct (jsstring_eqb k k'); reflexivity.
    + destruct (jsstring_eqb k0 k') eqn:E1.
      * apply jsstring_eqb_true in E1. subst k0.
        destruct (jsstring_eqb k k') eqn:E2; [|reflexivity].
        apply jsstring_eqb_true in E2. subst. rewrite jsstring_eqb_refl in E0.
        discriminate.
      * exact IH.
Qed.

Lemma statsAdd_keys k v st k' :
  In k' (List.map fst (statsAdd k v st)) -> k' = k \/ In k' (List.map fst st).
Proof.
  induction st as [|[k0 old] st IH]; cbn [statsAdd List.map fst].
  - intros [<-|[]]. now left.
  - destruct (jsstring_eqb k0 k) eqn:E; cbn [List.map fst].
    + intros [<-|H]; right; [now left|now right].
    + intros [<-|H]; [right; now left|].
      destruct (IH H) as [->|H']; [now left|right; now right].
Qed.

Lemma statsAdd_NoDup k v st :
  NoDup (List.map fst st) -> NoDup (List.map fst (statsAdd k v st)).
Proof.
  induction st as [|[k0 old] st IH]; intros Hnd; cbn [statsAdd List.map fst].
  - repeat constructor. intros [].
  - cbn [List.map fst] in Hnd. inversion Hnd as [|? ? Hk Hnd']; subst.
    destruct (jsstring_eqb k0 k) eqn:E; cbn [List.map fst].
    + now constructor.
    + constructor; [|now apply IH].
      intros H. apply statsAdd_keys in H. destruct H as [->|H]; [|contradiction].
      rewrite jsstring_eqb_refl in E. discriminate.
Qed.

Lemma buildStats_NoDup filtered : NoDup (List.map fst (buildStats filtered)).
Proof.
  unfold buildStats.
  assert (G : forall st, NoDup (List.map fst st) ->
            NoDup (List.map fst
              (fold_left (fun st r =>
                            statsAdd (matName r) (div (weight r) (Fin 1000)) st)
                         filtered st))).
  { induction filtered as [|r l IH]; intros st Hst; [assumption|].
    cbn [fold_left]. apply IH. now apply statsAdd_NoDup. }
  apply G. constructor.
Qed.

Lemma stats_fold_value l : forall st k v,
  Forall finiteEntry st -> finiteWeights l ->
  statsGet k (fold_left (fun st r =>
                           statsAdd (matName r) (div (weight r) (Fin 1000)) st)
                        l st) = Some v ->
  exists q, v = Fin q /\ (q == qOf (statsGet k st) + materialTons k l)%Q.
Proof.
  induction l as [|r l IH]; intros st k v Hst Hl Hget.
  - cbn [fold_left] in Hget. rewrite Hget.
    apply statsGet_In in Hget. rewrite Forall_forall in Hst.
    specialize (Hst _ Hget). unfold finiteEntry in Hst. cbn [snd] in Hst.
    destruct v as [| |q]; try discriminate.
    exists q. split; [reflexivity|]. cbn [qOf materialTons]. now rewrite Qplus_0_r.
  - inversion Hl as [|? ? Hr Hl']; subst. cbn [fold_left] in Hget.
    destruct (weight r) as [| |w] eqn:Ew; try discriminate.
    assert (Hst' : Forall finiteEntry
                     (statsAdd (matName r) (div (Fin w) (Fin 1000)) st)).
    { apply (statsAdd_Forall (fun x => isFinite x = true)); [| |exact Hst].
      - intros old Hold. destruct old as [| |o]; try discriminate.
        destruct (orZero_Fin o) as (o' & -> & _). reflexivity.
      - reflexivity. }
    destruct (IH _ k v Hst' Hl' Hget) as (q & -> & Hq).
    exists q. split; [reflexivity|]. rewrite Hq. clear Hq IH Hget.
    rewrite statsGet_statsAdd. cbn [materialTons]. rewrite Ew.
    destruct (jsstring_eqb (matName r) k) eqn:E.
    + apply jsstring_eqb_true in E. subst k. rewrite div_thousand.
      destruct (statsGet (matName r) st) as [old|] eqn:Eold.
      * apply statsGet_In in Eold. rewrite Forall_forall in Hst.
        specialize (Hst _ Eold). unfold finiteEntry in Hst. cbn [snd] in Hst.
        destruct old as [| |o]; try discriminate.
        destruct (orZero_Fin o) as (o' & -> & Eo).
        cbn [add qOf]. rewrite Eo. now rewrite Qplus_assoc.
      * cbn [add qOf]. now rewrite Qplus_assoc.
    + now rewrite Qplus_0_l.
Qed.

(** Under each key [stats] holds the tonnage of that material. *)
Lemma buildStats_value filtered k v :
  finiteWeights filtered -> In (k, v) (buildStats filtered) ->
  exists q, v = Fin q /\ (q == materialTons k filtered)%Q.
Proof.
  intros Hl Hin.
  apply In_statsGet in Hin; [|apply buildStats_NoDup].
  destruct (stats_fold_value filtered [] k v (Forall_nil _) Hl Hin) as (q & -> & Hq).
  exists q. split; [reflexivity|]. rewrite Hq. cbn [statsGet qOf].
  now rewrite Qplus_0_l.
Qed.

(** *** The ranking *)

Lemma top10_ranking filtered :
  top10 filtered
  = List.map (fun e => (fst e, fixed1 (snd e))) (firstn 10 (ranking filtered)).
Proof. reflexivity. Qed.

Lemma ranking_perm filtered : Permutation (ranking filtered) (buildStats filtered).
Proof.
  unfold ranking. rewrite SortFacts.sortBy_perm. apply entries_perm.
Qed.

Lemma ranking_sorted filtered :
  finiteWeights filtered -> StronglySorted entryDesc (ranking filtered).
Proof.
  intros H. unfold ranking.
  assert (Hfin : Forall finiteEntry (entries (buildStats filtered))).
  { eapply Permutation_Forall; [symmetry; apply entries_perm|].
    now apply buildStats_finite. }
  set (P := fun a b : jsstring * number =>
              finiteEntry a /\ finiteEntry b /\ entryDesc a b).
  assert (Hs : StronglySorted P
                 (sortBy byTonsDesc (entries (buildStats filtered)))).
  { apply (SortFacts.sortBy_sorted byTonsDesc finiteEntry P); [| | |assumption].
    - unfold P. intros a b c (Ha & Hb & Hab) (_ & Hc & Hbc).
      split; [assumption|split; [assumption|]].
      apply (entryDesc_trans a b c); assumption.
    - unfold P. intros a b Ha Hb G.
      split; [assumption|split; [assumption|]].
      now apply byTonsDesc_keep.
    - unfold P. intros a b Ha Hb G.
      split; [assumption|split; [assumption|]].
      now apply byTonsDesc_move. }
  clear Hfin. induction Hs as [|x l Hs IH Hx]; constructor; [assumption|].
  eapply Forall_impl; [|exact Hx]. intros y (_ & _ & Hy). exact Hy.
Qed.

Lemma ranking_stable filtered v :
  List.filter (sameTons v) (ranking filtered)
  = List.filter (sameTons v) (entries (buildStats filtered)).
Proof.
  unfold ranking. apply SortFacts.sortBy_stable. apply sameTons_tie.
Qed.

Lemma top10_nonNeg filtered :
  nonNegWeights filtered -> Forall (fun e => nonNeg (snd e)) (top10 filtered).
Proof.
  intros H. rewrite top10_ranking.
  apply Forall_forall. intros e He. apply in_map_iff in He.
  destruct He as [e' [<- He']]. cbn [snd]. apply fixed1_nonNeg.
  assert (Hin : In e' (buildStats filtered)).
  { eapply Permutation_in; [apply ranking_perm|].
    rewrite <- (firstn_skipn 10 (ranking filtered)). apply in_or_app. now left. }
  pose proof (buildStats_nonNeg filtered H) as Hall.
  rewrite Forall_forall in Hall. now apply Hall.
Qed.

(** *** The running sum and the percentages *)

Lemma cumulate_length acc total l :
  List.length (cumulate acc total l) = List.length l.
Proof.
  revert acc. induction l as [|e l IH]; intros acc; [reflexivity|].
  cbn [cumulate List.length]. now rewrite IH.
Qed.

Lemma cumulate_entries acc total l :
  List.map (fun it => (name it, tons it)) (cumulate acc total l) = l.
Proof.
  revert acc. induction l as [|[k t] l IH]; intros acc; [reflexivity|].
  cbn [cumulate List.map name tons fst snd]. now rewrite IH.
Qed.

Lemma cumulate_nth total l : forall acc i it,
  nth_error (cumulate acc total l) i = Some it ->
  percentage it
  = percentOf total (fold_left (fun a b => add a (snd b)) (firstn (S i) l) acc).
Proof.
  induction l as [|e l IH]; intros acc i it H.
  - destruct i; discriminate.
  - destruct i as [|i].
    + cbn in H. injection H as <-. reflexivity.
    + cbn [cumulate nth_error] in H. apply IH in H. exact H.
Qed.

Lemma percentOf_mono total a b :
  (a <= b)%Q -> leb (percentOf total (Fin a)) (percentOf total (Fin b)) = true.
Proof.
  intros Hab. unfold percentOf.
  destruct (gtb total (Fin 0)) eqn:G; [|reflexivity].
  destruct total as [|n|t]; [discriminate G| |].
  - cbn [div mul]. apply round_mono. apply Qle_refl.
  - apply gtb_Fin_zero in G. cbn [div].
    replace (Qeq_bool t 0) with false.
    2:{ symmetry. apply not_true_is_false. intros E. apply Qeq_bool_iff in E.
        rewrite E in G. now apply Qlt_irrefl in G. }
    cbn [mul]. apply round_mono.
    apply Qmult_le_compat_r; [|discriminate].
    apply Qmult_le_compat_r; [assumption|].
    apply Qlt_le_weak. now apply Qinv_lt_0_compat.
Qed.

Lemma cumulate_lower total l : forall a0 a,
  (a0 <= a)%Q -> Forall (fun e => nonNeg (snd e)) l ->
  Forall (fun it => leb (percentOf total (Fin a0)) (percentage it) = true)
         (cumulate (Fin a) total l).
Proof.
  induction l as [|e l IH]; intros a0 a Ha Hl; [constructor|].
  inversion Hl as [|? ? (q & Eq & Hq) Hl']; subst.
  cbn [cumulate]. rewrite Eq. cbn [add].
  assert (Ha' : (a0 <= a + q)%Q).
  { eapply Qle_trans; [exact Ha|].
    rewrite <- (Qplus_0_r a) at 1. now apply Qplus_le_r. }
  constructor.
  - cbn [percentage]. now apply percentOf_mono.
  - now apply IH.
Qed.

Lemma cumulate_sorted total l : forall a,
  Forall (fun e => nonNeg (snd e)) l ->
  StronglySorted percentageAsc (cumulate (Fin a) total l).
Proof.
  induction l as [|e l IH]; intros a Hl; [constructor|].
  inversion Hl as [|? ? (q & Eq & Hq) Hl']; subst.
  cbn [cumulate]. rewrite Eq. cbn [add].
  constructor; [now apply IH|].
  unfold percentageAsc. cbn [percentage].
  apply (cumulate_lower total l (a + q) (a + q)); [apply Qle_refl|assumption].
Qed.

Lemma cumulate_last total l : forall acc d,
  l <> [] ->
  last (List.map percentage (cumulate acc total l)) d
  = percentOf total (fold_left (fun a b => add a (snd b)) l acc).
Proof.
  induction l as [|e l IH]; intros acc d Hne; [congruence|].
  destruct l as [|e' l].
  - reflexivity.
  - cbn [cumulate List.map]. cbn [cumulate List.map] in IH.
    change (fold_left (fun a b => add a (snd b)) (e :: e' :: l) acc)
      with (fold_left (fun a b => add a (snd b)) (e' :: l) (add acc (snd e))).
    rewrite <- (IH (add acc (snd e)) d) by discriminate.
    reflexivity.
Qed.

Lemma cumulate_zero total l acc :
  gtb total (Fin 0) = false ->
  Forall (fun it => percentage it = Fin 0) (cumulate acc total l).
Proof.
  intros G. revert acc. induction l as [|e l IH]; intros acc; [constructor|].
  cbn [cumulate]. constructor; [|apply IH].
  cbn [percentage]. now rewrite G.
Qed.

Lemma cumulate_tons_sorted total l : forall acc,
  StronglySorted entryDesc l ->
  StronglySorted tonsDesc (cumulate acc total l).
Proof.
  induction l as [|e l IH]; intros acc Hs; [constructor|].
  inversion Hs as [|? ? Hs' He]; subst. cbn [cumulate].
  constructor; [now apply IH|].
  apply Forall_forall. intros it Hit.
  assert (Hin : In (name it, tons it) l).
  { rewrite <- (cumulate_entries (add acc (snd e)) total l).
    apply in_map_iff. now exists it. }
  rewrite Forall_forall in He. specialize (He _ Hin).
  exact He.
Qed.

Lemma top10_sorted filtered :
  finiteWeights filtered -> StronglySorted entryDesc (top10 filtered).
Proof.
  intros H. rewrite top10_ranking.
  assert (Hfin : forall e, In e (firstn 10 (ranking filtered)) -> finiteEntry e).
  { intros e He.
    assert (Hin : In e (buildStats filtered)).
    { eapply Permutation_in; [apply ranking_perm|].
      rewrite <- (firstn_skipn 10 (ranking filtered)). apply in_or_app. now left. }
    pose proof (buildStats_finite filtered H) as Hall.
    rewrite Forall_forall in Hall. now apply Hall. }
  apply (SortFacts.StronglySorted_map entryDesc entryDesc).
  - intros a b Ha Hb Hab. apply Hfin in Ha, Hb.
    unfold finiteEntry, entryDesc in *. cbn [snd].
    destruct (snd a) as [| |qa]; try discriminate.
    destruct (snd b) as [| |qb]; try discriminate.
    apply fixed1_mono. now apply leb_Fin.
  - apply SortFacts.StronglySorted_firstn. now apply ranking_sorted.
Qed.

(** The whole sum over itself is one hundred per cent. *)
Lemma percentOf_total q : (0 < q)%Q -> percentOf (Fin q) (Fin q) = Fin 100.
Proof.
  intros Hq. unfold percentOf.
  replace (gtb (Fin q) (Fin 0)) with true by (symmetry; now apply gtb_Fin_zero).
  cbn [div].
  replace (Qeq_bool q 0) with false.
  2:{ symmetry. apply not_true_is_false. intros E. apply Qeq_bool_iff in E.
      rewrite E in Hq. now apply Qlt_irrefl in Hq. }
  cbn [mul round]. f_equal.
  assert (E : (q / q * 100 + (1 # 2) == 201 # 2)%Q).
  { rewrite Qmult_comm. unfold Qdiv. rewrite Qmult_inv_r.
    - reflexivity.
    - intros E. rewrite E in Hq. now apply Qlt_irrefl in Hq. }
  now rewrite E.
Qed.

End ParetoFacts.
(* ================================================================== *)
(** ** Facts on the two date patterns *)
(* ================================================================== *)

Module ParseFacts.

Lemma digitsN_spec n : forall s ds r,
  digitsN n s = Some (ds, r) ->
  s = ds ++ r /\ List.length ds = n /\ forallb isDigit ds = true.
Proof.
  induction n as [|n IH]; intros s ds r H.
  - cbn in H. injection H as <- <-. auto.
  - cbn [digitsN] in H. destruct s as [|c s]; [discriminate|].
    destruct (isDigit c) eqn:Ec; [|discriminate].
    destruct (digitsN n s) as [[ds' r']|] eqn:E; [|discriminate].
    injection H as <- <-. destruct (IH _ _ _ E) as (-> & Hl & Hd).
    cbn. rewrite Ec, Hl, Hd. auto.
Qed.

Lemma digits12_Some {A : Type} s (k : jsstring -> jsstring -> option A) res :
  digits12 s k = Some res ->
  exists ds r, (digitsN 2 s = Some (ds, r) \/ digitsN 1 s = Some (ds, r))
               /\ k ds r = Some res.
Proof.
  unfold digits12.
  destruct (digitsN 2 s) as [[ds2 r2]|] eqn:E2.
  - destruct (k ds2 r2) as [res2|] eqn:K2.
    + intros [= <-]. exists ds2, r2. auto.
    + destruct (digitsN 1 s) as [[ds1 r1]|] eqn:E1; [|discriminate].
      intros K1. exists ds1, r1. auto.
  - destruct (digitsN 1 s) as [[ds1 r1]|] eqn:E1; [|discriminate].
    intros K1. exists ds1, r1. auto.
Qed.

Lemma digits12_None {A : Type} s (k : jsstring -> jsstring -> option A) :
  (forall ds r, digitsN 2 s = Some (ds, r) -> k ds r = None) ->
  (forall ds r, digitsN 1 s = Some (ds, r) -> k ds r = None) ->
  digits12 s k = None.
Proof.
  intros H2 H1. unfold digits12.
  destruct (digitsN 2 s) as [[ds2 r2]|] eqn:E2.
  - rewrite (H2 _ _ eq_refl).
    destruct (digitsN 1 s) as [[ds1 r1]|] eqn:E1; [now apply H1|reflexivity].
  - destruct (digitsN 1 s) as [[ds1 r1]|] eqn:E1; [now apply H1|reflexivity].
Qed.

Lemma sepChar_digit c r : isDigit c = true -> sepChar (c :: r) = None.
Proof.
  unfold isDigit, sepChar. intros H.
  apply andb_true_iff in H. destruct H as [H1 H2]. apply N.leb_le in H1, H2.
  replace ((c =? 45) || (c =? 47) || (c =? 46))%N with false; [reflexivity|].
  symmetry. rewrite !orb_false_iff, !N.eqb_neq. lia.
Qed.

(** The day-first pattern ends with a year of exactly four digits. *)
Lemma dmyMatch_year s g1 g2 g3 :
  dmyMatch s = Some (g1, g2, g3) ->
  List.length g3 = 4%nat /\ forallb isDigit g3 = true.
Proof.
  unfold dmyMatch. intros H.
  apply digits12_Some in H. destruct H as (ds1 & r1 & _ & H).
  destruct (sepChar r1) as [r2|]; [|discriminate].
  apply digits12_Some in H. destruct H as (ds2 & r3 & _ & H).
  destruct (sepChar r3) as [r4|]; [|discriminate].
  destruct (digitsN 4 r4) as [[g r5]|] eqn:E; [|discriminate].
  injection H as _ _ <-. apply digitsN_spec in E. tauto.
Qed.

(** A text that the year-first pattern matches is not matched by the
    day-first pattern. *)
Lemma isoMatch_excludes_dmyMatch s g :
  isoMatch s = Some g -> dmyMatch s = None.
Proof.
  unfold isoMatch. destruct (digitsN 4 s) as [[g1 r1]|] eqn:E; [|discriminate].
  intros _. apply digitsN_spec in E. destruct E as (-> & Hl & Hd).
  destruct g1 as [|c0 [|c1 [|c2 [|c3 [|? ?]]]]]; try discriminate.
  cbn in Hd. repeat (apply andb_true_iff in Hd; destruct Hd as [? Hd]).
  unfold dmyMatch. apply digits12_None; intros ds r Hds.
  - cbn in Hds. repeat match goal with
      | H : isDigit ?c = true, H' : context [isDigit ?c] |- _ => rewrite H in H'
      end.
    injection Hds as <- <-. now rewrite sepChar_digit.
  - cbn in Hds. repeat match goal with
      | H : isDigit ?c = true, H' : context [isDigit ?c] |- _ => rewrite H in H'
      end.
    injection Hds as <- <-. now rewrite sepChar_digit.
Qed.

End ParseFacts.

(* ================================================================== *)
(** ** Facts on the rates of the monitor *)
(* ================================================================== *)

Module MonitorFacts.

Lemma gtb_min_100 x : gtb (min (Fin 100) x) (Fin 100) = false.
Proof.
  unfold min, gtb.
  destruct x as [|n|q]; [reflexivity| |].
  - destruct n; reflexivity.
  - cbn [ltb]. destruct (Qle_bool 100 q) eqn:E; cbn [negb ltb].
    + reflexivity.
    + replace (Qle_bool q 100) with true; [reflexivity|].
      symmetry. apply Qle_bool_iff. apply Qlt_le_weak. apply Qnot_le_lt.
      intros H. apply Qle_bool_iff in H. congruence.
Qed.

Lemma rateOf_le_100 b r : gtb (rateOf b r) (Fin 100) = false.
Proof.
  unfold rateOf. destruct (gtb (totalTime r) (Fin 0)); [apply gtb_min_100|reflexivity].
Qed.

Lemma orZero_integer z : orZero (Fin (inject_Z z)) = Fin (inject_Z z).
Proof.
  unfold orZero, truthy. destruct (Qeq_bool (inject_Z z) 0) eqn:E; [|reflexivity].
  cbn [negb]. apply Qeq_bool_iff in E. unfold Qeq in E. cbn in E.
  assert (z = 0) by lia. now subst.
Qed.

(** With a finite benchmark a rate is an integer or an infinity, so that
    [rate || 0] is the rate. *)
Lemma orZero_rateOf b r : isFinite b = true -> orZero (rateOf b r) = rateOf b r.
Proof.
  destruct b as [| |qb]; try discriminate. intros _.
  unfold rateOf. destruct (gtb (totalTime r) (Fin 0)) eqn:G; [|reflexivity].
  destruct (totalTime r) as [|n|q]; [discriminate G| |].
  - cbn [div mul]. cbn [round]. unfold min.
    destruct (ltb _ (Fin 100)); [apply orZero_integer|reflexivity].
  - cbn [div]. destruct (Qeq_bool q 0) eqn:Eq.
    + exfalso. cbn [gtb ltb] in G. apply negb_true_iff in G.
      apply Qeq_bool_iff in Eq.
      assert (Qle_bool q 0 = true) by (apply Qle_bool_iff; rewrite Eq; apply Qle_refl).
      congruence.
    + cbn [mul round]. unfold min.
      destruct (ltb _ (Fin 100)); [apply orZero_integer|reflexivity].
Qed.

Lemma sumRates_plain b (its : list TruckData) : forall acc,
  isFinite b = true ->
  fold_left (fun acc cur => add acc (orZero (rate cur)))
    (List.map (fun r => {| item := r; rate := rateOf b r |}) its) acc
  = fold_left add
      (List.map rate (List.map (fun r => {| item := r; rate := rateOf b r |}) its))
      acc.
Proof.
  induction its as [|r its IH]; intros acc Hb; [reflexivity|].
  cbn [List.map fold_left rate]. rewrite orZero_rateOf by assumption.
  now apply IH.
Qed.

End MonitorFacts.

(* ================================================================== *)
(** ** Properties of the decoder, the numeric normalizer and the builder *)
(* ================================================================== *)

Import Csv.

(** C8, as the specification words it, fails: with the quoting class "comma,
    quote, or newline" a cell that holds a carriage return is written bare
    and read back as two rows, and a row without cells is read back as a row
    of one empty cell. *)
Lemma csv_bare_carriage_return_splits_row :
  (robustParseCSV (encode [[[97; 13; 98]%N]]) = [[[97%N]]; [[98%N]]]
   /\ [[[97%N]]; [[98%N]]] <> [[[97; 13; 98]%N]])
  /\ (robustParseCSV (encode [[]]) = [[[]]]
      /\ [[[]]] <> ([[]] : list (list jsstring))).
Proof. repeat split; try reflexivity; discriminate. Qed.

(** C8 (amended): for every list of rows that have at least one cell each,
    encoding with comma separators, a line feed after every row, quotes
    around every cell that holds a comma, a quote, a line feed or a carriage
    return, and doubled embedded quotes, then decoding, gives back the rows
    exactly; and outside quotes the decoder consumes a CR LF pair as one row
    terminator. *)
Theorem csv_round_trip (rows : list (list jsstring)) :
  rowsNonEmpty rows ->
  robustParseCSV (encodeCR rows) = rows
  /\ (forall rest res row col,
        scan (CR :: LF :: rest) false res row col
        = scan rest false (res ++ [row ++ [col]]) [] []).
Proof.
  intros Hrows. split.
  - unfold robustParseCSV, encodeCR.
    now rewrite (CsvFacts.scan_rows specialCR CsvFacts.specialCR_covers rows []).
  - intros. apply CsvFacts.scan_crlf.
Qed.

(** A table with a comma, a quote and a CR LF pair inside cells, and a row of
    one empty cell. *)
Lemma csv_round_trip_witness :
  robustParseCSV
    (encodeCR [[js "a,b"; [QUOTE]; js "x" ++ [CR; LF] ++ js "y"]; [[]]])
  = [[js "a,b"; [QUOTE]; js "x" ++ [CR; LF] ++ js "y"]; [[]]].
Proof.
  apply (csv_round_trip [[js "a,b"; [QUOTE]; js "x" ++ [CR; LF] ++ js "y"]; [[]]]).
  repeat constructor; discriminate.
Defined.

(** X4: decoding, encoding and decoding again changes nothing, for every text. *)
Lemma decode_encode_decode (text : jsstring) :
  robustParseCSV (encodeCR (robustParseCSV text)) = robustParseCSV text.
Proof.
  unfold encodeCR.
  unfold robustParseCSV at 1.
  rewrite (CsvFacts.scan_rows specialCR CsvFacts.specialCR_covers).
  - reflexivity.
  - apply CsvFacts.robustParseCSV_rows_nonempty.
Qed.

(** C9: [parseNumberSafe] never gives [NaN]; it gives 0 for an absent or
    empty text and for a text with no number at its head once the commas are
    removed, and the parsed number otherwise.  In particular "1,894" gives
    1894, and the empty text and "abc" give 0. *)
Theorem parseNumberSafe_total (str : option jsstring) :
  isNaN (parseNumberSafe str) = false
  /\ (unparsedOrAbsent str -> parseNumberSafe str = Fin 0)
  /\ (forall s, str = Some s ->
        truthy (parseFloat (removeAll isComma s)) = true ->
        parseNumberSafe str = parseFloat (removeAll isComma s))
  /\ parseNumberSafe (Some (js "1,894")) = Fin 1894
  /\ parseNumberSafe (Some []) = Fin 0
  /\ parseNumberSafe (Some (js "abc")) = Fin 0.
Proof.
  split; [|split; [|split; [|repeat split]]].
  - destruct str as [s|]; [|reflexivity]. cbn [parseNumberSafe].
    destruct (negb (nonEmpty s)); [reflexivity|apply NumberFacts.orZero_not_NaN].
  - destruct str as [s|]; [|reflexivity]. cbn [unparsedOrAbsent parseNumberSafe].
    intros [-> | H]; [reflexivity|].
    destruct (negb (nonEmpty s)); [reflexivity|now apply NumberFacts.orZero_NaN].
  - intros s -> H. cbn [parseNumberSafe].
    destruct s as [|c s]; [discriminate H|].
    cbn [nonEmpty negb]. now apply NumberFacts.orZero_truthy.
Qed.

(** C1, as stated, fails: the builder does not trim cells, so a row whose
    material cell is a blank is kept, with the blank as its material name;
    and a row whose material cell is empty is kept as well, under the name
    "N/A" that the builder puts in before it filters. *)
Lemma blank_material_row_is_kept :
  (trim (js " ") = []
   /\ parseText (js "Truck,Material" ++ [LF] ++ js "T1, " ++ [LF])
      = Some [ {| truckNo := js "T1"; matName := js " ";
                  arrivalTime := []; endTime := [];
                  totalTime := Fin 0; weight := Fin 0;
                  mxStock := Fin 0; whStock := Fin 0 |} ])
  /\ parseText (js "Truck,Material" ++ [LF] ++ js "T1," ++ [LF])
     = Some [ {| truckNo := js "T1"; matName := js "N/A";
                 arrivalTime := []; endTime := [];
                 totalTime := Fin 0; weight := Fin 0;
                 mxStock := Fin 0; whStock := Fin 0 |} ].
Proof. repeat split; reflexivity. Qed.

(** C1 (amended): every built record has a non-empty material name and is
    the record of a data row; a row whose material cell is a non-empty
    string, taken as it is without trimming, is kept with that cell as its
    material name. *)
Theorem built_records_have_material (allRows : list (list jsstring))
  (parsed : list TruckData) :
  buildRecords allRows = Some parsed ->
  let idx := resolveColumns (List.map trim (hd [] allRows)) in
  Forall (fun x => matName x <> []) parsed
  /\ (forall x, In x parsed ->
        exists c, In c (skipn 1 allRows) /\ x = buildRecord idx c)
  /\ (forall c s, In c (skipn 1 allRows) ->
        cellAt c (mat idx) = Some s -> s <> [] ->
        In (buildRecord idx c) parsed /\ matName (buildRecord idx c) = s).
Proof.
  intros H idx. apply BuilderFacts.buildRecords_eq in H. fold idx in H. subst parsed.
  repeat split.
  - apply Forall_forall. intros x Hx. apply in_map_iff in Hx.
    destruct Hx as [c [<- _]]. apply BuilderFacts.nonEmpty_neq.
    apply BuilderFacts.matName_nonEmpty.
  - intros x Hx. apply in_map_iff in Hx. destruct Hx as [c [<- Hc]]. now exists c.
  - now apply in_map.
  - cbn [buildRecord matName]. now apply BuilderFacts.cellOr_some.
Qed.

(** Two data rows, the second without a material cell. *)
Lemma built_records_have_material_witness :
  buildRecords [[js "Truck"; js "Material"]; [js "T1"; js "Sand"]; [js "T2"]]
  = Some [ {| truckNo := js "T1"; matName := js "Sand";
              arrivalTime := []; endTime := [];
              totalTime := Fin 0; weight := Fin 0;
              mxStock := Fin 0; whStock := Fin 0 |};
           {| truckNo := js "T2"; matName := js "N/A";
              arrivalTime := []; endTime := [];
              totalTime := Fin 0; weight := Fin 0;
              mxStock := Fin 0; whStock := Fin 0 |} ]
  /\ Forall (fun x => matName x <> [])
       [ {| truckNo := js "T1"; matName := js "Sand";
            arrivalTime := []; endTime := [];
            totalTime := Fin 0; weight := Fin 0;
            mxStock := Fin 0; whStock := Fin 0 |};
         {| truckNo := js "T2"; matName := js "N/A";
            arrivalTime := []; endTime := [];
            totalTime := Fin 0; weight := Fin 0;
            mxStock := Fin 0; whStock := Fin 0 |} ].
Proof.
  assert (H : buildRecords
                [[js "Truck"; js "Material"]; [js "T1"; js "Sand"]; [js "T2"]]
              = Some [ {| truckNo := js "T1"; matName := js "Sand";
                          arrivalTime := []; endTime := [];
                          totalTime := Fin 0; weight := Fin 0;
                          mxStock := Fin 0; whStock := Fin 0 |};
                       {| truckNo := js "T2"; matName := js "N/A";
                          arrivalTime := []; endTime := [];
                          totalTime := Fin 0; weight := Fin 0;
                          mxStock := Fin 0; whStock := Fin 0 |} ])
    by (vm_compute; reflexivity).
  split; [exact H|].
  exact (proj1 (built_records_have_material _ _ H)).
Defined.




(** C10: when the material column is not found in the header, or the
    material cell of a row is the empty string, the record of that row has
    the material name "N/A"; no row is removed, so the record is in the
    record set; the pareto statistics of any set that holds it have an
    entry under "N/A", and the material filter "n/a" selects it. *)
Theorem missing_material_is_NA (allRows : list (list jsstring))
  (parsed : list TruckData) :
  buildRecords allRows = Some parsed ->
  let idx := resolveColumns (List.map trim (hd [] allRows)) in
  parsed = List.map (buildRecord idx) (skipn 1 allRows)
  /\ (forall c, In c (skipn 1 allRows) ->
        mat idx = -1 \/ cellAt c (mat idx) = Some [] ->
        matName (buildRecord idx c) = NA /\ In (buildRecord idx c) parsed)
  /\ (forall filtered r, In r filtered -> matName r = NA ->
        hasKey NA (buildStats filtered)
        /\ materialMatches (js "n/a") r = true).
Proof.
  intros H idx. apply BuilderFacts.buildRecords_eq in H. fold idx in H.
  split; [assumption|split].
  - intros c Hc Hcell. split.
    + cbn [buildRecord matName]. apply BuilderFacts.cellOr_default.
      destruct Hcell as [-> | ->]; auto.
    + subst parsed. now apply in_map.
  - intros filtered r Hr Hna. split.
    + rewrite <- Hna. now apply BuilderFacts.buildStats_hasKey.
    + unfold materialMatches. rewrite Hna. reflexivity.
Qed.

(** An empty material cell and a missing one. *)
Lemma missing_material_is_NA_witness :
  buildRecords [[js "Truck"; js "Material"]; [js "T1"; []]; [js "T2"]]
  = Some [ {| truckNo := js "T1"; matName := js "N/A";
              arrivalTime := []; endTime := [];
              totalTime := Fin 0; weight := Fin 0;
              mxStock := Fin 0; whStock := Fin 0 |};
           {| truckNo := js "T2"; matName := js "N/A";
              arrivalTime := []; endTime := [];
              totalTime := Fin 0; weight := Fin 0;
              mxStock := Fin 0; whStock := Fin 0 |} ]
  /\ matName (buildRecord (resolveColumns [js "Truck"; js "Material"])
                          [js "T1"; []]) = NA.
Proof.
  assert (H : buildRecords [[js "Truck"; js "Material"]; [js "T1"; []]; [js "T2"]]
              = Some [ {| truckNo := js "T1"; matName := js "N/A";
                          arrivalTime := []; endTime := [];
                          totalTime := Fin 0; weight := Fin 0;
                          mxStock := Fin 0; whStock := Fin 0 |};
                       {| truckNo := js "T2"; matName := js "N/A";
                          arrivalTime := []; endTime := [];
                          totalTime := Fin 0; weight := Fin 0;
                          mxStock := Fin 0; whStock := Fin 0 |} ])
    by (vm_compute; reflexivity).
  split; [exact H|].
  refine (proj1 (proj1 (proj2 (missing_material_is_NA _ _ H)) [js "T1"; []] _ _)).
  - cbn. auto.
  - right. vm_compute. reflexivity.
Defined.

(* ================================================================== *)
(** ** Properties of the temporal normalizer *)
(* ================================================================== *)





(* ================================================================== *)
(** ** Properties of date parsing, of the filter and of the monitor *)
(* ================================================================== *)

Section Temporal.

Variable DateParse : jsstring -> Date.




End Temporal.




(* ================================================================== *)
(** ** Properties of the pareto ranking *)
(* ================================================================== *)




(* ================================================================== *)
(** ** Facts on strings, on the column resolver and on the decoder *)
(* ================================================================== *)

Module TextFacts.

Import Csv.

Lemma startsWith_spec p s : startsWith p s = true <-> exists b, s = p ++ b.
Proof.
  revert s. induction p as [|a p IH]; intros s.
  - cbn. split; [intros _; now exists s|reflexivity].
  - destruct s as [|c s]; cbn [startsWith].
    + split; [discriminate|]. intros [b H]. discriminate.
    + rewrite andb_true_iff, N.eqb_eq, IH. split.
      * intros [-> [b ->]]. now exists b.
      * intros [b [= -> ->]]. split; [reflexivity|now exists b].
Qed.

(** [s.includes(k)] holds exactly when [k] is a contiguous part of [s]. *)
Lemma includes_spec s k : includes s k = true <-> exists a b, s = a ++ k ++ b.
Proof.
  induction s as [|c s IH].
  - cbn [includes]. rewrite orb_false_r, startsWith_spec. split.
    + intros [b H]. now exists [], b.
    + intros [a [b H]]. destruct a; [now exists b|discriminate].
  - cbn [includes]. rewrite orb_true_iff, startsWith_spec, IH. split.
    + intros [[b H]|[a [b H]]].
      * now exists [], b.
      * exists (c :: a), b. cbn. now rewrite H.
    + intros [a [b H]]. destruct a as [|c' a].
      * left. now exists b.
      * right. injection H as _ H. now exists a, b.
Qed.

Lemma findIndexFrom_spec {A : Type} (p : A -> bool) l : forall i,
  (findIndexFrom p i l = -1 /\ forallb (fun x => negb (p x)) l = true)
  \/ exists n x, findIndexFrom p i l = i + Z.of_nat n
                 /\ nth_error l n = Some x /\ p x = true
                 /\ forallb (fun x => negb (p x)) (firstn n l) = true.
Proof.
  induction l as [|x l IH]; intros i.
  - left. now cbn.
  - cbn [findIndexFrom forallb]. destruct (p x) eqn:Px.
    + right. exists O, x. cbn. repeat split; auto with zarith.
    + destruct (IH (i + 1)) as [(H1 & H2)|(n & y & H1 & H2 & H3 & H4)].
      * left. cbn [negb andb]. now split.
      * right. exists (S n), y. cbn [nth_error firstn forallb].
        rewrite Px. cbn [negb andb]. repeat split; [lia|assumption..].
Qed.

(** *** The end of the input *)

Lemma scan_cells_end special
  (Hsp : forall c, c = QUOTE \/ c = COMMA \/ c = LF \/ c = CR -> special c = true)
  cells : forall res row,
  cells <> [] -> (row = [] -> cells <> [[]]) ->
  scan (encodeCells special cells) false res row [] = res ++ [row ++ cells].
Proof.
  induction cells as [|c cells IH]; intros res row Hne Hflush; [congruence|].
  destruct cells as [|c' cells].
  - cbn [encodeCells]. rewrite <- (app_nil_r (encodeCell special c)).
    rewrite (CsvFacts.scan_cell special Hsp) by exact I.
    cbn [app scan].
    destruct c as [|x c]; cbn [nonEmpty orb]; [|reflexivity].
    destruct row as [|r0 row]; [exfalso; now apply Hflush|].
    reflexivity.
  - change (encodeCells special (c :: c' :: cells))
      with (encodeCell special c ++ COMMA :: encodeCells special (c' :: cells)).
    rewrite (CsvFacts.scan_cell special Hsp) by (cbn; discriminate).
    cbn [app]. cbn [scan]. cbn.
    change (scan (encodeCells special (c' :: cells)) false res (row ++ [c]) []
            = res ++ [row ++ c :: c' :: cells]).
    rewrite IH; [now rewrite <- app_assoc|discriminate|].
    intros E. destruct row; discriminate.
Qed.

Lemma scan_cells_crlf cells : forall rest res row,
  cells <> [] ->
  scan (encodeCells specialCR cells ++ CR :: LF :: rest) false res row []
  = scan rest false (res ++ [row ++ cells]) [] [].
Proof.
  induction cells as [|c cells IH]; intros rest res row Hne; [congruence|].
  destruct cells as [|c' cells].
  - cbn [encodeCells].
    rewrite (CsvFacts.scan_cell specialCR CsvFacts.specialCR_covers)
      by (cbn; discriminate).
    cbn [app]. apply CsvFacts.scan_crlf.
  - change (encodeCells specialCR (c :: c' :: cells))
      with (encodeCell specialCR c ++ COMMA :: encodeCells specialCR (c' :: cells)).
    rewrite <- app_assoc.
    rewrite (CsvFacts.scan_cell specialCR CsvFacts.specialCR_covers)
      by (cbn; discriminate).
    cbn [app]. cbn [scan]. cbn.
    change (scan (encodeCells specialCR (c' :: cells) ++ CR :: LF :: rest) false res
                 (row ++ [c]) []
            = scan rest false (res ++ [row ++ c :: c' :: cells]) [] []).
    rewrite IH by discriminate. now rewrite <- app_assoc.
Qed.

Lemma scan_rows_crlf rows : forall res,
  rowsNonEmpty rows ->
  scan (Views.encodeCRLF rows) false res [] [] = res ++ rows.
Proof.
  induction rows as [|r rows IH]; intros res Hne.
  - cbn. now rewrite app_nil_r.
  - inversion Hne as [|? ? Hr Hrows]; subst.
    unfold Views.encodeCRLF. cbn [flat_map]. fold (Views.encodeCRLF rows).
    rewrite <- app_assoc. cbn [app].
    rewrite scan_cells_crlf by assumption.
    rewrite IH by assumption. cbn [app]. now rewrite <- app_assoc.
Qed.

Lemma scan_rows_then special
  (Hsp : forall c, c = QUOTE \/ c = COMMA \/ c = LF \/ c = CR -> special c = true)
  rows : forall rest res,
  rowsNonEmpty rows ->
  scan (encodeWith special rows ++ rest) false res [] []
  = scan rest false (res ++ rows) [] [].
Proof.
  induction rows as [|r rows IH]; intros rest res Hne.
  - cbn. now rewrite app_nil_r.
  - inversion Hne as [|? ? Hr Hrows]; subst.
    unfold encodeWith. cbn [flat_map]. fold (encodeWith special rows).
    unfold encodeRow. rewrite <- !app_assoc. cbn [app].
    rewrite (CsvFacts.scan_cells special Hsp) by assumption.
    rewrite IH by assumption. cbn [app]. now rewrite <- app_assoc.
Qed.

End TextFacts.

(* ================================================================== *)
(** ** The column resolver and the decoder: further properties *)
(* ================================================================== *)

(** X1: [findColIdx] answers -1 exactly when no header passes the keyword test,
    and otherwise the position of the first header that passes it. *)
Theorem findColIdx_first_match (headers keywords : list jsstring) :
  (findColIdx headers keywords = -1
   /\ forall h, In h headers -> Views.headerMatches keywords h = false)
  \/ exists n h,
       findColIdx headers keywords = Z.of_nat n
       /\ nth_error headers n = Some h
       /\ Views.headerMatches keywords h = true
       /\ forall h', In h' (firstn n headers) -> Views.headerMatches keywords h' = false.
Proof.
  unfold findColIdx.
  destruct (TextFacts.findIndexFrom_spec
              (fun h => existsb (fun k => includes (toLowerCase h) (toLowerCase k))
                                keywords) headers 0)
    as [(H1 & H2)|(n & x & H1 & H2 & H3 & H4)].
  - left. split; [assumption|]. intros h Hh.
    rewrite forallb_forall in H2. apply negb_true_iff. now apply (H2 h).
  - right. exists n, x. repeat split; try assumption.
    intros h' Hh'. rewrite forallb_forall in H4.
    apply negb_true_iff. now apply (H4 h').
Qed.


(** X3: no row of a decoded table is empty: every row that [robustParseCSV]
    returns has at least one cell, whatever the text. *)
Theorem decoded_rows_have_cells (text : jsstring) :
  Forall (fun r => r <> []) (robustParseCSV text).
Proof. exact (CsvFacts.robustParseCSV_rows_nonempty text). Qed.

(** X5: a last row that no row terminator follows is decoded like the others,
    unless it is a single empty cell, which leaves no row at all. *)
Theorem unterminated_last_row (rows : list (list jsstring)) (last : list jsstring) :
  rowsNonEmpty rows -> last <> [] ->
  robustParseCSV (encodeCR rows ++ encodeCells specialCR last)
  = if list_eq_dec jsstring_eq_dec last [[]] then rows else rows ++ [last].
Proof.
  intros Hrows Hlast. unfold robustParseCSV, encodeCR.
  rewrite (TextFacts.scan_rows_then specialCR CsvFacts.specialCR_covers) by assumption.
  cbn [app].
  destruct (list_eq_dec jsstring_eq_dec last [[]]) as [->|Hne].
  - reflexivity.
  - now rewrite (TextFacts.scan_cells_end specialCR CsvFacts.specialCR_covers).
Qed.

Lemma unterminated_last_row_witness :
  robustParseCSV (encodeCR [[js "a"; js "b,c"]] ++ encodeCells specialCR [js "d"; []])
  = [[js "a"; js "b,c"]; [js "d"; []]].
Proof.
  apply (unterminated_last_row [[js "a"; js "b,c"]] [js "d"; []]).
  - repeat constructor; discriminate.
  - discriminate.
Defined.

(** X6: a table whose rows end in a carriage return and a line feed decodes to
    the rows it was written from. *)
Theorem crlf_round_trip (rows : list (list jsstring)) :
  rowsNonEmpty rows -> robustParseCSV (Views.encodeCRLF rows) = rows.
Proof.
  intros Hrows. unfold robustParseCSV.
  now rewrite TextFacts.scan_rows_crlf.
Qed.

Lemma crlf_round_trip_witness :
  robustParseCSV (Views.encodeCRLF [[js "a,b"; [QUOTE]; [CR; LF]]; [[]]])
  = [[js "a,b"; [QUOTE]; [CR; LF]]; [[]]].
Proof.
  apply (crlf_round_trip [[js "a,b"; [QUOTE]; [CR; LF]]; [[]]]).
  repeat constructor; discriminate.
Defined.

(* ================================================================== *)
(** ** Decimal numerals *)
(* ================================================================== *)

Module NumeralFacts.

Lemma digit_char d :
  0 <= d < 10 ->
  isDigit (Z.to_N (48 + d)) = true /\ digitVal (Z.to_N (48 + d)) = d.
Proof.
  intros Hd. unfold isDigit, digitVal. split; [|lia].
  apply andb_true_iff. split; apply N.leb_le; lia.
Qed.

Lemma digitsVal_snoc D c : digitsVal (D ++ [c]) = 10 * digitsVal D + digitVal c.
Proof. unfold digitsVal. now rewrite fold_left_app. Qed.

(** With fuel for every digit, [digitsOfFuel] writes the digits of [n] in
    front of the accumulator. *)
Lemma digitsOfFuel_spec f : forall n acc,
  0 <= n < 10 ^ Z.of_nat (S f) ->
  exists D, digitsOfFuel (S f) n acc = D ++ acc
            /\ D <> [] /\ forallb isDigit D = true /\ digitsVal D = n.
Proof.
  induction f as [|f IH]; intros n acc Hn.
  - change (10 ^ Z.of_nat 1) with 10 in Hn.
    destruct (digit_char (n mod 10)) as [H1 H2]; [Z.div_mod_to_equations; lia|].
    exists [Z.to_N (48 + n mod 10)]. cbn [digitsOfFuel].
    replace (n / 10 =? 0) with true by (symmetry; apply Z.eqb_eq; Z.div_mod_to_equations; lia).
    repeat split; [discriminate|cbn [forallb]; now rewrite H1|].
    unfold digitsVal. cbn [fold_left]. rewrite H2. Z.div_mod_to_equations; lia.
  - assert (Hpow : 10 ^ Z.of_nat (S (S f)) = 10 * 10 ^ Z.of_nat (S f)).
    { rewrite (Nat2Z.inj_succ (S f)). rewrite Z.pow_succ_r by lia. reflexivity. }
    destruct (digit_char (n mod 10)) as [H1 H2]; [Z.div_mod_to_equations; lia|].
    change (digitsOfFuel (S (S f)) n acc)
      with (if n / 10 =? 0 then Z.to_N (48 + n mod 10) :: acc
            else digitsOfFuel (S f) (n / 10) (Z.to_N (48 + n mod 10) :: acc)).
    destruct (Z.eqb_spec (n / 10) 0) as [E|E].
    + exists [Z.to_N (48 + n mod 10)].
      repeat split; [discriminate|cbn [forallb]; now rewrite H1|].
      unfold digitsVal. cbn [fold_left]. rewrite H2. Z.div_mod_to_equations; lia.
    + destruct (IH (n / 10) (Z.to_N (48 + n mod 10) :: acc)) as (D & E1 & E2 & E3 & E4).
      { Z.div_mod_to_equations; lia. }
      exists (D ++ [Z.to_N (48 + n mod 10)]).
      rewrite E1, <- app_assoc. repeat split.
      * intros H. now destruct D.
      * rewrite forallb_app. apply andb_true_iff. split; [exact E3|].
        cbn [forallb]. now rewrite H1.
      * rewrite digitsVal_snoc, E4, H2. Z.div_mod_to_equations; lia.
Qed.

Lemma fuel_enough n : 0 <= n -> n < 10 ^ Z.of_nat (S (Z.to_nat (Z.log2 n))).
Proof.
  intros Hn. pose proof (Z.log2_nonneg n) as HL.
  replace (Z.of_nat (S (Z.to_nat (Z.log2 n)))) with (Z.succ (Z.log2 n)) by lia.
  destruct (Z.eq_dec n 0) as [->|Hz]; [reflexivity|].
  pose proof (Z.log2_spec n ltac:(lia)) as [_ Hlt].
  assert (2 ^ Z.succ (Z.log2 n) <= 10 ^ Z.succ (Z.log2 n))
    by (apply Z.pow_le_mono_l; lia).
  lia.
Qed.

(** [String(n)] of a natural number is a run of digits of value [n]. *)
Lemma stringOfZ_digits n :
  0 <= n ->
  stringOfZ n <> [] /\ forallb isDigit (stringOfZ n) = true
  /\ digitsVal (stringOfZ n) = n.
Proof.
  intros Hn. unfold stringOfZ.
  replace (n <? 0) with false by (symmetry; apply Z.ltb_ge; lia).
  destruct (digitsOfFuel_spec (Z.to_nat (Z.log2 n)) n []) as (D & E1 & E2 & E3 & E4).
  { split; [assumption|now apply fuel_enough]. }
  rewrite E1, app_nil_r. auto.
Qed.

Lemma spanDigits_all D rest :
  forallb isDigit D = true -> Views.noDigitAhead rest ->
  spanDigits (D ++ rest) = (D, rest).
Proof.
  intros HD Hrest. induction D as [|c D IH].
  - cbn [app]. destruct rest as [|c r]; [reflexivity|].
    cbn [spanDigits]. cbn in Hrest. now rewrite Hrest.
  - cbn in HD. apply andb_true_iff in HD. destruct HD as [Hc HD].
    cbn [app spanDigits]. rewrite Hc, (IH HD). reflexivity.
Qed.

Lemma digit_not c d : isDigit c = true -> isDigit d = false -> (c =? d)%N = false.
Proof.
  intros Hc Hd. apply N.eqb_neq. intros E. subst d. congruence.
Qed.

Lemma digit_not_space c : isDigit c = true -> isWhiteSpace c = false.
Proof.
  unfold isDigit. intros H. apply andb_true_iff in H. destruct H as [H1 H2].
  apply N.leb_le in H1, H2. unfold isWhiteSpace.
  repeat match goal with
  | |- orb _ _ = false => apply orb_false_iff; split
  | |- andb _ _ = false => apply andb_false_iff
  end;
  try (apply N.eqb_neq; lia);
  try (right; apply N.leb_gt; lia);
  try (left; apply N.leb_gt; lia).
Qed.

(** A run of digits is read as the integer it writes. *)
Lemma unsignedDecimalPrefix_digits D :
  D <> [] -> forallb isDigit D = true ->
  unsignedDecimalPrefix D = Some (ofZ (digitsVal D), []).
Proof.
  intros Hne HD. unfold unsignedDecimalPrefix.
  destruct D as [|c D']; [congruence|].
  assert (Hc : isDigit c = true) by (cbn in HD; now apply andb_true_iff in HD).
  replace (startsWith INFINITY_LIT (c :: D')) with false.
  2:{ symmetry. destruct (startsWith INFINITY_LIT (c :: D')) eqn:E; [|reflexivity].
      exfalso. apply TextFacts.startsWith_spec in E. destruct E as [b E].
      vm_compute in E. injection E as E _. subst c.
      vm_compute in Hc. discriminate. }
  pose proof (spanDigits_all (c :: D') [] HD I) as Hsp.
  rewrite app_nil_r in Hsp. rewrite Hsp.
  cbn [exponentPart List.length Z.of_nat]. unfold scale10, ofZ.
  change (0 <=? 0 - 0) with true. cbv iota.
  rewrite app_nil_r. change (10 ^ (0 - 0)) with 1. now rewrite Z.mul_1_r.
Qed.

End NumeralFacts.



(* ================================================================== *)
(** ** The material list and the countdown *)
(* ================================================================== *)

Module ListFacts.

Import Views.

Lemma strLtb_irrefl a : strLtb a a = false.
Proof.
  induction a as [|x a IH]; [reflexivity|]. cbn [strLtb].
  now rewrite N.ltb_irrefl.
Qed.

Lemma strLtb_asym a : forall b, strLtb a b = true -> strLtb b a = false.
Proof.
  induction a as [|x a IH]; intros [|y b] H; try reflexivity; try discriminate.
  cbn [strLtb] in *.
  destruct (N.ltb_spec x y), (N.ltb_spec y x); try reflexivity; try discriminate;
    try lia.
  now apply IH.
Qed.

Lemma strLtb_trans a : forall b c,
  strLtb a b = true -> strLtb b c = true -> strLtb a c = true.
Proof.
  induction a as [|x a IH]; intros [|y b] [|z c] H1 H2;
    try reflexivity; try discriminate.
  cbn [strLtb] in *.
  destruct (N.ltb_spec x y), (N.ltb_spec y x), (N.ltb_spec y z), (N.ltb_spec z y),
           (N.ltb_spec x z), (N.ltb_spec z x);
    try reflexivity; try discriminate; try lia.
  now apply (IH b c).
Qed.

Lemma strLtb_total a : forall b,
  strLtb a b = false -> strLtb b a = false -> a = b.
Proof.
  induction a as [|x a IH]; intros [|y b] H1 H2;
    try reflexivity; try discriminate.
  cbn [strLtb] in *.
  destruct (N.ltb_spec x y), (N.ltb_spec y x); try discriminate; try lia.
  assert (x = y) by lia. subst y. f_equal. now apply IH.
Qed.

(** The order of [defaultCompare], as a relation. *)
Lemma notAfter_trans a b c :
  strLtb b a = false -> strLtb c b = false -> strLtb c a = false.
Proof.
  intros H1 H2. destruct (strLtb c a) eqn:E; [|reflexivity].
  destruct (strLtb a b) eqn:Eab.
  - rewrite (strLtb_trans c a b E Eab) in H2. discriminate.
  - pose proof (strLtb_total a b Eab H1). subst b. congruence.
Qed.

Lemma defaultCompare_keep a b :
  gtb (defaultCompare a b) (Fin 0) = false -> strLtb b a = false.
Proof.
  unfold defaultCompare. destruct (strLtb a b) eqn:E.
  - intros _. now apply strLtb_asym.
  - destruct (strLtb b a); [discriminate|reflexivity].
Qed.

Lemma defaultCompare_move a b :
  gtb (defaultCompare a b) (Fin 0) = true -> strLtb a b = false.
Proof.
  unfold defaultCompare. destruct (strLtb a b) eqn:E; [discriminate|reflexivity].
Qed.

Lemma defaultCompare_gtb a b :
  gtb (defaultCompare a b) (Fin 0) = strLtb b a.
Proof.
  unfold defaultCompare. destruct (strLtb a b) eqn:E.
  - rewrite (strLtb_asym a b E). reflexivity.
  - destruct (strLtb b a); reflexivity.
Qed.

Lemma sortBy_defaultCompare l :
  StronglySorted (fun a b => strLtb b a = false) (sortBy defaultCompare l).
Proof.
  apply (SortFacts.sortBy_sorted defaultCompare (fun _ => True)
           (fun a b => strLtb b a = false)).
  - intros a b c. apply notAfter_trans.
  - intros a b _ _. apply defaultCompare_keep.
  - intros a b _ _. apply defaultCompare_move.
  - now apply Forall_forall.
Qed.

Lemma sorted_strict l :
  NoDup l -> StronglySorted (fun a b => strLtb b a = false) l ->
  StronglySorted (fun a b => strLtb a b = true) l.
Proof.
  intros Hnd Hs. induction Hs as [|x l Hs IH Hx]; [constructor|].
  inversion Hnd as [|? ? Hx' Hnd']; subst.
  constructor; [now apply IH|].
  rewrite Forall_forall in *. intros y Hy.
  destruct (strLtb x y) eqn:E; [reflexivity|]. exfalso.
  pose proof (strLtb_total x y E (Hx y Hy)). now subst y.
Qed.

Lemma existsb_eqb x s : existsb (jsstring_eqb x) s = true <-> In x s.
Proof.
  rewrite existsb_exists. split.
  - intros (y & Hy & E). apply BuilderFacts.jsstring_eqb_eq in E. now subst y.
  - intros H. exists x. split; [assumption|]. now apply BuilderFacts.jsstring_eqb_eq.
Qed.

Lemma setAdd_spec x s :
  NoDup s -> NoDup (setAdd x s) /\ forall y, In y (setAdd x s) <-> y = x \/ In y s.
Proof.
  intros Hs. unfold setAdd. destruct (existsb (jsstring_eqb x) s) eqn:E.
  - apply existsb_eqb in E. split; [assumption|].
    intros y. split; [auto|]. intros [->|H]; assumption.
  - assert (Hx : ~ In x s).
    { intros H. apply existsb_eqb in H. congruence. }
    split.
    + apply NoDup_app; [assumption|repeat constructor; auto|].
      intros y Hy [->|[]]. contradiction.
    + intros y. rewrite in_app_iff. cbn [In]. intuition.
Qed.

Lemma newSet_from values : forall s,
  NoDup s ->
  NoDup (fold_left (fun s x => setAdd x s) values s)
  /\ forall y, In y (fold_left (fun s x => setAdd x s) values s)
               <-> In y s \/ In y values.
Proof.
  induction values as [|x values IH]; intros s Hs; cbn [fold_left].
  - split; [assumption|]. intros y. cbn [In]. tauto.
  - destruct (setAdd_spec x s Hs) as [H1 H2].
    destruct (IH (setAdd x s) H1) as [H3 H4]. split; [assumption|].
    intros y. rewrite H4, H2. cbn [In]. intuition.
Qed.

Lemma newSet_spec values :
  NoDup (newSet values) /\ forall y, In y (newSet values) <-> In y values.
Proof.
  destruct (newSet_from values [] (NoDup_nil _)) as [H1 H2].
  split; [assumption|]. intros y. unfold newSet. rewrite H2. cbn [In]. tauto.
Qed.

(** *** The countdown *)

Lemma ticks_countdown rate k : forall q,
  (q == inject_Z (Z.of_nat (S k)))%Q ->
  ticks rate (S k) (Fin q) = (rate, repeat false k ++ [true]).
Proof.
  induction k as [|k IH]; intros q Hq.
  - cbn [ticks]. unfold tick. cbn [leb].
    replace (Qle_bool q 1) with true; [reflexivity|].
    symmetry. apply Qle_bool_iff. rewrite Hq. apply Qle_bool_iff. reflexivity.
  - change (ticks rate (S (S k)) (Fin q))
      with (let (c', fired) := tick rate (Fin q) in
            let (c'', flags) := ticks rate (S k) c' in (c'', fired :: flags)).
    unfold tick. cbn [leb].
    replace (Qle_bool q 1) with false.
    + unfold sub. cbn [neg add]. erewrite IH; [reflexivity|].
      rewrite Hq. rewrite !Nat2Z.inj_succ. unfold Z.succ.
      rewrite !inject_Z_plus. change (inject_Z 1) with 1%Q. ring.
    + symmetry. destruct (Qle_bool q 1) eqn:E; [|reflexivity]. exfalso.
      apply Qle_bool_iff in E. rewrite Hq in E.
      rewrite !Nat2Z.inj_succ in E. unfold Qle in E. cbn in E. lia.
Qed.

Lemma ticks_NaN rate n : ticks rate n NaN = (NaN, repeat false n).
Proof.
  induction n as [|n IH]; [reflexivity|].
  cbn [ticks]. unfold tick. cbn [leb sub add]. now rewrite IH.
Qed.

End ListFacts.

(** X8: the material list is in strictly ascending order of code units, so
    without a repeat, and its members are exactly the material names of the
    records. *)
Theorem materialList_sorted_set (rawData : list TruckData) :
  StronglySorted (fun a b => Views.strLtb a b = true) (Views.materialList rawData)
  /\ forall m, In m (Views.materialList rawData)
               <-> exists r, In r rawData /\ matName r = m.
Proof.
  unfold Views.materialList.
  destruct (ListFacts.newSet_spec (List.map matName rawData)) as [Hnd Hin].
  pose proof (SortFacts.sortBy_perm Views.defaultCompare
                (Views.newSet (List.map matName rawData))) as Hp.
  split.
  - apply ListFacts.sorted_strict; [|apply ListFacts.sortBy_defaultCompare].
    eapply Permutation_NoDup; [symmetry; exact Hp|assumption].
  - intros m. split.
    + intros H. apply (Permutation_in _ Hp) in H. apply Hin in H.
      apply in_map_iff in H. destruct H as (r & E & Hr). now exists r.
    + intros (r & Hr & E). apply (Permutation_in _ (Permutation_sym Hp)).
      apply Hin. apply in_map_iff. now exists r.
Qed.

(** X9: a countdown that shows [k] fires on the [k]-th tick and on none before,
    and then shows the refresh rate again; a countdown that is not a number
    never fires. *)
Theorem countdown_period (rate : number) (k n : nat) :
  Views.ticks rate (S k) (ofZ (Z.of_nat (S k))) = (rate, repeat false k ++ [true])
  /\ Views.ticks rate n NaN = (NaN, repeat false n).
Proof.
  split.
  - apply ListFacts.ticks_countdown. reflexivity.
  - apply ListFacts.ticks_NaN.
Qed.

(* ================================================================== *)
(** ** Dates written and read back, shift days and windows *)
(* ================================================================== *)

Module CalendarFacts.

Import Views.

Lemma plainChar_spec c :
  plainChar c = true -> isWhiteSpace c = false /\ isZeroWidth c = false.
Proof.
  unfold plainChar. intros H. apply andb_true_iff in H.
  destruct H as [H1 H2]. now rewrite negb_true_iff in H1, H2.
Qed.

Lemma trimStart_plain s : forallb plainChar s = true -> trimStart s = s.
Proof.
  destruct s as [|c s]; [reflexivity|]. cbn [forallb trimStart]. intros H.
  apply andb_true_iff in H. destruct H as [Hc _].
  apply plainChar_spec in Hc. destruct Hc as [Hc _]. now rewrite Hc.
Qed.

Lemma forallb_rev {A : Type} (p : A -> bool) l :
  forallb p l = true -> forallb p (rev l) = true.
Proof.
  rewrite !forallb_forall. intros H x Hx. apply H. now apply in_rev.
Qed.

Lemma trim_plain s : forallb plainChar s = true -> trim s = s.
Proof.
  intros H. unfold trim, trimEnd. rewrite (trimStart_plain s H).
  transitivity (rev (rev s)); [|apply rev_involutive].
  f_equal. apply trimStart_plain. now apply forallb_rev.
Qed.

Lemma removeAll_plain s : forallb plainChar s = true -> removeAll isZeroWidth s = s.
Proof.
  unfold removeAll. induction s as [|c s IH]; [reflexivity|].
  cbn [forallb List.filter]. intros H. apply andb_true_iff in H.
  destruct H as [Hc Hs]. apply plainChar_spec in Hc. destruct Hc as [_ Hc].
  rewrite Hc. cbn [negb]. now rewrite IH.
Qed.

Lemma nbsp_plain s :
  forallb plainChar s = true ->
  List.map (fun c => if (c =? 160)%N then 32%N else c) s = s.
Proof.
  induction s as [|c s IH]; [reflexivity|].
  cbn [forallb List.map]. intros H. apply andb_true_iff in H.
  destruct H as [Hc Hs]. apply plainChar_spec in Hc. destruct Hc as [Hc _].
  rewrite (IH Hs). destruct (N.eqb_spec c 160) as [->|_]; [discriminate|reflexivity].
Qed.

Lemma cleanText_plain s : forallb plainChar s = true -> cleanText s = s.
Proof.
  intros H. unfold cleanText.
  now rewrite (trim_plain s H), (removeAll_plain s H), (nbsp_plain s H).
Qed.

Lemma splitWs_plain s : forall cur,
  forallb plainChar s = true -> splitWs false cur s = [cur ++ s].
Proof.
  induction s as [|c s IH]; intros cur H.
  - cbn. now rewrite app_nil_r.
  - cbn [forallb] in H. apply andb_true_iff in H. destruct H as [Hc Hs].
    apply plainChar_spec in Hc. destruct Hc as [Hc _].
    cbn [splitWs]. rewrite Hc, (IH _ Hs), <- app_assoc. reflexivity.
Qed.

(** A text without white space is a date part; the time is 00:00. *)
Lemma dateAndTime_plain s :
  forallb plainChar s = true -> dateAndTime s = (s, Fin 0, Fin 0).
Proof.
  intros H. unfold dateAndTime. rewrite (splitWs_plain s [] H). reflexivity.
Qed.

Lemma digit_plain c : isDigit c = true -> plainChar c = true.
Proof.
  intros H. unfold plainChar.
  rewrite (NumeralFacts.digit_not_space c H). cbn [negb andb].
  apply negb_true_iff. unfold isDigit in H. apply andb_true_iff in H.
  destruct H as [H1 H2]. apply N.leb_le in H1, H2. unfold isZeroWidth.
  apply orb_false_iff. split; [apply andb_false_iff; left; apply N.leb_gt; lia|].
  apply N.eqb_neq. lia.
Qed.

Lemma isoMatch_canonical y1 y2 y3 y4 m1 m2 d1 d2 :
  isDigit y1 = true -> isDigit y2 = true -> isDigit y3 = true -> isDigit y4 = true ->
  isDigit m1 = true -> isDigit m2 = true -> isDigit d1 = true -> isDigit d2 = true ->
  isoMatch [y1; y2; y3; y4; 45%N; m1; m2; 45%N; d1; d2]
  = Some ([y1; y2; y3; y4], [m1; m2], [d1; d2]).
Proof.
  intros Hy1 Hy2 Hy3 Hy4 Hm1 Hm2 Hd1 Hd2.
  unfold isoMatch, digits12. cbn -[isDigit].
  rewrite Hy1, Hy2, Hy3, Hy4. cbn -[isDigit]. rewrite Hm1, Hm2. cbn -[isDigit].
  rewrite Hd1, Hd2. reflexivity.
Qed.

Lemma digitsVal_padStart2 s : digitsVal (padStart2 s) = digitsVal s.
Proof. destruct s as [|a [|b s]]; reflexivity. Qed.

(** The days of the years 1000 to 9999 give time values in range, a day
    before and a day after included. *)
Lemma year_days t :
  1000 <= YearFromTime t <= 9999 ->
  DayFromYear 1000 <= Day t < DayFromYear 10000.
Proof.
  intros Hy. unfold YearFromTime in Hy.
  pose proof (DateFacts.YearFromDay_spec (Day t)) as Hs.
  pose proof (DateFacts.DayFromYear_mono 1000 (YearFromDay (Day t)) ltac:(lia)).
  pose proof (DateFacts.DayFromYear_mono (YearFromDay (Day t) + 1) 10000 ltac:(lia)).
  lia.
Qed.

Lemma day_inRange d tm :
  DayFromYear 1000 - 2 <= d <= DayFromYear 10000 + 2 -> 0 <= tm < msPerDay ->
  inRange (d * msPerDay + tm) = true.
Proof.
  intros Hd Htm.
  let v := eval vm_compute in (DayFromYear 1000) in
    change (DayFromYear 1000) with v in Hd.
  let v := eval vm_compute in (DayFromYear 10000) in
    change (DayFromYear 10000) with v in Hd.
  unfold inRange, maxTime, msPerDay in *.
  apply andb_true_iff. split; apply Z.leb_le; lia.
Qed.

Lemma time_of_day t : t = Day t * msPerDay + TimeWithinDay t /\ 0 <= TimeWithinDay t < msPerDay.
Proof.
  unfold Day, TimeWithinDay, msPerDay. Z.div_mod_to_equations. lia.
Qed.

(** [formatDateToISO] depends on the day of the instant only. *)
Lemma formatDateToISO_day a b :
  Day a = Day b -> formatDateToISO (Some a) = formatDateToISO (Some b).
Proof.
  intros H. cbn [formatDateToISO].
  unfold DateFromTime, MonthFromTime, InLeapYear, DayWithinYear, YearFromTime.
  now rewrite H.
Qed.

(** The hour is below seven exactly when the instant seven hours earlier
    lies in the day before. *)
Lemma shiftDay_cases t :
  shiftDay t = if HourFromTime t <? 7 then Day t - 1 else Day t.
Proof.
  unfold shiftDay, Day, HourFromTime, msPerDay, msPerHour.
  destruct (Z.ltb_spec ((t / 3600000) mod 24) 7); Z.div_mod_to_equations; lia.
Qed.

(** The window from 07:00 of day [a] to 07:00 of the day after day [b]
    holds the instants whose shift day lies from [a] to [b]. *)
Lemma shift_window a b d :
  (a * msPerDay + 7 * msPerHour <=? d) && (d <? (b + 1) * msPerDay + 7 * msPerHour) = true
  <-> a <= shiftDay d <= b.
Proof.
  rewrite andb_true_iff, Z.leb_le, Z.ltb_lt.
  unfold shiftDay, Day, msPerDay, msPerHour. split; intros H;
    Z.div_mod_to_equations; lia.
Qed.

Lemma boundary_day t k :
  1000 <= YearFromTime t <= 9999 -> -1 <= k <= 1 ->
  boundary t k = Some ((Day t + k) * msPerDay + 7 * msPerHour).
Proof.
  intros Hy Hk. unfold boundary.
  rewrite DateFacts.newDate_seven by lia.
  rewrite DateFacts.MakeDay_FromTime. unfold MakeDate.
  apply DateFacts.TimeClip_inRange. apply day_inRange.
  - pose proof (year_days t Hy). lia.
  - unfold msPerHour, msPerDay. lia.
Qed.

Section Engine.

Variable DateParse : jsstring -> Date.

Lemma smartParseDate_canonical y1 y2 y3 y4 m1 m2 d1 d2 :
  isDigit y1 = true -> isDigit y2 = true -> isDigit y3 = true -> isDigit y4 = true ->
  isDigit m1 = true -> isDigit m2 = true -> isDigit d1 = true -> isDigit d2 = true ->
  forall vy vm vd,
  digitsVal [y1; y2; y3; y4] = vy -> digitsVal [m1; m2] = vm ->
  digitsVal [d1; d2] = vd ->
  smartParseDate DateParse [y1; y2; y3; y4; 45%N; m1; m2; 45%N; d1; d2]
  = newDate vy (vm - 1) vd (Fin 0) (Fin 0).
Proof.
  intros Hy1 Hy2 Hy3 Hy4 Hm1 Hm2 Hd1 Hd2 vy vm vd <- <- <-.
  assert (Hp : forallb plainChar [y1; y2; y3; y4; 45%N; m1; m2; 45%N; d1; d2] = true).
  { cbn [forallb].
    rewrite (digit_plain y1 Hy1), (digit_plain y2 Hy2), (digit_plain y3 Hy3),
      (digit_plain y4 Hy4), (digit_plain m1 Hm1), (digit_plain m2 Hm2),
      (digit_plain d1 Hd1), (digit_plain d2 Hd2). reflexivity. }
  unfold smartParseDate. cbn [nonEmpty negb].
  rewrite (cleanText_plain _ Hp), (dateAndTime_plain _ Hp).
  now rewrite isoMatch_canonical.
Qed.

(** Reading a written date gives the midnight that starts its day. *)
Lemma parse_format t :
  1000 <= YearFromTime t <= 9999 ->
  smartParseDate DateParse (formatDateToISO (Some t)) = Some (Day t * msPerDay).
Proof.
  intros Hy. cbn [formatDateToISO].
  pose proof (DateFacts.MonthFromTime_range t) as Hm.
  pose proof (DateFacts.DateFromTime_range t) as Hd.
  pose proof (DateFacts.fourDigits_year _ Hy) as F4.
  pose proof (DateFacts.twoDigits_small (MonthFromTime t + 1) ltac:(lia)) as Fm.
  pose proof (DateFacts.twoDigits_small (DateFromTime t) ltac:(lia)) as Fd.
  destruct (NumeralFacts.stringOfZ_digits (YearFromTime t) ltac:(lia)) as (_ & _ & Vy).
  destruct (NumeralFacts.stringOfZ_digits (MonthFromTime t + 1) ltac:(lia)) as (_ & _ & Vm).
  destruct (NumeralFacts.stringOfZ_digits (DateFromTime t) ltac:(lia)) as (_ & _ & Vd).
  rewrite <- digitsVal_padStart2 in Vm, Vd.
  unfold fourDigits in F4. unfold twoDigits in Fm, Fd.
  destruct (stringOfZ (YearFromTime t)) as [|y1 [|y2 [|y3 [|y4 [|? ?]]]]];
    try discriminate.
  destruct (padStart2 (stringOfZ (MonthFromTime t + 1))) as [|m1 [|m2 [|? ?]]];
    try discriminate.
  destruct (padStart2 (stringOfZ (DateFromTime t))) as [|d1 [|d2 [|? ?]]];
    try discriminate.
  repeat match goal with
  | H : andb _ _ = true |- _ => apply andb_true_iff in H; destruct H
  end.
  change ([y1; y2; y3; y4] ++ js "-" ++ [m1; m2] ++ js "-" ++ [d1; d2])
    with [y1; y2; y3; y4; 45%N; m1; m2; 45%N; d1; d2].
  erewrite smartParseDate_canonical; [|eassumption..].
  replace (MonthFromTime t + 1 - 1) with (MonthFromTime t) by lia.
  unfold newDate.
  replace ((0 <=? YearFromTime t) && (YearFromTime t <=? 99)) with false
    by (symmetry; apply andb_false_iff; right; apply Z.leb_gt; lia).
  change (MakeTime (Fin 0) (Fin 0)) with (Some 0). cbv beta iota zeta.
  replace (DateFromTime t) with (DateFromTime t + 0) at 1 by lia.
  rewrite DateFacts.MakeDay_FromTime. unfold MakeDate.
  rewrite !Z.add_0_r.
  pose proof (day_inRange (Day t) 0) as Hr. rewrite Z.add_0_r in Hr.
  apply DateFacts.TimeClip_inRange, Hr.
  - pose proof (year_days t Hy). lia.
  - unfold msPerDay. lia.
Qed.

(** The shift date of an instant is the date of the instant seven hours
    earlier. *)
Lemma shiftDate_format t :
  inRange (t - msPerDay) = true -> inRange t = true ->
  getShiftDateString (Some t) = formatDateToISO (Some (t - 7 * msPerHour)).
Proof.
  intros H1 H2. cbn [getShiftDateString].
  rewrite (DateFacts.TimeClip_inRange t H2).
  pose proof (shiftDay_cases t) as Hc. unfold shiftDay in Hc.
  destruct (HourFromTime t <? 7).
  - replace (DateFromTime t - 1) with (DateFromTime t + -1) by lia.
    rewrite (DateFacts.setDate_shift t (-1)).
    replace (t + -1 * msPerDay) with (t - msPerDay) by lia.
    rewrite (DateFacts.TimeClip_inRange _ H1).
    apply formatDateToISO_day. rewrite Hc.
    replace (t - msPerDay) with (t + -1 * msPerDay) by lia.
    rewrite DateFacts.Day_shift. lia.
  - apply formatDateToISO_day. now rewrite Hc.
Qed.

(** The window of the filter, in shift days. *)
Lemma inWindow_shift s e r :
  1000 <= YearFromTime s <= 9999 -> 1000 <= YearFromTime e <= 9999 ->
  inWindow DateParse (boundary s 0) (boundary e 1) r = true
  <-> exists d, smartParseDate DateParse (arrivalTime r) = Some d
                /\ Day s <= shiftDay d <= Day e.
Proof.
  intros Hs He. unfold inWindow.
  rewrite (boundary_day s 0 Hs) by lia. rewrite (boundary_day e 1 He) by lia.
  rewrite Z.add_0_r.
  destruct (smartParseDate DateParse (arrivalTime r)) as [d|].
  - cbn [dateGe dateLt]. rewrite shift_window. split.
    + intros H. now exists d.
    + intros (d' & [= <-] & H). exact H.
  - split; [discriminate|]. intros (d & H & _). discriminate.
Qed.

(** The window of the monitor, in shift days. *)
Lemma monitor_window base r :
  1000 <= YearFromTime base <= 9999 ->
  inWindow DateParse (boundary base 0) (monitorEnd (boundary base 0)) r = true
  <-> exists d, smartParseDate DateParse (arrivalTime r) = Some d
                /\ shiftDay d = Day base.
Proof.
  intros Hb.
  assert (E : monitorEnd (boundary base 0) = boundary base 1).
  { rewrite (boundary_day base 0 Hb), (boundary_day base 1 Hb) by lia.
    cbn [monitorEnd].
    assert (Hr : inRange ((Day base + 0) * msPerDay + 7 * msPerHour) = true).
    { apply day_inRange; [pose proof (year_days base Hb); lia|].
      unfold msPerDay, msPerHour. lia. }
    rewrite (DateFacts.TimeClip_inRange _ Hr).
    rewrite (DateFacts.setDate_shift _ 1).
    replace ((Day base + 0) * msPerDay + 7 * msPerHour + 1 * msPerDay)
      with ((Day base + 1) * msPerDay + 7 * msPerHour) by lia.
    apply DateFacts.TimeClip_inRange. apply day_inRange.
    - pose proof (year_days base Hb). lia.
    - unfold msPerDay, msPerHour. lia. }
  rewrite E, (inWindow_shift base base r Hb Hb).
  split; intros (d & H1 & H2); exists d; (split; [assumption|lia]).
Qed.

(** The filtered set, in shift days. *)
Lemma filteredData_shift rawData filters s e r :
  smartParseDate DateParse (startDate filters) = Some s ->
  smartParseDate DateParse (endDate filters) = Some e ->
  1000 <= YearFromTime s <= 9999 -> 1000 <= YearFromTime e <= 9999 ->
  In r (filteredData DateParse rawData filters)
  <-> In r rawData
      /\ (exists d, smartParseDate DateParse (arrivalTime r) = Some d
                    /\ Day s <= shiftDay d <= Day e)
      /\ materialMatches (material filters) r = true.
Proof.
  intros Es Ee Hs He. unfold filteredData. rewrite Es, Ee.
  rewrite filter_In, andb_true_iff, (inWindow_shift s e r Hs He). tauto.
Qed.

(** The events of the monitor are the records of its window, sorted. *)
Lemma monitor_items rawData monitorDate benchmarkTime base :
  smartParseDate DateParse monitorDate = Some base ->
  List.map item (monitorItems (todayMonitor DateParse rawData monitorDate benchmarkTime))
  = sortBy (byArrivalDesc DateParse)
      (List.filter (inWindow DateParse (boundary base 0) (monitorEnd (boundary base 0)))
                   rawData).
Proof.
  intros Eb. unfold todayMonitor. rewrite Eb.
  set (its := sortBy _ _).
  destruct (Z.eqb_spec (Z.of_nat (List.length its)) 0) as [E|E].
  - cbn [monitorItems List.map]. destruct its; [reflexivity|discriminate].
  - cbn [monitorItems]. rewrite map_map. cbn [item]. apply map_id.
Qed.

Lemma arrivalMillis_value r t :
  smartParseDate DateParse (arrivalTime r) = Some t ->
  arrivalMillis DateParse r = Fin (inject_Z t).
Proof.
  intros E. unfold arrivalMillis. rewrite E. apply MonitorFacts.orZero_integer.
Qed.

Lemma byArrivalDesc_later a b ta tb :
  smartParseDate DateParse (arrivalTime a) = Some ta ->
  smartParseDate DateParse (arrivalTime b) = Some tb ->
  gtb (byArrivalDesc DateParse a b) (Fin 0) = (ta <? tb).
Proof.
  intros Ea Eb. unfold byArrivalDesc.
  rewrite (arrivalMillis_value a ta Ea), (arrivalMillis_value b tb Eb).
  unfold sub. cbn [neg add].
  destruct (Z.ltb_spec ta tb) as [H|H].
  - apply ParetoFacts.gtb_Fin_zero. unfold Qlt. cbn. lia.
  - destruct (gtb (Fin (inject_Z tb + - inject_Z ta)) (Fin 0)) eqn:G; [|reflexivity].
    apply ParetoFacts.gtb_Fin_zero in G. unfold Qlt in G. cbn in G. lia.
Qed.

End Engine.

End CalendarFacts.

Section Calendar.

Variable DateParse : jsstring -> Date.

(** X10: a date written by [formatDateToISO], in a year of four digits, is read
    back by [smartParseDate] as the midnight that starts its day, and that
    midnight is written as the same text. *)
Theorem format_parse_round_trip (t : Z) :
  1000 <= YearFromTime t <= 9999 ->
  smartParseDate DateParse (formatDateToISO (Some t)) = Some (Day t * msPerDay)
  /\ formatDateToISO (Some (Day t * msPerDay)) = formatDateToISO (Some t).
Proof.
  intros Hy. split; [now apply CalendarFacts.parse_format|].
  apply CalendarFacts.formatDateToISO_day.
  unfold Day, msPerDay. now rewrite Z.div_mul by lia.
Qed.

(** X11: the shift date of an instant is the calendar date of the instant seven
    hours earlier. *)
Theorem shift_date_seven_hours_earlier (t : Z) :
  inRange (t - msPerDay) = true -> inRange t = true ->
  getShiftDateString (Some t) = formatDateToISO (Some (t - 7 * msPerHour)).
Proof. apply CalendarFacts.shiftDate_format. Qed.

(** X12: with filter dates in years of four digits, the filtered set holds the
    records whose arrival parses to an instant whose shift day lies from the
    day of the start date to the day of the end date, and that pass the
    material test. *)
Theorem filtered_set_in_shift_days (rawData : list TruckData) (filters : FilterState)
  (s e : Z) (r : TruckData) :
  smartParseDate DateParse (startDate filters) = Some s ->
  smartParseDate DateParse (endDate filters) = Some e ->
  1000 <= YearFromTime s <= 9999 -> 1000 <= YearFromTime e <= 9999 ->
  In r (filteredData DateParse rawData filters)
  <-> In r rawData
      /\ (exists d, smartParseDate DateParse (arrivalTime r) = Some d
                    /\ Day s <= Views.shiftDay d <= Day e)
      /\ materialMatches (material filters) r = true.
Proof. apply CalendarFacts.filteredData_shift. Qed.

(** X13: the events of the monitor of a date in a year of four digits are the
    records whose arrival parses to an instant of that shift day. *)
Theorem monitor_holds_shift_day (rawData : list TruckData) (monitorDate : jsstring)
  (benchmarkTime : number) (base : Z) (r : TruckData) :
  smartParseDate DateParse monitorDate = Some base ->
  1000 <= YearFromTime base <= 9999 ->
  In r (List.map item
          (monitorItems (todayMonitor DateParse rawData monitorDate benchmarkTime)))
  <-> In r rawData
      /\ exists d, smartParseDate DateParse (arrivalTime r) = Some d
                   /\ Views.shiftDay d = Day base.
Proof.
  intros Eb Hb. rewrite (CalendarFacts.monitor_items _ _ _ _ base Eb).
  split.
  - intros H. apply (Permutation_in _ (SortFacts.sortBy_perm _ _)) in H.
    apply filter_In in H. destruct H as [Hin Hw].
    split; [assumption|]. now apply (CalendarFacts.monitor_window DateParse base r Hb).
  - intros [Hin Hd].
    apply (Permutation_in _ (Permutation_sym (SortFacts.sortBy_perm _ _))).
    apply filter_In. split; [assumption|].
    now apply (CalendarFacts.monitor_window DateParse base r Hb).
Qed.

(** X14: a record is an event of the monitor of its own shift date: the text
    that [getShiftDateString] gives for its arrival, taken as the monitored
    date, selects it. *)
Theorem record_in_monitor_of_its_shift_date (rawData : list TruckData)
  (benchmarkTime : number) (r : TruckData) (d : Z) :
  In r rawData ->
  smartParseDate DateParse (arrivalTime r) = Some d ->
  1000 <= YearFromTime (d - 7 * msPerHour) <= 9999 ->
  In r (List.map item
          (monitorItems
             (todayMonitor DateParse rawData (getShiftDateString (Some d))
                           benchmarkTime))).
Proof.
  intros Hin Ed Hy.
  pose proof (CalendarFacts.year_days _ Hy) as Hdays.
  destruct (CalendarFacts.time_of_day d) as [Hd Htw].
  assert (Hday : Day (d - 7 * msPerHour) = Day d \/ Day (d - 7 * msPerHour) = Day d - 1).
  { unfold Day, msPerDay, msPerHour. Z.div_mod_to_equations. lia. }
  assert (R1 : inRange d = true).
  { rewrite Hd. apply CalendarFacts.day_inRange; lia. }
  assert (R2 : inRange (d - msPerDay) = true).
  { replace (d - msPerDay) with ((Day d - 1) * msPerDay + TimeWithinDay d) by lia.
    apply CalendarFacts.day_inRange; lia. }
  rewrite (CalendarFacts.shiftDate_format d R2 R1).
  pose proof (CalendarFacts.parse_format DateParse _ Hy) as Eb.
  assert (Db : Day (Day (d - 7 * msPerHour) * msPerDay) = Day (d - 7 * msPerHour)).
  { unfold Day at 1. unfold msPerDay at 2. apply Z.div_mul. unfold msPerDay. lia. }
  assert (Hb : 1000 <= YearFromTime (Day (d - 7 * msPerHour) * msPerDay) <= 9999).
  { unfold YearFromTime in *. now rewrite Db. }
  rewrite (CalendarFacts.monitor_items _ _ _ _ _ Eb).
  apply (Permutation_in _ (Permutation_sym (SortFacts.sortBy_perm _ _))).
  apply filter_In. split; [assumption|].
  apply (CalendarFacts.monitor_window DateParse _ r Hb).
  exists d. split; [assumption|]. now rewrite Db.
Qed.

(** X15: the events of the monitor come latest arrival first, and events that
    arrive at the same instant keep the order of the records. *)
Theorem monitor_latest_first (rawData : list TruckData) (monitorDate : jsstring)
  (benchmarkTime : number) :
  let events :=
    List.map item
      (monitorItems (todayMonitor DateParse rawData monitorDate benchmarkTime)) in
  StronglySorted
    (fun a b => exists ta tb,
       smartParseDate DateParse (arrivalTime a) = Some ta
       /\ smartParseDate DateParse (arrivalTime b) = Some tb /\ tb <= ta)
    events
  /\ forall t base,
       smartParseDate DateParse monitorDate = Some base ->
       List.filter (Views.arrivesAt DateParse t) events
       = List.filter (Views.arrivesAt DateParse t)
           (List.filter
              (inWindow DateParse (boundary base 0) (monitorEnd (boundary base 0)))
              rawData).
Proof.
  cbv zeta.
  destruct (smartParseDate DateParse monitorDate) as [base|] eqn:Eb.
  2:{ unfold todayMonitor. rewrite Eb. cbn [monitorItems List.map].
      split; [constructor|]. intros t base H. discriminate. }
  rewrite (CalendarFacts.monitor_items _ _ _ _ base Eb). split.
  - apply (SortFacts.sortBy_sorted (byArrivalDesc DateParse)
             (fun r => exists t, smartParseDate DateParse (arrivalTime r) = Some t)).
    + intros a b c (ta & tb & Ea & Eb' & H1) (tb' & tc & Eb'' & Ec & H2).
      exists ta, tc. repeat split; try assumption.
      rewrite Eb' in Eb''. injection Eb'' as <-. lia.
    + intros a b [ta Ea] [tb Eb'] G. exists ta, tb. repeat split; try assumption.
      rewrite (CalendarFacts.byArrivalDesc_later _ a b ta tb Ea Eb') in G.
      apply Z.ltb_ge in G. exact G.
    + intros a b [ta Ea] [tb Eb'] G. exists tb, ta. repeat split; try assumption.
      rewrite (CalendarFacts.byArrivalDesc_later _ a b ta tb Ea Eb') in G.
      apply Z.ltb_lt in G. lia.
    + apply Forall_forall. intros r Hr. apply filter_In in Hr.
      destruct Hr as [_ Hw]. unfold inWindow in Hw.
      destruct (smartParseDate DateParse (arrivalTime r)) as [d|]; [|discriminate].
      now exists d.
  - intros t base' [= <-]. apply SortFacts.sortBy_stable.
    intros a b Ha Hb. unfold Views.arrivesAt in Ha, Hb.
    destruct (smartParseDate DateParse (arrivalTime a)) as [ta|] eqn:Ea; [|discriminate].
    destruct (smartParseDate DateParse (arrivalTime b)) as [tb|] eqn:Eb'; [|discriminate].
    rewrite (CalendarFacts.byArrivalDesc_later _ a b ta tb Ea Eb').
    apply Z.eqb_eq in Ha, Hb. apply Z.ltb_ge. lia.
Qed.

(** X16: the first filter values select the thirty-one shift days that end with
    the day of [istNow]: a record is in the filtered set exactly when its
    arrival parses to an instant whose shift day is among them. *)
Theorem default_range_thirty_one_days (rawData : list TruckData) (t : Z)
  (r : TruckData) :
  1000 <= YearFromTime (t - 30 * msPerDay) <= 9999 ->
  1000 <= YearFromTime t <= 9999 ->
  In r (filteredData DateParse rawData (Views.initialFilters (Some t)))
  <-> In r rawData
      /\ exists d, smartParseDate DateParse (arrivalTime r) = Some d
                   /\ Day t - 30 <= Views.shiftDay d <= Day t.
Proof.
  intros Hago Hnow.
  destruct (CalendarFacts.time_of_day t) as [Ht Htw].
  pose proof (CalendarFacts.year_days _ Hnow) as Dnow.
  pose proof (CalendarFacts.year_days _ Hago) as Dago.
  assert (Dshift : Day (t - 30 * msPerDay) = Day t - 30).
  { replace (t - 30 * msPerDay) with (t + -30 * msPerDay) by lia.
    rewrite DateFacts.Day_shift. lia. }
  assert (R1 : inRange t = true).
  { rewrite Ht. apply CalendarFacts.day_inRange; lia. }
  assert (R2 : inRange (t - 30 * msPerDay) = true).
  { replace (t - 30 * msPerDay) with ((Day t - 30) * msPerDay + TimeWithinDay t) by lia.
    apply CalendarFacts.day_inRange; lia. }
  assert (Dmid : forall x, Day (Day x * msPerDay) = Day x).
  { intros x. unfold Day at 1. unfold msPerDay at 2. apply Z.div_mul.
    unfold msPerDay. lia. }
  assert (Eago : Views.initialFilters (Some t)
                 = {| startDate := formatDateToISO (Some (t - 30 * msPerDay));
                      endDate := formatDateToISO (Some t);
                      material := [] |}).
  { unfold Views.initialFilters. rewrite (DateFacts.TimeClip_inRange t R1).
    replace (DateFromTime t - 30) with (DateFromTime t + -30) by lia.
    rewrite (DateFacts.setDate_shift t (-30)).
    replace (t + -30 * msPerDay) with (t - 30 * msPerDay) by lia.
    now rewrite (DateFacts.TimeClip_inRange _ R2). }
  rewrite Eago.
  rewrite (CalendarFacts.filteredData_shift DateParse rawData _
             (Day (t - 30 * msPerDay) * msPerDay) (Day t * msPerDay) r).
  - cbn [material]. rewrite !Dmid, Dshift.
    unfold materialMatches. cbn [nonEmpty negb orb]. tauto.
  - cbn [startDate]. now apply CalendarFacts.parse_format.
  - cbn [endDate]. now apply CalendarFacts.parse_format.
  - unfold YearFromTime in *. now rewrite Dmid.
  - unfold YearFromTime in *. now rewrite Dmid.
Qed.

End Calendar.

(** The 5th of March 2024 at 14:30. *)
Lemma format_parse_round_trip_witness :
  smartParseDate noDateParse (formatDateToISO (Some 1709649000000))
  = Some (Day 1709649000000 * msPerDay).
Proof.
  refine (proj1 (format_parse_round_trip noDateParse 1709649000000 _)).
  split; apply Z.leb_le; vm_compute; reflexivity.
Defined.

(** The 6th of March 2024 at 06:59 belongs to the shift date 2024-03-05. *)
Lemma shift_date_seven_hours_earlier_witness :
  getShiftDateString (Some 1709708340000)
  = formatDateToISO (Some (1709708340000 - 7 * msPerHour)).
Proof.
  apply (shift_date_seven_hours_earlier 1709708340000); vm_compute; reflexivity.
Defined.

(** A record of the 6th of March at 06:59 and the range from the 1st to the
    5th of March 2024. *)
Lemma filtered_set_in_shift_days_witness :
  In (Views.event (js "Sand") (js "2024-03-06 06:59") 45 1200)
     (filteredData noDateParse
        [Views.event (js "Sand") (js "2024-03-06 06:59") 45 1200]
        {| startDate := js "2024-03-01"; endDate := js "2024-03-05";
           material := js "san" |})
  <-> In (Views.event (js "Sand") (js "2024-03-06 06:59") 45 1200)
         [Views.event (js "Sand") (js "2024-03-06 06:59") 45 1200]
      /\ (exists d,
            smartParseDate noDateParse
              (arrivalTime (Views.event (js "Sand") (js "2024-03-06 06:59") 45 1200))
            = Some d
            /\ Day 1709251200000 <= Views.shiftDay d <= Day 1709596800000)
      /\ materialMatches
           (material {| startDate := js "2024-03-01"; endDate := js "2024-03-05";
                        material := js "san" |})
           (Views.event (js "Sand") (js "2024-03-06 06:59") 45 1200) = true.
Proof.
  apply (filtered_set_in_shift_days noDateParse
           [Views.event (js "Sand") (js "2024-03-06 06:59") 45 1200]
           {| startDate := js "2024-03-01"; endDate := js "2024-03-05";
              material := js "san" |}
           1709251200000 1709596800000
           (Views.event (js "Sand") (js "2024-03-06 06:59") 45 1200)).
  - vm_compute. reflexivity.
  - vm_compute. reflexivity.
  - split; apply Z.leb_le; vm_compute; reflexivity.
  - split; apply Z.leb_le; vm_compute; reflexivity.
Defined.

(** The monitor of the 5th of March 2024 and a record of the morning after. *)
Lemma monitor_holds_shift_day_witness :
  In (Views.event (js "Sand") (js "2024-03-06 06:59") 45 1200)
     (List.map item
        (monitorItems
           (todayMonitor noDateParse
              [Views.event (js "Sand") (js "2024-03-06 06:59") 45 1200]
              (js "2024-03-05") (Fin 60))))
  <-> In (Views.event (js "Sand") (js "2024-03-06 06:59") 45 1200)
         [Views.event (js "Sand") (js "2024-03-06 06:59") 45 1200]
      /\ exists d,
           smartParseDate noDateParse
             (arrivalTime (Views.event (js "Sand") (js "2024-03-06 06:59") 45 1200))
           = Some d
           /\ Views.shiftDay d = Day 1709596800000.
Proof.
  apply (monitor_holds_shift_day noDateParse
           [Views.event (js "Sand") (js "2024-03-06 06:59") 45 1200]
           (js "2024-03-05") (Fin 60) 1709596800000
           (Views.event (js "Sand") (js "2024-03-06 06:59") 45 1200)).
  - vm_compute. reflexivity.
  - split; apply Z.leb_le; vm_compute; reflexivity.
Defined.

Lemma record_in_monitor_of_its_shift_date_witness :
  In (Views.event (js "Sand") (js "2024-03-06 06:59") 45 1200)
     (List.map item
        (monitorItems
           (todayMonitor noDateParse
              [Views.event (js "Gravel") (js "2024-03-04 12:00") 30 900;
               Views.event (js "Sand") (js "2024-03-06 06:59") 45 1200]
              (getShiftDateString (Some 1709708340000)) (Fin 60)))).
Proof.
  apply (record_in_monitor_of_its_shift_date noDateParse
           [Views.event (js "Gravel") (js "2024-03-04 12:00") 30 900;
            Views.event (js "Sand") (js "2024-03-06 06:59") 45 1200]
           (Fin 60)
           (Views.event (js "Sand") (js "2024-03-06 06:59") 45 1200)
           1709708340000).
  - right. left. reflexivity.
  - vm_compute. reflexivity.
  - split; apply Z.leb_le; vm_compute; reflexivity.
Defined.

(** The 5th of March 2024 at 14:30 as the present, and a record of the 4th
    of February. *)
Lemma default_range_thirty_one_days_witness :
  In (Views.event (js "Sand") (js "2024-02-04 09:00") 45 1200)
     (filteredData noDateParse
        [Views.event (js "Sand") (js "2024-02-04 09:00") 45 1200]
        (Views.initialFilters (Some 1709649000000)))
  <-> In (Views.event (js "Sand") (js "2024-02-04 09:00") 45 1200)
         [Views.event (js "Sand") (js "2024-02-04 09:00") 45 1200]
      /\ exists d,
           smartParseDate noDateParse
             (arrivalTime (Views.event (js "Sand") (js "2024-02-04 09:00") 45 1200))
           = Some d
           /\ Day 1709649000000 - 30 <= Views.shiftDay d <= Day 1709649000000.
Proof.
  apply (default_range_thirty_one_days noDateParse
           [Views.event (js "Sand") (js "2024-02-04 09:00") 45 1200]
           1709649000000
           (Views.event (js "Sand") (js "2024-02-04 09:00") 45 1200)).
  - split; apply Z.leb_le; vm_compute; reflexivity.
  - split; apply Z.leb_le; vm_compute; reflexivity.
Defined.

(* ================================================================== *)
(** ** The timeline and the summary of the range *)
(* ================================================================== *)

Module TimelineFacts.

Import Views.

Section Engine.

Variable DateParse : jsstring -> Date.

Lemma accAdd_dates k w t M :
  List.map date (accAdd k w t M) = setAdd k (List.map date M).
Proof.
  unfold setAdd. induction M as [|v M IH]; [reflexivity|].
  cbn [accAdd List.map existsb].
  destruct (jsstring_eq_dec (date v) k) as [E|E].
  - rewrite (proj2 (BuilderFacts.jsstring_eqb_eq (date v) k) E).
    rewrite (proj2 (BuilderFacts.jsstring_eqb_eq k (date v)) (eq_sym E)).
    reflexivity.
  - assert (E1 : jsstring_eqb (date v) k = false).
    { destruct (jsstring_eqb (date v) k) eqn:B; [|reflexivity].
      apply BuilderFacts.jsstring_eqb_eq in B. contradiction. }
    assert (E2 : jsstring_eqb k (date v) = false).
    { destruct (jsstring_eqb k (date v)) eqn:B; [|reflexivity].
      apply BuilderFacts.jsstring_eqb_eq in B. congruence. }
    rewrite E1, E2. cbn [orb List.map]. rewrite IH.
    destruct (existsb (jsstring_eqb k) (List.map date M)); reflexivity.
Qed.

Lemma shiftKey_accRecord M r :
  accRecord DateParse M r
  = match shiftKey DateParse r with
    | Some k => accAdd k (div (weight r) (Fin 1000)) (App.totalTime r) M
    | None => M
    end.
Proof.
  unfold accRecord, shiftKey.
  now destruct (smartParseDate DateParse (arrivalTime r)).
Qed.

(** The keys of the map: no key twice, and the keys are the shift dates of
    the records that parse. *)
Lemma fold_dates l : forall M,
  NoDup (List.map date M) ->
  NoDup (List.map date (fold_left (accRecord DateParse) l M))
  /\ forall k, In k (List.map date (fold_left (accRecord DateParse) l M))
               <-> In k (List.map date M)
                   \/ exists r, In r l /\ shiftKey DateParse r = Some k.
Proof.
  induction l as [|r l IH]; intros M HM; cbn [fold_left].
  - split; [assumption|]. intros k. split; [auto|].
    intros [H|(r & [] & _)]. assumption.
  - assert (Hstep : NoDup (List.map date (accRecord DateParse M r))
              /\ forall k, In k (List.map date (accRecord DateParse M r))
                           <-> In k (List.map date M) \/ shiftKey DateParse r = Some k).
    { rewrite shiftKey_accRecord. destruct (shiftKey DateParse r) as [k0|].
      - rewrite accAdd_dates.
        destruct (ListFacts.setAdd_spec k0 (List.map date M) HM) as [H1 H2].
        split; [assumption|]. intros k. rewrite H2. split.
        + intros [->|H]; auto.
        + intros [H|[= ->]]; auto.
      - split; [assumption|]. intros k. split; [auto|].
        intros [H|H]; [assumption|discriminate]. }
    destruct Hstep as [H1 H2]. destruct (IH _ H1) as [H3 H4].
    split; [assumption|]. intros k. rewrite H4, H2. cbn [In]. split.
    + intros [[H|H]|(r' & Hr' & E)]; auto.
      * right. exists r. auto.
      * right. exists r'. auto.
    + intros [H|(r' & [->|Hr'] & E)]; auto.
      right. exists r'. auto.
Qed.

Lemma eqb_neq a b : a <> b -> jsstring_eqb a b = false.
Proof.
  intros H. destruct (jsstring_eqb a b) eqn:B; [|reflexivity].
  apply BuilderFacts.jsstring_eqb_eq in B. contradiction.
Qed.

Lemma eqb_same a : jsstring_eqb a a = true.
Proof. now apply BuilderFacts.jsstring_eqb_eq. Qed.

Lemma lookupDay_accAdd k' k w t M :
  lookupDay k' (accAdd k w t M)
  = if jsstring_eqb k k'
    then Some match lookupDay k M with
              | Some v => {| date := date v; tons := add (tons v) w;
                             counts := counts v + 1; time := add (time v) t |}
              | None => {| date := k; tons := add (Fin 0) w; counts := 0 + 1;
                           time := add (Fin 0) t |}
              end
    else lookupDay k' M.
Proof.
  unfold lookupDay. induction M as [|v M IH].
  - cbn [accAdd List.find date].
    destruct (jsstring_eqb k k'); reflexivity.
  - cbn [accAdd List.find].
    destruct (jsstring_eq_dec (date v) k) as [E|E].
    + rewrite (proj2 (BuilderFacts.jsstring_eqb_eq (date v) k) E).
      cbn [List.find date]. subst k.
      destruct (jsstring_eqb (date v) k'); reflexivity.
    + rewrite (eqb_neq _ _ E). cbn [List.find]. rewrite IH.
      destruct (jsstring_eq_dec k k') as [E'|E'].
      * subst k'. rewrite eqb_same, (eqb_neq _ _ E). reflexivity.
      * rewrite (eqb_neq _ _ E').
        destruct (jsstring_eqb (date v) k'); reflexivity.
Qed.

Lemma onShiftDate_spec k r :
  onShiftDate DateParse k r = true <-> shiftKey DateParse r = Some k.
Proof.
  unfold onShiftDate. destruct (shiftKey DateParse r) as [k'|].
  - rewrite BuilderFacts.jsstring_eqb_eq. split; [now intros ->|now intros [= ->]].
  - split; discriminate.
Qed.

(** The count of a day is the number of the records of that shift date. *)
Lemma fold_count k l : forall M,
  countAt k (fold_left (accRecord DateParse) l M)
  = countAt k M + Z.of_nat (List.length (List.filter (onShiftDate DateParse k) l)).
Proof.
  induction l as [|r l IH]; intros M; cbn [fold_left List.filter List.length].
  - cbn. lia.
  - rewrite IH. rewrite shiftKey_accRecord. unfold onShiftDate.
    destruct (shiftKey DateParse r) as [k0|]; [|lia].
    unfold countAt at 1. rewrite lookupDay_accAdd.
    destruct (jsstring_eqb k0 k) eqn:B.
    + apply BuilderFacts.jsstring_eqb_eq in B. subst k0.
      cbn [List.length]. unfold countAt.
      destruct (lookupDay k M); cbn [counts]; lia.
    + fold (countAt k M). lia.
Qed.

Lemma lookupDay_In v M :
  NoDup (List.map date M) -> In v M -> lookupDay (date v) M = Some v.
Proof.
  unfold lookupDay. induction M as [|u M IH]; intros Hnd Hin; [destruct Hin|].
  cbn [List.map] in Hnd. inversion Hnd as [|? ? Hu Hnd']; subst.
  cbn [List.find]. destruct Hin as [->|Hin].
  - now rewrite eqb_same.
  - rewrite eqb_neq; [now apply IH|].
    intros E. apply Hu. rewrite E. now apply in_map.
Qed.

Lemma buildMap_counts l v0 :
  In v0 (buildMap DateParse l) ->
  counts v0 = Z.of_nat (List.length (List.filter (onShiftDate DateParse (date v0)) l))
  /\ 1 <= counts v0.
Proof.
  intros Hv0.
  destruct (fold_dates l [] (NoDup_nil _)) as [Hnd Hkeys].
  fold (buildMap DateParse l) in Hnd, Hkeys.
  pose proof (fold_count (date v0) l []) as Hc.
  fold (buildMap DateParse l) in Hc. unfold countAt in Hc.
  rewrite (lookupDay_In v0 _ Hnd Hv0) in Hc. cbn [lookupDay List.find] in Hc.
  rewrite Z.add_0_l in Hc. split; [exact Hc|]. rewrite Hc.
  assert (Hk : In (date v0) (List.map date (buildMap DateParse l)))
    by now apply in_map.
  apply Hkeys in Hk. destruct Hk as [[]|(r & Hr & Er)].
  assert (Hin : In r (List.filter (onShiftDate DateParse (date v0)) l)).
  { apply filter_In. split; [assumption|]. now apply onShiftDate_spec. }
  destruct (List.filter (onShiftDate DateParse (date v0)) l); [destruct Hin|].
  cbn [List.length]. lia.
Qed.

(** *** The two sums of a day *)

Lemma incOf_finite sel r :
  isFinite (weight r) = true /\ isFinite (App.totalTime r) = true ->
  isFinite (incOf sel r) = true.
Proof.
  intros [Hw Ht]. destruct sel; cbn [incOf]; [|assumption].
  destruct (weight r); try discriminate. reflexivity.
Qed.

Lemma add_finite x y :
  isFinite x = true -> isFinite y = true ->
  exists q, add x y = Fin q /\ (q == valueOf x + valueOf y)%Q.
Proof.
  destruct x as [| |p], y as [| |q]; try discriminate. intros _ _.
  exists (p + q)%Q. split; reflexivity.
Qed.

Lemma accAdd_finite k w t M :
  isFinite w = true -> isFinite t = true ->
  Forall finiteDay M -> Forall finiteDay (accAdd k w t M).
Proof.
  intros Hw Ht HM. induction HM as [|v M Hv HM IH]; cbn [accAdd].
  - constructor; [|constructor]. split; cbn [tons time].
    + now destruct w.
    + now destruct t.
  - destruct (jsstring_eqb (date v) k).
    + constructor; [|assumption]. destruct Hv as [H1 H2].
      split; cbn [tons time].
      * destruct (add_finite (tons v) w H1 Hw) as (q & -> & _). reflexivity.
      * destruct (add_finite (time v) t H2 Ht) as (q & -> & _). reflexivity.
    + constructor; assumption.
Qed.

Lemma lookupDay_sound k M v : lookupDay k M = Some v -> In v M.
Proof. unfold lookupDay. intros H. now apply find_some in H. Qed.

Lemma valueAt_accAdd sel k' k r M :
  Forall finiteDay M ->
  isFinite (weight r) = true /\ isFinite (App.totalTime r) = true ->
  (valueAt sel k' (accAdd k (incOf true r) (incOf false r) M)
   == valueAt sel k' M
      + (if jsstring_eqb k k' then valueOf (incOf sel r) else 0))%Q.
Proof.
  intros HM Hr. unfold valueAt at 1. rewrite lookupDay_accAdd.
  destruct (jsstring_eqb k k') eqn:B.
  - apply BuilderFacts.jsstring_eqb_eq in B. subst k'. unfold valueAt.
    destruct (lookupDay k M) as [v|] eqn:L.
    + apply lookupDay_sound in L. rewrite Forall_forall in HM.
      destruct (HM v L) as [H1 H2].
      destruct sel; cbn [fieldOf tons time].
      * destruct (add_finite (tons v) (incOf true r) H1 (incOf_finite true r Hr))
          as (q & -> & Hq). exact Hq.
      * destruct (add_finite (time v) (incOf false r) H2 (incOf_finite false r Hr))
          as (q & -> & Hq). exact Hq.
    + destruct sel; cbn [fieldOf tons time].
      * destruct (add_finite (Fin 0) (incOf true r) eq_refl (incOf_finite true r Hr))
          as (q & -> & Hq). exact Hq.
      * destruct (add_finite (Fin 0) (incOf false r) eq_refl (incOf_finite false r Hr))
          as (q & -> & Hq). exact Hq.
  - fold (valueAt sel k' M). now rewrite Qplus_0_r.
Qed.

Lemma sumOf_cons {A : Type} (f : A -> number) r l :
  sumOf f (r :: l) = (valueOf (f r) + sumOf f l)%Q.
Proof. reflexivity. Qed.

(** The sums of a day are the sums over the records of that shift date. *)
Lemma fold_value sel k l : forall M,
  Forall finiteDay M -> finiteRecords l ->
  Forall finiteDay (fold_left (accRecord DateParse) l M)
  /\ (valueAt sel k (fold_left (accRecord DateParse) l M)
      == valueAt sel k M
         + sumOf (incOf sel) (List.filter (onShiftDate DateParse k) l))%Q.
Proof.
  induction l as [|r l IH]; intros M HM Hl; cbn [fold_left List.filter].
  - split; [assumption|]. cbn [sumOf fold_right]. now rewrite Qplus_0_r.
  - inversion Hl as [|? ? Hr Hl']; subst.
    rewrite shiftKey_accRecord.
    change (onShiftDate DateParse k r)
      with (match shiftKey DateParse r with
            | Some k' => jsstring_eqb k' k
            | None => false
            end).
    destruct (shiftKey DateParse r) as [k0|].
    + destruct (IH (accAdd k0 (div (weight r) (Fin 1000)) (App.totalTime r) M))
        as [H1 H2]; [|assumption|].
      { apply accAdd_finite; [apply (incOf_finite true r Hr)|apply Hr|assumption]. }
      split; [assumption|]. rewrite H2.
      rewrite (valueAt_accAdd sel k k0 r M HM Hr).
      destruct (jsstring_eqb k0 k); rewrite ?sumOf_cons; ring.
    + now apply IH.
Qed.

(** *** Sums over the whole map *)

Lemma fold_count_shift {A : Type} (f : A -> Z) l : forall a c,
  fold_left (fun a b => a + f b) l (a + c) = fold_left (fun a b => a + f b) l a + c.
Proof.
  induction l as [|x l IH]; intros a c; cbn [fold_left]; [reflexivity|].
  replace (a + c + f x) with (a + f x + c) by lia. apply IH.
Qed.

Lemma fold_count_perm {A : Type} (f : A -> Z) l l' :
  Permutation l l' ->
  forall a, fold_left (fun a b => a + f b) l a = fold_left (fun a b => a + f b) l' a.
Proof.
  induction 1 as [|x l l' _ IH|x y l|l l' l'' _ IH1 _ IH2]; intros a; cbn [fold_left].
  - reflexivity.
  - apply IH.
  - f_equal. lia.
  - now rewrite IH1.
Qed.

Lemma accAdd_total k w t M : forall a,
  fold_left (fun a v => a + counts v) (accAdd k w t M) a
  = fold_left (fun a v => a + counts v) M a + 1.
Proof.
  induction M as [|v M IH]; intros a; cbn [accAdd fold_left].
  - cbn [counts]. lia.
  - destruct (jsstring_eqb (date v) k); cbn [fold_left counts].
    + replace (a + (counts v + 1)) with (a + counts v + 1) by lia.
      apply fold_count_shift.
    + apply IH.
Qed.

Lemma parses_shiftKey r :
  parses DateParse r = match shiftKey DateParse r with Some _ => true | None => false end.
Proof.
  unfold parses, shiftKey. now destruct (smartParseDate DateParse (arrivalTime r)).
Qed.

(** The counts of the days add up to the number of records that parse. *)
Lemma fold_total l : forall M,
  fold_left (fun a v => a + counts v) (fold_left (accRecord DateParse) l M) 0
  = fold_left (fun a v => a + counts v) M 0
    + Z.of_nat (List.length (List.filter (parses DateParse) l)).
Proof.
  induction l as [|r l IH]; intros M; cbn [fold_left List.filter].
  - cbn [List.length]. lia.
  - rewrite IH, shiftKey_accRecord, parses_shiftKey.
    destruct (shiftKey DateParse r) as [k0|]; [|reflexivity].
    rewrite accAdd_total. cbn [List.length]. lia.
Qed.

Lemma rollup_counts M : forall a,
  fold_left (fun a b => a + counts (day b)) (List.map rollup M) a
  = fold_left (fun a v => a + counts v) M a.
Proof.
  induction M as [|v M IH]; intros a; cbn [List.map fold_left]; [reflexivity|].
  apply IH.
Qed.

Lemma sumOf_perm {A : Type} (f : A -> number) l l' :
  Permutation l l' -> (sumOf f l == sumOf f l')%Q.
Proof.
  induction 1 as [|x l l' _ IH|x y l|l l' l'' _ IH1 _ IH2].
  - reflexivity.
  - rewrite !sumOf_cons. now rewrite IH.
  - rewrite !sumOf_cons. ring.
  - now rewrite IH1.
Qed.

Lemma sumOf_map {A B : Type} (f : B -> number) (g : A -> B) l :
  sumOf f (List.map g l) = sumOf (fun x => f (g x)) l.
Proof.
  induction l as [|x l IH]; [reflexivity|].
  cbn [List.map]. rewrite !sumOf_cons. now rewrite IH.
Qed.

Lemma fold_add_value {A : Type} (g : A -> number) l :
  Forall (fun b => isFinite (g b) = true) l ->
  forall q0, exists q,
    fold_left (fun a b => add a (g b)) l (Fin q0) = Fin q
    /\ (q == q0 + sumOf g l)%Q.
Proof.
  induction 1 as [|x l Hx Hl IH]; intros q0; cbn [fold_left].
  - exists q0. split; [reflexivity|]. cbn [sumOf fold_right]. ring.
  - destruct (g x) as [| |p] eqn:E; try discriminate. cbn [add].
    destruct (IH (q0 + p)%Q) as (q & H1 & H2). exists q. split; [assumption|].
    rewrite H2, sumOf_cons, E. cbn [valueOf]. ring.
Qed.

Lemma accAdd_sum sel k r M :
  Forall finiteDay M ->
  isFinite (weight r) = true /\ isFinite (App.totalTime r) = true ->
  (sumOf (fieldOf sel) (accAdd k (incOf true r) (incOf false r) M)
   == sumOf (fieldOf sel) M + valueOf (incOf sel r))%Q.
Proof.
  intros HM Hr. induction HM as [|v M Hv HM IH]; cbn [accAdd].
  - rewrite sumOf_cons. cbn [sumOf fold_right].
    destruct sel; cbn [fieldOf tons time].
    + destruct (add_finite (Fin 0) (incOf true r) eq_refl (incOf_finite true r Hr))
        as (q & -> & Hq). cbn [valueOf] in *. rewrite Hq. ring.
    + destruct (add_finite (Fin 0) (incOf false r) eq_refl (incOf_finite false r Hr))
        as (q & -> & Hq). cbn [valueOf] in *. rewrite Hq. ring.
  - destruct (jsstring_eqb (date v) k).
    + rewrite !sumOf_cons. destruct Hv as [H1 H2].
      destruct sel; cbn [fieldOf tons time].
      * destruct (add_finite (tons v) (incOf true r) H1 (incOf_finite true r Hr))
          as (q & -> & Hq). cbn [valueOf] in *. rewrite Hq. ring.
      * destruct (add_finite (time v) (incOf false r) H2 (incOf_finite false r Hr))
          as (q & -> & Hq). cbn [valueOf] in *. rewrite Hq. ring.
    + rewrite !sumOf_cons, IH. ring.
Qed.

(** A sum over the days is the sum over the records that parse. *)
Lemma fold_sum sel l : forall M,
  Forall finiteDay M -> finiteRecords l ->
  (sumOf (fieldOf sel) (fold_left (accRecord DateParse) l M)
   == sumOf (fieldOf sel) M + sumOf (incOf sel) (List.filter (parses DateParse) l))%Q.
Proof.
  induction l as [|r l IH]; intros M HM Hl; cbn [fold_left List.filter].
  - cbn [sumOf fold_right]. ring.
  - inversion Hl as [|? ? Hr Hl']; subst.
    rewrite shiftKey_accRecord, parses_shiftKey.
    destruct (shiftKey DateParse r) as [k0|].
    + rewrite IH; [|apply accAdd_finite;
                     [apply (incOf_finite true r Hr)|apply Hr|assumption]|assumption].
      rewrite (accAdd_sum sel k0 r M HM Hr), sumOf_cons. ring.
    + now apply IH.
Qed.

Lemma round_Qeq p q : (p == q)%Q -> round (Fin p) = round (Fin q).
Proof.
  intros H. cbn [round]. do 2 f_equal. apply Qfloor_comp. now rewrite H.
Qed.

Lemma div_count q n :
  0 < n -> div (Fin q) (ofZ n) = Fin (q / inject_Z n).
Proof.
  intros Hn. unfold ofZ. cbn [div].
  destruct (Qeq_bool (inject_Z n) 0) eqn:E; [|reflexivity].
  apply Qeq_bool_iff in E. unfold Qeq in E. cbn in E. lia.
Qed.

(** The timeline is the map, rolled up and reordered. *)
Lemma timeline_perm (localeCompare : jsstring -> jsstring -> number) l :
  Permutation (timelineData DateParse localeCompare l)
              (List.map rollup (buildMap DateParse l)).
Proof. unfold timelineData. apply SortFacts.sortBy_perm. Qed.

Lemma dates_rollup M : dates (List.map rollup M) = List.map date M.
Proof.
  unfold dates. rewrite map_map. apply map_ext. reflexivity.
Qed.

End Engine.

End TimelineFacts.

Section Timeline.

Variable DateParse : jsstring -> Date.
Variable localeCompare : jsstring -> jsstring -> number.

(** X17: the timeline has one element for each shift date on which a record
    that parses arrives, and no date twice; the count of an element is the
    number of the records of its shift date, at least one, and its average
    time is the rounded quotient of its time by its count. *)
Theorem timeline_days (filtered : list TruckData) :
  let timeline := Views.timelineData DateParse localeCompare filtered in
  NoDup (Views.dates timeline)
  /\ (forall k, In k (Views.dates timeline)
                <-> exists r, In r filtered /\ Views.shiftKey DateParse r = Some k)
  /\ forall v, In v timeline ->
       Views.counts (Views.day v)
       = Z.of_nat (List.length
                     (List.filter
                        (Views.onShiftDate DateParse (Views.date (Views.day v)))
                        filtered))
       /\ 1 <= Views.counts (Views.day v)
       /\ Views.avgTime v
          = round (div (Views.time (Views.day v))
                       (ofZ (Views.counts (Views.day v)))).
Proof.
  cbv zeta.
  pose proof (TimelineFacts.timeline_perm DateParse localeCompare filtered) as Hp.
  destruct (TimelineFacts.fold_dates DateParse filtered [] (NoDup_nil _)) as [Hnd Hkeys].
  fold (Views.buildMap DateParse filtered) in Hnd, Hkeys.
  assert (Hd : Permutation
                 (Views.dates (Views.timelineData DateParse localeCompare filtered))
                 (List.map Views.date (Views.buildMap DateParse filtered))).
  { rewrite <- TimelineFacts.dates_rollup. unfold Views.dates.
    now apply Permutation_map. }
  split; [|split].
  - eapply Permutation_NoDup; [symmetry; exact Hd|assumption].
  - intros k. split.
    + intros H. apply (Permutation_in _ Hd) in H. apply Hkeys in H.
      destruct H as [[]|H]. exact H.
    + intros H. apply (Permutation_in _ (Permutation_sym Hd)).
      apply Hkeys. now right.
  - intros v Hv. apply (Permutation_in _ Hp) in Hv.
    apply in_map_iff in Hv. destruct Hv as (v0 & <- & Hv0).
    cbn [Views.rollup Views.day Views.counts Views.date Views.time Views.avgTime].
    destruct (TimelineFacts.buildMap_counts DateParse filtered v0 Hv0) as [H1 H2].
    repeat split; assumption.
Qed.


(** X19: when [localeCompare] orders the dates of the timeline as their code
    units do, the timeline is in strictly ascending order of date. *)
Theorem timeline_ascending (filtered : list TruckData) :
  (forall a b,
     In a (Views.dates (Views.timelineData DateParse localeCompare filtered)) ->
     In b (Views.dates (Views.timelineData DateParse localeCompare filtered)) ->
     gtb (localeCompare a b) (Fin 0) = Views.strLtb b a) ->
  StronglySorted (fun a b => Views.strLtb a b = true)
    (Views.dates (Views.timelineData DateParse localeCompare filtered)).
Proof.
  intros Hloc.
  pose proof (TimelineFacts.timeline_perm DateParse localeCompare filtered) as Hp.
  destruct (TimelineFacts.fold_dates DateParse filtered [] (NoDup_nil _)) as [Hnd _].
  fold (Views.buildMap DateParse filtered) in Hnd.
  assert (Hd : Permutation
                 (Views.dates (Views.timelineData DateParse localeCompare filtered))
                 (List.map Views.date (Views.buildMap DateParse filtered))).
  { rewrite <- TimelineFacts.dates_rollup. unfold Views.dates.
    now apply Permutation_map. }
  apply ListFacts.sorted_strict.
  { eapply Permutation_NoDup; [symmetry; exact Hd|assumption]. }
  set (keys := Views.dates (Views.timelineData DateParse localeCompare filtered)) in *.
  unfold Views.dates.
  apply (SortFacts.StronglySorted_map
           (fun a b => Views.strLtb (Views.date (Views.day b)) (Views.date (Views.day a))
                       = false)).
  { intros a b _ _ H. exact H. }
  unfold Views.timelineData.
  apply (SortFacts.sortBy_sorted _
           (fun v => In (Views.date (Views.day v)) keys)).
  - intros a b c. apply ListFacts.notAfter_trans.
  - intros a b Ha Hb G. rewrite (Hloc _ _ Ha Hb) in G. exact G.
  - intros a b Ha Hb G. rewrite (Hloc _ _ Ha Hb) in G.
    now apply ListFacts.strLtb_asym.
  - apply Forall_forall. intros v Hv. subst keys.
    apply (Permutation_in _ (Permutation_sym Hd)).
    rewrite <- TimelineFacts.dates_rollup. unfold Views.dates.
    apply (in_map (fun v => Views.date (Views.day v))). exact Hv.
Qed.

(** X20: the summary counts the records that parse; its number of days is the
    number of shift dates, 1 when there is none, and never above the count
    when there is a record; without a record that parses the mean duration
    is 0. *)
Theorem summary_counts (filtered : list TruckData) :
  let timeline := Views.timelineData DateParse localeCompare filtered in
  let summary := Views.rangeSummary timeline in
  Views.totalCounts summary
  = Z.of_nat (List.length (List.filter (Views.parses DateParse) filtered))
  /\ Views.days summary = Z.max 1 (Z.of_nat (List.length timeline))
  /\ Z.of_nat (List.length timeline) <= Views.totalCounts summary
  /\ (Views.totalCounts summary = 0 -> Views.avgEff summary = Fin 0).
Proof.
  cbv zeta.
  pose proof (TimelineFacts.timeline_perm DateParse localeCompare filtered) as Hp.
  set (timeline := Views.timelineData DateParse localeCompare filtered) in *.
  assert (Hc : Views.totalCounts (Views.rangeSummary timeline)
               = Z.of_nat (List.length (List.filter (Views.parses DateParse) filtered))).
  { cbn [Views.rangeSummary Views.totalCounts].
    rewrite (TimelineFacts.fold_count_perm _ _ _ Hp).
    rewrite TimelineFacts.rollup_counts. unfold Views.buildMap.
    rewrite TimelineFacts.fold_total. cbn [fold_left]. lia. }
  split; [exact Hc|]. split; [|split].
  - cbn [Views.rangeSummary Views.days].
    destruct (Z.eqb_spec (Z.of_nat (List.length timeline)) 0); lia.
  - assert (Hge : forall tl a,
              (forall v, In v tl -> 1 <= Views.counts (Views.day v)) ->
              a + Z.of_nat (List.length tl)
              <= fold_left (fun a b => a + Views.counts (Views.day b)) tl a).
    { induction tl as [|x tl IH]; intros a Hall; cbn [fold_left List.length].
      - lia.
      - pose proof (Hall x (or_introl eq_refl)).
        specialize (IH (a + Views.counts (Views.day x))
                       (fun v Hv => Hall v (or_intror Hv))). lia. }
    cbn [Views.rangeSummary Views.totalCounts].
    specialize (Hge timeline 0). rewrite Z.add_0_l in Hge. apply Hge.
    intros v Hv.
    apply (Permutation_in _ Hp) in Hv.
    apply in_map_iff in Hv. destruct Hv as (v0 & <- & Hv0).
    cbn [Views.rollup Views.day Views.counts].
    now destruct (TimelineFacts.buildMap_counts DateParse filtered v0 Hv0).
  - intros Hz. cbn [Views.rangeSummary Views.totalCounts Views.avgEff] in *.
    now rewrite Hz.
Qed.

(** X21: every record of the filtered set parses, so that the summary of the
    filtered set counts all of its records. *)
Theorem summary_counts_filtered_set (rawData : list TruckData) (filters : FilterState) :
  Views.totalCounts
    (Views.rangeSummary
       (Views.timelineData DateParse localeCompare
          (filteredData DateParse rawData filters)))
  = Z.of_nat (List.length (filteredData DateParse rawData filters)).
Proof.
  pose proof (TimelineFacts.timeline_perm DateParse localeCompare
                (filteredData DateParse rawData filters)) as Hp.
  cbn [Views.rangeSummary Views.totalCounts].
  rewrite (TimelineFacts.fold_count_perm _ _ _ Hp).
  rewrite TimelineFacts.rollup_counts. unfold Views.buildMap.
  rewrite TimelineFacts.fold_total. cbn [fold_left]. rewrite Z.add_0_l.
  do 2 f_equal.
  assert (Hall : forall r, In r (filteredData DateParse rawData filters) ->
                           Views.parses DateParse r = true).
  { intros r Hr. unfold filteredData in Hr.
    destruct (smartParseDate DateParse (startDate filters)); [|destruct Hr].
    destruct (smartParseDate DateParse (endDate filters)); [|destruct Hr].
    apply filter_In in Hr. destruct Hr as [_ Hr].
    apply andb_true_iff in Hr. destruct Hr as [Hw _].
    unfold inWindow in Hw. unfold Views.parses.
    now destruct (smartParseDate DateParse (arrivalTime r)). }
  clear Hp.
  induction (filteredData DateParse rawData filters) as [|r l IH]; [reflexivity|].
  cbn [List.filter]. rewrite (Hall r (or_introl eq_refl)).
  f_equal. apply IH. intros r' Hr'. apply Hall. now right.
Qed.


End Timeline.


(** The order of the code units in the place of [localeCompare]. *)
Lemma timeline_ascending_witness :
  StronglySorted (fun a b => Views.strLtb a b = true)
    (Views.dates
       (Views.timelineData noDateParse Views.defaultCompare
          [Views.event (js "Sand") (js "2024-03-05 08:00") 120 1200;
           Views.event (js "Gravel") (js "2024-03-04 12:00") 30 900;
           Views.event (js "Sand") (js "2024-03-06 06:59") 45 1250])).
Proof.
  apply (timeline_ascending noDateParse Views.defaultCompare
           [Views.event (js "Sand") (js "2024-03-05 08:00") 120 1200;
            Views.event (js "Gravel") (js "2024-03-04 12:00") 30 900;
            Views.event (js "Sand") (js "2024-03-06 06:59") 45 1250]).
  intros a b _ _. apply ListFacts.defaultCompare_gtb.
Defined.


(* ================================================================== *)
(** ** The arrivals by hour *)
(* ================================================================== *)

Module FlowFacts.

Import Views.

Lemma bucketsOf_ext c c' a n :
  (forall i, (a <= i < a + n)%nat -> c i = c' i) ->
  bucketsOf c a n = bucketsOf c' a n.
Proof.
  intros H. unfold bucketsOf. apply map_ext_in. intros i Hi.
  apply in_seq in Hi. now rewrite H.
Qed.

Lemma bump_buckets c n : forall a i,
  (i < n)%nat ->
  bump i (bucketsOf c a n)
  = bucketsOf (fun j => if (j =? a + i)%nat then c j + 1 else c j) a n.
Proof.
  induction n as [|n IH]; intros a i Hi; [lia|].
  unfold bucketsOf. cbn [seq List.map]. fold (bucketsOf c (S a) n).
  destruct i as [|i]; cbn [bump hour count].
  - rewrite Nat.add_0_r, Nat.eqb_refl. f_equal.
    apply bucketsOf_ext. intros j Hj.
    destruct (Nat.eqb_spec j a); [lia|reflexivity].
  - destruct (Nat.eqb_spec a (a + S i)); [lia|]. f_equal.
    rewrite IH by lia. apply bucketsOf_ext. intros j Hj.
    now replace (S a + i)%nat with (a + S i)%nat by lia.
Qed.

Lemma HourFromTime_range t : 0 <= HourFromTime t < 24.
Proof. unfold HourFromTime. apply Z.mod_pos_bound. lia. Qed.

Section Engine.

Variable DateParse : jsstring -> Date.

Lemma hourCount_cons h r l :
  hourCount DateParse h (r :: l)
  = (if atHour DateParse h r then 1 else 0) + hourCount DateParse h l.
Proof.
  unfold hourCount. cbn [List.filter].
  destruct (atHour DateParse h r); cbn [List.length]; lia.
Qed.

Lemma countHours_from l : forall c,
  fold_left (fun hrs r =>
               match smartParseDate DateParse (arrivalTime r) with
               | Some d => bump (Z.to_nat (HourFromTime d)) hrs
               | None => hrs
               end) l (bucketsOf c 0 24)
  = bucketsOf (fun j => c j + hourCount DateParse (Z.of_nat j) l) 0 24.
Proof.
  induction l as [|r l IH]; intros c; cbn [fold_left].
  - apply bucketsOf_ext. intros j _. unfold hourCount. cbn. lia.
  - destruct (smartParseDate DateParse (arrivalTime r)) as [d|] eqn:E.
    + pose proof (HourFromTime_range d) as Hh.
      rewrite bump_buckets by lia. rewrite IH.
      apply bucketsOf_ext. intros j Hj. rewrite hourCount_cons.
      unfold atHour. rewrite E. cbn [Nat.add].
      destruct (Nat.eqb_spec j (Z.to_nat (HourFromTime d))) as [->|Hne].
      * rewrite Z2Nat.id by lia. rewrite Z.eqb_refl. lia.
      * destruct (Z.eqb_spec (HourFromTime d) (Z.of_nat j)); lia.
    + rewrite IH. apply bucketsOf_ext. intros j _. rewrite hourCount_cons.
      unfold atHour. rewrite E. lia.
Qed.

(** The buckets are the hours from 0 to 23 with the numbers of the records
    that arrive in them. *)
Lemma countHours_buckets l :
  countHours DateParse l
  = bucketsOf (fun j => hourCount DateParse (Z.of_nat j) l) 0 24.
Proof.
  unfold countHours.
  change emptyHours with (bucketsOf (fun _ => 0) 0 24).
  rewrite countHours_from. apply bucketsOf_ext. intros j _. lia.
Qed.

Lemma bump_length i : forall hs, List.length (bump i hs) = List.length hs.
Proof.
  induction i as [|i IH]; intros [|b hs]; cbn [bump List.length]; try reflexivity.
  now rewrite IH.
Qed.

Lemma bump_total i : forall hs a,
  (i < List.length hs)%nat ->
  fold_left (fun a b => a + count b) (bump i hs) a
  = fold_left (fun a b => a + count b) hs a + 1.
Proof.
  induction i as [|i IH]; intros [|b hs] a Hi; cbn [List.length] in Hi; try lia.
  - cbn [bump fold_left count].
    replace (a + (count b + 1)) with (a + count b + 1) by lia.
    apply TimelineFacts.fold_count_shift.
  - cbn [bump fold_left]. apply IH. lia.
Qed.

(** The counts add up to the number of the records that parse. *)
Lemma countHours_total l : forall hs,
  List.length hs = 24%nat ->
  fold_left (fun a b => a + count b)
    (fold_left (fun hrs r =>
                  match smartParseDate DateParse (arrivalTime r) with
                  | Some d => bump (Z.to_nat (HourFromTime d)) hrs
                  | None => hrs
                  end) l hs) 0
  = fold_left (fun a b => a + count b) hs 0
    + Z.of_nat (List.length (List.filter (parses DateParse) l)).
Proof.
  induction l as [|r l IH]; intros hs Hlen; cbn [fold_left List.filter].
  - cbn [List.length]. lia.
  - unfold parses at 1.
    destruct (smartParseDate DateParse (arrivalTime r)) as [d|].
    + pose proof (HourFromTime_range d) as Hh.
      rewrite IH by (now rewrite bump_length).
      rewrite bump_total by lia. cbn [List.length]. lia.
    + now apply IH.
Qed.

End Engine.

(** *** The active hours of a half of the day *)

Lemma label_parses i : (i < 24)%nat -> parseIntLabel (hourLabel i) = Z.of_nat i.
Proof.
  intros Hi.
  assert (H : forallb (fun i => parseIntLabel (hourLabel i) =? Z.of_nat i)
                      (seq 0 24) = true) by (vm_compute; reflexivity).
  rewrite forallb_forall in H. apply Z.eqb_eq. apply H. apply in_seq. lia.
Qed.

Lemma activeHours_buckets c n : forall a,
  (a + n <= 24)%nat ->
  activeHours (bucketsOf c a n)
  = List.map Z.of_nat (List.filter (fun i => 0 <? c i) (seq a n)).
Proof.
  unfold activeHours, bucketsOf.
  induction n as [|n IH]; intros a Ha; [reflexivity|].
  cbn [seq List.map List.filter count].
  destruct (0 <? c a); cbn [List.map hour].
  - rewrite label_parses by lia. f_equal. apply IH. lia.
  - apply IH. lia.
Qed.

Lemma fold_min_spec r : forall x,
  (fold_left Z.min r x = x \/ In (fold_left Z.min r x) r)
  /\ fold_left Z.min r x <= x
  /\ forall y, In y r -> fold_left Z.min r x <= y.
Proof.
  induction r as [|z r IH]; intros x; cbn [fold_left In].
  - repeat split; [now left|lia|intros y []].
  - destruct (IH (Z.min x z)) as ([H1|H1] & H2 & H3).
    + repeat split.
      * rewrite H1. destruct (Z.min_spec x z) as [[_ ->]|[_ ->]]; auto.
      * lia.
      * intros y [<-|Hy]; [lia|now apply H3].
    + repeat split; [auto|lia|].
      intros y [<-|Hy]; [lia|now apply H3].
Qed.

Lemma fold_max_spec r : forall x,
  (fold_left Z.max r x = x \/ In (fold_left Z.max r x) r)
  /\ x <= fold_left Z.max r x
  /\ forall y, In y r -> y <= fold_left Z.max r x.
Proof.
  induction r as [|z r IH]; intros x; cbn [fold_left In].
  - repeat split; [now left|lia|intros y []].
  - destruct (IH (Z.max x z)) as ([H1|H1] & H2 & H3).
    + repeat split.
      * rewrite H1. destruct (Z.max_spec x z) as [[_ ->]|[_ ->]]; auto.
      * lia.
      * intros y [<-|Hy]; [lia|now apply H3].
    + repeat split; [auto|lia|].
      intros y [<-|Hy]; [lia|now apply H3].
Qed.

Lemma minOf_spec a :
  a <> [] -> In (minOf a) a /\ forall y, In y a -> minOf a <= y.
Proof.
  destruct a as [|x r]; [congruence|]. intros _. cbn [minOf].
  destruct (fold_min_spec r x) as (H1 & H2 & H3). split.
  - destruct H1 as [->|H1]; [now left|now right].
  - intros y [<-|Hy]; [assumption|now apply H3].
Qed.

Lemma maxOf_spec a :
  a <> [] -> In (maxOf a) a /\ forall y, In y a -> y <= maxOf a.
Proof.
  destruct a as [|x r]; [congruence|]. intros _. cbn [maxOf].
  destruct (fold_max_spec r x) as (H1 & H2 & H3). split.
  - destruct H1 as [->|H1]; [now left|now right].
  - intros y [<-|Hy]; [assumption|now apply H3].
Qed.

Section Halves.

Variable DateParse : jsstring -> Date.

(** The active hours of a half: its hours with an arrival, in order. *)
Lemma half_active pm l :
  halfStr pm (flowData DateParse l)
  = spanText (halfLabel pm)
      (List.map Z.of_nat
         (List.filter (fun i => 0 <? hourCount DateParse (Z.of_nat i) l)
                      (seq (Z.to_nat (halfStart pm)) 12))).
Proof.
  unfold flowData. rewrite countHours_buckets.
  destruct pm; cbn [halfStr halfLabel halfStart amStr pmStr].
  - change (firstn (24 - 12)
              (skipn 12 (bucketsOf (fun j => hourCount DateParse (Z.of_nat j) l) 0 24)))
      with (bucketsOf (fun j => hourCount DateParse (Z.of_nat j) l) 12 12).
    rewrite activeHours_buckets by lia. reflexivity.
  - change (firstn 12 (bucketsOf (fun j => hourCount DateParse (Z.of_nat j) l) 0 24))
      with (bucketsOf (fun j => hourCount DateParse (Z.of_nat j) l) 0 12).
    rewrite activeHours_buckets by lia. reflexivity.
Qed.

Lemma in_active pm l h :
  In h (List.map Z.of_nat
          (List.filter (fun i => 0 <? hourCount DateParse (Z.of_nat i) l)
                       (seq (Z.to_nat (halfStart pm)) 12)))
  <-> halfStart pm <= h < halfStart pm + 12 /\ 0 < hourCount DateParse h l.
Proof.
  rewrite in_map_iff. split.
  - intros (i & <- & Hi). apply filter_In in Hi. destruct Hi as [Hi Hc].
    apply in_seq in Hi. apply Z.ltb_lt in Hc.
    split; [destruct pm; cbn [halfStart] in *; lia|assumption].
  - intros [Hh Hc]. exists (Z.to_nat h).
    assert (0 <= h) by (destruct pm; cbn [halfStart] in *; lia).
    split; [lia|]. apply filter_In. split.
    + apply in_seq. destruct pm; cbn [halfStart] in *; lia.
    + rewrite Z2Nat.id by lia. now apply Z.ltb_lt.
Qed.

End Halves.

End FlowFacts.

Section Flow.

Variable DateParse : jsstring -> Date.

(** X23: the flow has the 24 buckets of the hours 0 to 23, in order; the count
    of a bucket is the number of the records that arrive in its hour, and
    the counts add up to the number of the records that parse. *)
Theorem flow_buckets (filtered : list TruckData) :
  Views.hrs (Views.flowData DateParse filtered)
  = Views.bucketsOf (fun j => Views.hourCount DateParse (Z.of_nat j) filtered) 0 24
  /\ List.length (Views.hrs (Views.flowData DateParse filtered)) = 24%nat
  /\ fold_left (fun a b => a + Views.count b)
               (Views.hrs (Views.flowData DateParse filtered)) 0
     = Z.of_nat (List.length (List.filter (Views.parses DateParse) filtered)).
Proof.
  assert (E : Views.hrs (Views.flowData DateParse filtered)
              = Views.bucketsOf
                  (fun j => Views.hourCount DateParse (Z.of_nat j) filtered) 0 24).
  { unfold Views.flowData. cbn [Views.hrs]. apply FlowFacts.countHours_buckets. }
  split; [exact E|]. split.
  - rewrite E. unfold Views.bucketsOf. now rewrite length_map, length_seq.
  - unfold Views.flowData. cbn [Views.hrs]. unfold Views.countHours.
    now rewrite FlowFacts.countHours_total.
Qed.

(** X24: the text of a half of the day names its first and its last hour with
    an arrival. *)
Theorem flow_span (filtered : list TruckData) (pm : bool) (lo hi : Z) :
  Views.halfStart pm <= lo <= hi -> hi < Views.halfStart pm + 12 ->
  0 < Views.hourCount DateParse lo filtered ->
  0 < Views.hourCount DateParse hi filtered ->
  (forall h, Views.halfStart pm <= h < Views.halfStart pm + 12 ->
             0 < Views.hourCount DateParse h filtered -> lo <= h <= hi) ->
  Views.halfStr pm (Views.flowData DateParse filtered)
  = Views.halfLabel pm ++ js ": " ++ stringOfZ lo ++ js "h~" ++ stringOfZ hi ++ js "h".
Proof.
  intros Hlo Hhi Clo Chi Hall.
  rewrite FlowFacts.half_active.
  set (a := List.map Z.of_nat _).
  assert (Hin : forall h, In h a <-> Views.halfStart pm <= h < Views.halfStart pm + 12
                                     /\ 0 < Views.hourCount DateParse h filtered).
  { intros h. apply FlowFacts.in_active. }
  assert (Hlo' : In lo a) by (apply Hin; split; [lia|assumption]).
  assert (Hhi' : In hi a) by (apply Hin; split; [lia|assumption]).
  assert (Hne : a <> []) by (intros E; rewrite E in Hlo'; destruct Hlo').
  destruct (FlowFacts.minOf_spec a Hne) as [M1 M2].
  destruct (FlowFacts.maxOf_spec a Hne) as [X1 X2].
  assert (Emin : Views.minOf a = lo).
  { apply Hin in M1. destruct M1 as [R C].
    pose proof (Hall _ R C). pose proof (M2 lo Hlo'). lia. }
  assert (Emax : Views.maxOf a = hi).
  { apply Hin in X1. destruct X1 as [R C].
    pose proof (Hall _ R C). pose proof (X2 hi Hhi'). lia. }
  unfold Views.spanText. rewrite Emin, Emax.
  destruct a as [|x a']; [congruence|]. reflexivity.
Qed.

(** X25: the text of a half of the day without an arrival is two hyphens. *)
Theorem flow_span_none (filtered : list TruckData) (pm : bool) :
  (forall h, Views.halfStart pm <= h < Views.halfStart pm + 12 ->
             Views.hourCount DateParse h filtered = 0) ->
  Views.halfStr pm (Views.flowData DateParse filtered) = Views.halfLabel pm ++ js ": --".
Proof.
  intros Hall. rewrite FlowFacts.half_active.
  set (a := List.map Z.of_nat _).
  assert (Hin : forall h, In h a <-> Views.halfStart pm <= h < Views.halfStart pm + 12
                                     /\ 0 < Views.hourCount DateParse h filtered).
  { intros h. apply FlowFacts.in_active. }
  destruct a as [|x a']; [reflexivity|]. exfalso.
  destruct (proj1 (Hin x) (or_introl eq_refl)) as [R C].
  rewrite (Hall x R) in C. lia.
Qed.

End Flow.

(** Arrivals at 08:00, 12:00 and 06:59: the morning runs from 6 h to 8 h. *)
Lemma flow_span_witness :
  Views.halfStr false
    (Views.flowData noDateParse
       [Views.event (js "Sand") (js "2024-03-05 08:00") 120 1200;
        Views.event (js "Gravel") (js "2024-03-04 12:00") 30 900;
        Views.event (js "Sand") (js "2024-03-06 06:59") 45 1250])
  = Views.halfLabel false ++ js ": " ++ stringOfZ 6 ++ js "h~" ++ stringOfZ 8 ++ js "h".
Proof.
  apply (flow_span noDateParse
           [Views.event (js "Sand") (js "2024-03-05 08:00") 120 1200;
            Views.event (js "Gravel") (js "2024-03-04 12:00") 30 900;
            Views.event (js "Sand") (js "2024-03-06 06:59") 45 1250] false 6 8).
  - cbn. lia.
  - cbn. lia.
  - vm_compute. reflexivity.
  - vm_compute. reflexivity.
  - cbn [Views.halfStart]. intros h Hh Hc.
    assert (Hcases : h = 0 \/ h = 1 \/ h = 2 \/ h = 3 \/ h = 4 \/ h = 5 \/ h = 6
                     \/ h = 7 \/ h = 8 \/ h = 9 \/ h = 10 \/ h = 11) by lia.
    repeat (destruct Hcases as [->|Hcases]; [try lia; vm_compute in Hc; discriminate|]).
    subst h. vm_compute in Hc. discriminate.
Defined.

(** Arrivals at 08:00 and 06:59 only: no arrival after noon. *)
Lemma flow_span_none_witness :
  Views.halfStr true
    (Views.flowData noDateParse
       [Views.event (js "Sand") (js "2024-03-05 08:00") 120 1200;
        Views.event (js "Sand") (js "2024-03-06 06:59") 45 1250])
  = Views.halfLabel true ++ js ": --".
Proof.
  apply (flow_span_none noDateParse
           [Views.event (js "Sand") (js "2024-03-05 08:00") 120 1200;
            Views.event (js "Sand") (js "2024-03-06 06:59") 45 1250] true).
  cbn [Views.halfStart]. intros h Hh.
  assert (Hcases : h = 12 \/ h = 13 \/ h = 14 \/ h = 15 \/ h = 16 \/ h = 17 \/ h = 18
                   \/ h = 19 \/ h = 20 \/ h = 21 \/ h = 22 \/ h = 23) by lia.
  repeat (destruct Hcases as [->|Hcases]; [vm_compute; reflexivity|]).
  subst h. vm_compute. reflexivity.
Defined.

(* ================================================================== *)
(** ** The two layouts of a date, and the white space around it *)
(* ================================================================== *)

Module LayoutFacts.

Import Views.

Lemma separator_plain c : isSeparator c = true -> plainChar c = true.
Proof.
  unfold isSeparator. intros H.
  apply orb_true_iff in H. destruct H as [H|H];
    [apply orb_true_iff in H; destruct H as [H|H]|];
    apply N.eqb_eq in H; subst c; reflexivity.
Qed.

Lemma separator_not_digit c : isSeparator c = true -> isDigit c = false.
Proof.
  unfold isSeparator. intros H.
  apply orb_true_iff in H. destruct H as [H|H];
    [apply orb_true_iff in H; destruct H as [H|H]|];
    apply N.eqb_eq in H; subst c; reflexivity.
Qed.

Lemma sepChar_separator c r : isSeparator c = true -> sepChar (c :: r) = Some r.
Proof. unfold isSeparator. cbn [sepChar]. now intros ->. Qed.

Lemma isoMatch_year_first y1 y2 y3 y4 s1 m1 m2 s2 d1 d2 :
  forallb isDigit [y1; y2; y3; y4; m1; m2; d1; d2] = true ->
  forallb isSeparator [s1; s2] = true ->
  isoMatch [y1; y2; y3; y4; s1; m1; m2; s2; d1; d2]
  = Some ([y1; y2; y3; y4], [m1; m2], [d1; d2]).
Proof.
  intros Hd Hs. cbn [forallb] in Hd, Hs.
  repeat match goal with
  | H : andb _ _ = true |- _ => apply andb_true_iff in H; destruct H
  end.
  unfold isoMatch, digits12. cbn [digitsN].
  repeat match goal with
  | H : isDigit _ = true |- _ => rewrite H
  end.
  rewrite (sepChar_separator s1) by assumption. cbn [digitsN].
  repeat match goal with
  | H : isDigit _ = true |- _ => rewrite H
  end.
  rewrite (sepChar_separator s2) by assumption. cbn [digitsN].
  repeat match goal with
  | H : isDigit _ = true |- _ => rewrite H
  end.
  reflexivity.
Qed.

Lemma dmyMatch_day_first d1 d2 s1 m1 m2 s2 y1 y2 y3 y4 :
  forallb isDigit [y1; y2; y3; y4; m1; m2; d1; d2] = true ->
  forallb isSeparator [s1; s2] = true ->
  isoMatch [d1; d2; s1; m1; m2; s2; y1; y2; y3; y4] = None
  /\ dmyMatch [d1; d2; s1; m1; m2; s2; y1; y2; y3; y4]
     = Some ([d1; d2], [m1; m2], [y1; y2; y3; y4]).
Proof.
  intros Hd Hs. cbn [forallb] in Hd, Hs.
  repeat match goal with
  | H : andb _ _ = true |- _ => apply andb_true_iff in H; destruct H
  end.
  pose proof (separator_not_digit s1 ltac:(assumption)) as Hn1.
  split.
  - unfold isoMatch. cbn [digitsN].
    repeat match goal with
    | H : isDigit _ = true |- _ => rewrite H
    end.
    rewrite Hn1. reflexivity.
  - unfold dmyMatch, digits12. cbn [digitsN].
    repeat match goal with
    | H : isDigit _ = true |- _ => rewrite H
    end.
    rewrite (sepChar_separator s1) by assumption. cbn [digitsN].
    repeat match goal with
    | H : isDigit _ = true |- _ => rewrite H
    end.
    rewrite (sepChar_separator s2) by assumption. cbn [digitsN].
    repeat match goal with
    | H : isDigit _ = true |- _ => rewrite H
    end.
    reflexivity.
Qed.

(** *** White space around a text *)

Lemma trimStart_ws ws s :
  forallb isWhiteSpace ws = true -> trimStart (ws ++ s) = trimStart s.
Proof.
  induction ws as [|c ws IH]; [reflexivity|]. cbn [forallb app trimStart].
  intros H. apply andb_true_iff in H. destruct H as [-> H]. now apply IH.
Qed.

Lemma trimStart_all ws : forallb isWhiteSpace ws = true -> trimStart ws = [].
Proof.
  intros H. rewrite <- (app_nil_r ws). now rewrite trimStart_ws.
Qed.

Lemma trimEnd_ws s ws :
  forallb isWhiteSpace ws = true -> trimEnd (s ++ ws) = trimEnd s.
Proof.
  intros H. unfold trimEnd. rewrite rev_app_distr.
  rewrite trimStart_ws; [reflexivity|]. now apply CalendarFacts.forallb_rev.
Qed.

Lemma trim_ws ws s ws' :
  forallb isWhiteSpace ws = true -> forallb isWhiteSpace ws' = true ->
  trim (ws ++ s ++ ws') = trim s.
Proof.
  intros H H'. unfold trim. rewrite (trimStart_ws ws _ H).
  induction s as [|c s IH].
  - cbn [app]. now rewrite (trimStart_all ws' H').
  - cbn [app trimStart]. destruct (isWhiteSpace c); [exact IH|].
    change (c :: s ++ ws') with ((c :: s) ++ ws'). now apply trimEnd_ws.
Qed.

Lemma smartParseDate_clean (DateParse : jsstring -> Date) a b :
  nonEmpty a = nonEmpty b -> cleanText a = cleanText b ->
  smartParseDate DateParse a = smartParseDate DateParse b.
Proof. intros E1 E2. unfold smartParseDate. now rewrite E1, E2. Qed.

End LayoutFacts.

Section Layouts.

Variable DateParse : jsstring -> Date.

(** X26: a date written day first and the same date written year first, each
    with two digits for the day and for the month and any of the three
    separators, are read as the same date. *)
Theorem day_first_agrees_with_year_first (d1 d2 m1 m2 y1 y2 y3 y4 s1 s2 s3 s4 : jschar) :
  forallb isDigit [y1; y2; y3; y4; m1; m2; d1; d2] = true ->
  forallb Views.isSeparator [s1; s2] = true ->
  forallb Views.isSeparator [s3; s4] = true ->
  smartParseDate DateParse [d1; d2; s1; m1; m2; s2; y1; y2; y3; y4]
  = smartParseDate DateParse [y1; y2; y3; y4; s3; m1; m2; s4; d1; d2].
Proof.
  intros Hd Hs Hs'.
  destruct (LayoutFacts.dmyMatch_day_first d1 d2 s1 m1 m2 s2 y1 y2 y3 y4 Hd Hs)
    as [Hiso Hdmy].
  pose proof (LayoutFacts.isoMatch_year_first y1 y2 y3 y4 s3 m1 m2 s4 d1 d2 Hd Hs')
    as Hyf.
  cbn [forallb] in Hd, Hs, Hs'.
  repeat match goal with
  | H : andb _ _ = true |- _ => apply andb_true_iff in H; destruct H
  end.
  assert (P1 : forallb Views.plainChar [d1; d2; s1; m1; m2; s2; y1; y2; y3; y4] = true).
  { cbn [forallb].
    rewrite (CalendarFacts.digit_plain d1), (CalendarFacts.digit_plain d2),
      (CalendarFacts.digit_plain m1), (CalendarFacts.digit_plain m2),
      (CalendarFacts.digit_plain y1), (CalendarFacts.digit_plain y2),
      (CalendarFacts.digit_plain y3), (CalendarFacts.digit_plain y4),
      (LayoutFacts.separator_plain s1), (LayoutFacts.separator_plain s2)
      by assumption.
    reflexivity. }
  assert (P2 : forallb Views.plainChar [y1; y2; y3; y4; s3; m1; m2; s4; d1; d2] = true).
  { cbn [forallb].
    rewrite (CalendarFacts.digit_plain d1), (CalendarFacts.digit_plain d2),
      (CalendarFacts.digit_plain m1), (CalendarFacts.digit_plain m2),
      (CalendarFacts.digit_plain y1), (CalendarFacts.digit_plain y2),
      (CalendarFacts.digit_plain y3), (CalendarFacts.digit_plain y4),
      (LayoutFacts.separator_plain s3), (LayoutFacts.separator_plain s4)
      by assumption.
    reflexivity. }
  unfold smartParseDate. cbn [nonEmpty negb].
  rewrite (CalendarFacts.cleanText_plain _ P1), (CalendarFacts.dateAndTime_plain _ P1).
  rewrite (CalendarFacts.cleanText_plain _ P2), (CalendarFacts.dateAndTime_plain _ P2).
  now rewrite Hiso, Hdmy, Hyf.
Qed.

(** X27: white space before and after a text that is not empty does not change
    the date that is read from it. *)
Theorem smartParseDate_trims (ws str ws' : jsstring) :
  forallb isWhiteSpace ws = true -> forallb isWhiteSpace ws' = true ->
  str <> [] ->
  smartParseDate DateParse (ws ++ str ++ ws') = smartParseDate DateParse str.
Proof.
  intros H H' Hne. apply LayoutFacts.smartParseDate_clean.
  - destruct str; [congruence|]. destruct ws; reflexivity.
  - unfold cleanText. do 2 f_equal. now apply LayoutFacts.trim_ws.
Qed.

End Layouts.

(** The 5th of March 2024, as 05/03/2024 and as 2024-03-05. *)
Lemma day_first_agrees_with_year_first_witness :
  smartParseDate noDateParse (js "05/03/2024")
  = smartParseDate noDateParse (js "2024-03-05").
Proof.
  apply (day_first_agrees_with_year_first noDateParse
           48%N 53%N 48%N 51%N 50%N 48%N 50%N 52%N 47%N 47%N 45%N 45%N);
    reflexivity.
Defined.

(** A date between a space and a line feed. *)
Lemma smartParseDate_trims_witness :
  smartParseDate noDateParse (js " " ++ js "2024-03-05 14:30" ++ [LF])
  = smartParseDate noDateParse (js "2024-03-05 14:30").
Proof.
  apply (smartParseDate_trims noDateParse (js " ") (js "2024-03-05 14:30") [LF]).
  - reflexivity.
  - reflexivity.
  - discriminate.
Defined.
